(** * GamifyMotor: the solid rocket motor physics engine

    A shallow embedding of [motorPhysics.js]: the propellant and material
    catalogs, the burning-area, burn-rate, chamber-pressure, thrust and
    stress functions, and the [MotorSimulation] state machine.

    JavaScript numbers are IEEE 754 binary64 values, so they are modelled
    by Rocq's primitive [float]: [+], [-], [*], [/] and the comparisons
    are the very operations the engine runs, NaN and the infinities
    included. *)

From Stdlib Require Import ZArith Floats Bool List String Lia.
From Stdlib Require Reals Lra.
Import ListNotations.

Set Warnings "-inexact-float".

Local Open Scope float_scope.

(** ** JavaScript builtins used by the engine *)

Module JS.

(** [ToBoolean] on a number: [0], [-0] and [NaN] are falsy. *)
Definition truthy (x : float) : bool := negb (is_nan x || (x =? 0)).

(** [x || d] on numbers. *)
Definition or_else (x d : float) : float := if truthy x then x else d.

Definition isNaN (x : float) : bool := is_nan x.
Definition isFinite (x : float) : bool := is_finite x.

Definition is_pos_zero (x : float) : bool :=
  match classify x with PZero => true | _ => false end.
Definition is_neg_zero (x : float) : bool :=
  match classify x with NZero => true | _ => false end.

(** One round of the loop of [Math.max]: [highest] is the running
    maximum, [number] the next argument (known not to be NaN). *)
Definition max_step (highest number : float) : float :=
  if is_pos_zero number && is_neg_zero highest then number
  else if highest <? number then number
  else highest.

(** One round of the loop of [Math.min]. *)
Definition min_step (lowest number : float) : float :=
  if is_neg_zero number && is_pos_zero lowest then number
  else if number <? lowest then number
  else lowest.

(** [Math.max(a, b)]: NaN as soon as one argument is NaN, otherwise the
    loop started at [-Infinity]. *)
Definition Math_max (a b : float) : float :=
  if is_nan a || is_nan b then nan
  else fold_left max_step [a; b] neg_infinity.

(** [Math.min(a, b)]: the loop started at [+Infinity]. *)
Definition Math_min (a b : float) : float :=
  if is_nan a || is_nan b then nan
  else fold_left min_step [a; b] infinity.

Definition Math_abs (x : float) : float := abs x.
Definition Math_sqrt (x : float) : float := sqrt x.
Definition Math_PI : float := 3.141592653589793.

(** Whether a number is an integer, and whether it is an odd one, read
    off its mantissa and exponent. *)
Definition is_integral (x : float) : bool :=
  match Prim2SF x with
  | S754_zero _ => true
  | S754_finite _ m e =>
      (0 <=? e)%Z || (Z.modulo (Zpos m) (2 ^ (- e)) =? 0)%Z
  | _ => false
  end.

Definition is_odd_integral (x : float) : bool :=
  match Prim2SF x with
  | S754_finite _ m e =>
      if (0 <? e)%Z then false
      else (Z.modulo (Zpos m) (2 ^ (- e)) =? 0)%Z
           && Z.odd (Z.div (Zpos m) (2 ^ (- e)))
  | _ => false
  end.

Section Pow.

(** ECMAScript fixes [Math.pow] on the special values and leaves the
    remaining case (finite non-zero base, finite non-zero exponent)
    to an implementation-approximated result: [approx] stands for
    that part of the host engine. *)
Variable approx : float -> float -> float.

Definition Math_pow (base exponent : float) : float :=
  if is_nan exponent then nan
  else if exponent =? 0 then 1
  else if is_nan base then nan
  else if base =? infinity then
    if 0 <? exponent then infinity else 0
  else if base =? neg_infinity then
    if 0 <? exponent
    then (if is_odd_integral exponent then neg_infinity else infinity)
    else (if is_odd_integral exponent then -0 else 0)
  else if is_pos_zero base then
    if 0 <? exponent then 0 else infinity
  else if is_neg_zero base then
    if 0 <? exponent
    then (if is_odd_integral exponent then -0 else 0)
    else (if is_odd_integral exponent then neg_infinity else infinity)
  else if exponent =? infinity then
    if 1 <? abs base then infinity
    else if abs base =? 1 then nan
    else 0
  else if exponent =? neg_infinity then
    if 1 <? abs base then 0
    else if abs base =? 1 then nan
    else infinity
  else if (base <? 0) && negb (is_integral exponent) then nan
  else approx base exponent.

End Pow.

End JS.

Import JS.

(** ** Constants and catalogs *)

Module CONSTANTS.
Definition GRAVITY : float := 9.81.
Definition UNIVERSAL_GAS_CONSTANT : float := 8314.
Definition ATMOSPHERIC_PRESSURE : float := 101325.
End CONSTANTS.

Module Propellant.
Record t := mk {
  name : string;
  density : float;
  burnRateCoeff : float;
  burnRateExponent : float;
  referencePressure : float;
  characteristicVelocity : float;
  gamma : float;
  combustionTemp : float;
  molecularMass : float
}.
End Propellant.

Module PROPELLANTS.
Import Propellant.
Definition KNSB : t :=
  {| name := "KNSB (KNO3/Sorbitol 65/35)"; density := 1841;
     burnRateCoeff := 8.26; burnRateExponent := 0.319;
     referencePressure := 6.895; characteristicVelocity := 885;
     gamma := 1.133; combustionTemp := 1600; molecularMass := 39.9 |}.
Definition KNSU : t :=
  {| name := "KNSU (KNO3/Sucrose 65/35)"; density := 1889;
     burnRateCoeff := 8.26; burnRateExponent := 0.319;
     referencePressure := 6.895; characteristicVelocity := 914;
     gamma := 1.133; combustionTemp := 1720; molecularMass := 42.0 |}.
Definition KNDX : t :=
  {| name := "KNDX (KNO3/Dextrose 65/35)"; density := 1879;
     burnRateCoeff := 8.87; burnRateExponent := 0.326;
     referencePressure := 6.895; characteristicVelocity := 889;
     gamma := 1.131; combustionTemp := 1710; molecularMass := 42.4 |}.
Definition APCP : t :=
  {| name := "APCP (70% AP Composite)"; density := 1772;
     burnRateCoeff := 3.517; burnRateExponent := 0.395;
     referencePressure := 6.895; characteristicVelocity := 1550;
     gamma := 1.25; combustionTemp := 3000; molecularMass := 26.0 |}.
End PROPELLANTS.

Module Material.
Record t := mk {
  name : string;
  density : float;
  yieldStrength : float;
  ultimateStrength : float;
  thermalConductivity : float;
  color : string
}.
End Material.

Module MATERIALS.
Import Material.
Definition ALUMINUM : t :=
  {| name := "Aluminum 6061-T6"; density := 2700; yieldStrength := 276e6;
     ultimateStrength := 310e6; thermalConductivity := 167;
     color := "#A8A8A8" |}.
Definition STEEL : t :=
  {| name := "Steel 4130"; density := 7850; yieldStrength := 435e6;
     ultimateStrength := 560e6; thermalConductivity := 42;
     color := "#606060" |}.
Definition PVC : t :=
  {| name := "PVC Schedule 40"; density := 1400; yieldStrength := 52e6;
     ultimateStrength := 52e6; thermalConductivity := 0.19;
     color := "#E8E8E8" |}.
Definition COMPOSITE : t :=
  {| name := "Carbon Fiber Composite"; density := 1600;
     yieldStrength := 600e6; ultimateStrength := 800e6;
     thermalConductivity := 5; color := "#2D2D2D" |}.
End MATERIALS.

Module GRAIN_TYPES.
Definition BATES : string := "bates".
Definition STAR : string := "star".
Definition CYLINDRICAL : string := "cylindrical".
Definition FINOCYL : string := "finocyl".
End GRAIN_TYPES.

Module Grain.
Record t := mk {
  type : string;
  outerRadius : float;
  coreRadius : float;
  length : float;
  segments : float;
  starPoints : float;
  starInnerRadius : float
}.
End Grain.

Module Nozzle.
Record t := mk {
  throatDiameter : float;
  exitDiameter : float;
  efficiency : float
}.
End Nozzle.

Module Casing.
Record t := mk {
  innerRadius : float;
  wallThickness : float
}.
End Casing.

(** ** The physics functions *)

Section Physics.

Variable approx : float -> float -> float.

Local Abbreviation pow := (Math_pow approx).

Definition calculateBurningArea (grainConfig : Grain.t)
    (currentInnerRadius : float) : float :=
  let type := Grain.type grainConfig in
  let outerRadius := Grain.outerRadius grainConfig in
  let r := Math_min (Math_max currentInnerRadius 0.001) (outerRadius * 0.99) in
  let N := or_else (Grain.segments grainConfig) 1 in
  let L := or_else (Grain.length grainConfig) 0.1 in
  let R := or_else outerRadius 0.038 in
  if String.eqb type GRAIN_TYPES.BATES then
    let coreArea := N * 2 * Math_PI * r * L in
    let endInhibition := 0.3 in
    let endArea := N * 2 * Math_PI * (R * R - r * r) * endInhibition in
    coreArea + endArea
  else if String.eqb type GRAIN_TYPES.CYLINDRICAL then
    N * 2 * Math_PI * r * L
  else if String.eqb type GRAIN_TYPES.STAR then
    let starMultiplier := 2.5 in
    N * 2 * Math_PI * r * L * starMultiplier
  else
    N * 2 * Math_PI * r * L.

(** The unclamped rate [rate_m_s] of [calculateBurnRate]. *)
Definition rate_m_s (pressure : float) (propellant : Propellant.t) : float :=
  let P_MPa := Math_max (pressure / 1e6) 0.1 in
  let Pref := or_else (Propellant.referencePressure propellant) 6.895 in
  let rate_mm_s :=
    Propellant.burnRateCoeff propellant
    * pow (P_MPa / Pref) (Propellant.burnRateExponent propellant) in
  rate_mm_s / 1000.

Definition calculateBurnRate (pressure : float) (propellant : Propellant.t)
    : float :=
  let rate := rate_m_s pressure propellant in
  if negb (isFinite rate) || isNaN rate then 0
  else Math_max 0 (Math_min rate 0.030).

Definition calculateThroatArea (throatDiameter : float) : float :=
  let r := throatDiameter / 2 in
  Math_PI * r * r.

(** The [for] loop of [calculateChamberPressure], run for at most [fuel]
    rounds from the estimate [Pc]: the final estimate and the number of
    rounds entered. *)
Fixpoint pressure_loop (fuel : nat) (rho a_m_s n Pref cStar : float)
    (burningArea throatArea Pc : float) : float * nat :=
  match fuel with
  | O => (Pc, O)
  | S fuel' =>
      let r := a_m_s * pow (Pc / Pref) n in
      let mdot_gen := rho * r * burningArea in
      let mdot_out := Pc * throatArea / cStar in
      let Pc_new := mdot_gen * cStar / throatArea in
      if Math_abs (Pc_new - Pc) <? 1000 then (Pc, 1%nat)
      else
        let '(Pc', k) :=
          pressure_loop fuel' rho a_m_s n Pref cStar burningArea throatArea
            (0.7 * Pc + 0.3 * Pc_new) in
        (Pc', S k)
  end.

(** [calculateChamberPressure] together with the number of rounds of
    the fixed-point loop it ran. *)
Definition chamberPressure_run (burningArea throatArea : float)
    (propellant : Propellant.t) : float * nat :=
  if negb (truthy burningArea) || (burningArea <=? 0)
  then (CONSTANTS.ATMOSPHERIC_PRESSURE, O)
  else if negb (truthy throatArea) || (throatArea <=? 0)
  then (CONSTANTS.ATMOSPHERIC_PRESSURE, O)
  else
    let rho := Propellant.density propellant in
    let a_mm_s := Propellant.burnRateCoeff propellant in
    let a_m_s := a_mm_s / 1000 in
    let n := Propellant.burnRateExponent propellant in
    let Pref := or_else (Propellant.referencePressure propellant) 6.895 * 1e6 in
    let cStar := Propellant.characteristicVelocity propellant in
    let '(Pc, k) :=
      pressure_loop 20 rho a_m_s n Pref cStar burningArea throatArea 2e6 in
    if negb (isFinite Pc) || isNaN Pc
    then (CONSTANTS.ATMOSPHERIC_PRESSURE, k)
    else (Math_max CONSTANTS.ATMOSPHERIC_PRESSURE (Math_min Pc 15e6), k).

Definition calculateChamberPressure (burningArea throatArea : float)
    (propellant : Propellant.t) : float :=
  fst (chamberPressure_run burningArea throatArea propellant).

Definition calculateThrustCoefficient
    (gamma exitArea throatArea chamberPressure : float) : float :=
  let Pe := CONSTANTS.ATMOSPHERIC_PRESSURE in
  let Pc := chamberPressure in
  if Pc <=? Pe then 0
  else
    let epsilon := exitArea / throatArea in
    let pressureRatio := Pe / Pc in
    let term1 := (2 * gamma * gamma) / (gamma - 1) in
    let term2 := pow (2 / (gamma + 1)) ((gamma + 1) / (gamma - 1)) in
    let term3 := 1 - pow pressureRatio ((gamma - 1) / gamma) in
    let Cf := Math_sqrt (term1 * term2 * Math_max term3 0) in
    let Cf := if negb (isFinite Cf) || isNaN Cf then 1.5 else Cf in
    Math_max 1.0 (Math_min Cf 2.2).

Definition calculateThrust (chamberPressure throatArea exitArea : float)
    (propellant : Propellant.t) : float :=
  let gamma := Propellant.gamma propellant in
  if chamberPressure <=? CONSTANTS.ATMOSPHERIC_PRESSURE then 0
  else if throatArea <=? 0 then 0
  else
    let Cf := calculateThrustCoefficient gamma exitArea throatArea
                chamberPressure in
    let thrust := Cf * chamberPressure * throatArea in
    if negb (isFinite thrust) || isNaN thrust then 0
    else Math_max 0 thrust.

End Physics.

Definition calculateHoopStress (pressure innerRadius wallThickness : float)
    : float :=
  if wallThickness <=? 0 then infinity
  else
    let stress := (pressure * innerRadius) / wallThickness in
    if negb (isFinite stress) || isNaN stress then 0
    else Math_max 0 stress.

Definition calculateSafetyFactor (stress : float) (material : Material.t)
    : float :=
  if stress <=? 0 then 99
  else
    let sf := Material.yieldStrength material / stress in
    if negb (isFinite sf) || isNaN sf then 99
    else Math_max 0 (Math_min sf 99).

Record Failure := { yielding : bool; catastrophic : bool }.

Definition checkForFailure (stress : float) (material : Material.t) : Failure :=
  {| yielding := Material.yieldStrength material <? stress;
     catastrophic := Material.ultimateStrength material <? stress |}.

Definition calculateIsp (cStar thrustCoeff : float) : float :=
  (cStar * thrustCoeff) / CONSTANTS.GRAVITY.

(** ** The simulation object *)

Module Config.
Record t := mk {
  propellant : Propellant.t;
  material : Material.t;
  grainConfig : Grain.t;
  nozzle : Nozzle.t;
  casing : Casing.t
}.
End Config.

(** The arrays of [this.history]; [push] appends at the end. *)
Module History.
Record t := mk {
  time : list float;
  pressure : list float;
  thrust : list float;
  burnRate : list float;
  innerRadius : list float;
  Kn : list float;
  stress : list float
}.
Definition empty : t := mk [] [] [] [] [] [] [].
End History.

(** The fields of a [MotorSimulation] instance. *)
Record MotorSimulation := mkSim {
  config : Config.t;
  time : float;
  currentInnerRadius : float;
  chamberPressure : float;
  thrust : float;
  burnRate : float;
  burnRateMmS : float;
  burningArea : float;
  Kn : float;
  stress : float;
  safetyFactor : float;
  isBurning : bool;
  isBurnedOut : bool;
  hasExploded : bool;
  explosionTime : option float;
  history : History.t;
  totalImpulse : float;
  burnTime : float;
  maxThrust : float;
  maxPressure : float
}.

(** The object [getState()] returns. *)
Module Snapshot.
Record t := mk {
  time : float;
  chamberPressure : float;
  thrust : float;
  burnRate : float;
  burningArea : float;
  Kn : float;
  currentInnerRadius : float;
  stress : float;
  safetyFactor : float;
  grainBurnProgress : float;
  isBurning : bool;
  isBurnedOut : bool;
  hasExploded : bool;
  explosionTime : option float;
  totalImpulse : float;
  burnTime : float;
  maxThrust : float;
  maxPressure : float;
  history : History.t;
  config : Config.t
}.
End Snapshot.

(** The defaults of the constructor. *)
Definition defaultConfig : Config.t :=
  {| Config.propellant := PROPELLANTS.KNSB;
     Config.material := MATERIALS.ALUMINUM;
     Config.grainConfig :=
       {| Grain.type := GRAIN_TYPES.BATES; Grain.outerRadius := 0.0285;
          Grain.coreRadius := 0.0095; Grain.length := 0.065;
          Grain.segments := 4; Grain.starPoints := 5;
          Grain.starInnerRadius := 0.006 |};
     Config.nozzle :=
       {| Nozzle.throatDiameter := 0.009; Nozzle.exitDiameter := 0.018;
          Nozzle.efficiency := 0.90 |};
     Config.casing :=
       {| Casing.innerRadius := 0.030; Casing.wallThickness := 0.003 |} |}.

(** [reset()]: every field but [config] is reinitialised. *)
Definition reset (this : MotorSimulation) : MotorSimulation :=
  {| config := config this;
     time := 0;
     currentInnerRadius := Grain.coreRadius (Config.grainConfig (config this));
     chamberPressure := CONSTANTS.ATMOSPHERIC_PRESSURE;
     thrust := 0;
     burnRate := 0;
     burnRateMmS := 0;
     burningArea := 0;
     Kn := 0;
     stress := 0;
     safetyFactor := 99;
     isBurning := false;
     isBurnedOut := false;
     hasExploded := false;
     explosionTime := None;
     history := History.empty;
     totalImpulse := 0;
     burnTime := 0;
     maxThrust := 0;
     maxPressure := 0 |}.

(** [new MotorSimulation(config)] once the defaults are merged in: the
    fields are set by [reset()], so their values before it do not matter. *)
Definition construct (cfg : Config.t) : MotorSimulation :=
  reset {| config := cfg; time := 0; currentInnerRadius := 0;
           chamberPressure := 0; thrust := 0; burnRate := 0;
           burnRateMmS := 0; burningArea := 0; Kn := 0; stress := 0;
           safetyFactor := 0; isBurning := false; isBurnedOut := false;
           hasExploded := false; explosionTime := None;
           history := History.empty; totalImpulse := 0; burnTime := 0;
           maxThrust := 0; maxPressure := 0 |}.

Definition ignite (this : MotorSimulation) : MotorSimulation :=
  if negb (isBurnedOut this) && negb (hasExploded this) then
    {| config := config this; time := time this;
       currentInnerRadius := currentInnerRadius this;
       chamberPressure := chamberPressure this; thrust := thrust this;
       burnRate := burnRate this; burnRateMmS := burnRateMmS this;
       burningArea := burningArea this; Kn := Kn this;
       stress := stress this; safetyFactor := safetyFactor this;
       isBurning := true;
       isBurnedOut := isBurnedOut this; hasExploded := hasExploded this;
       explosionTime := explosionTime this; history := history this;
       totalImpulse := totalImpulse this; burnTime := burnTime this;
       maxThrust := maxThrust this; maxPressure := maxPressure this |}
  else this.

(** [a[a.length - 1]]; reading past the end of an array gives
    [undefined], which arithmetic turns into NaN. *)
Definition last_entry (a : list float) : float :=
  nth (List.length a - 1) a nan.

Definition getState (this : MotorSimulation) : Snapshot.t :=
  let g := Config.grainConfig (config this) in
  let webThickness := Grain.outerRadius g - Grain.coreRadius g in
  let webBurned := currentInnerRadius this - Grain.coreRadius g in
  let grainBurnProgress :=
    Math_max 0 (Math_min (webBurned / webThickness) 1) in
  {| Snapshot.time := time this;
     Snapshot.chamberPressure := chamberPressure this;
     Snapshot.thrust := thrust this;
     Snapshot.burnRate := burnRateMmS this;
     Snapshot.burningArea := burningArea this;
     Snapshot.Kn := Kn this;
     Snapshot.currentInnerRadius := currentInnerRadius this;
     Snapshot.stress := stress this;
     Snapshot.safetyFactor := safetyFactor this;
     Snapshot.grainBurnProgress :=
       if isNaN grainBurnProgress then 0 else grainBurnProgress;
     Snapshot.isBurning := isBurning this;
     Snapshot.isBurnedOut := isBurnedOut this;
     Snapshot.hasExploded := hasExploded this;
     Snapshot.explosionTime := explosionTime this;
     Snapshot.totalImpulse := totalImpulse this;
     Snapshot.burnTime := burnTime this;
     Snapshot.maxThrust := maxThrust this;
     Snapshot.maxPressure := maxPressure this;
     Snapshot.history := history this;
     Snapshot.config := config this |}.

Section Update.

Variable approx : float -> float -> float.

(** The burnout test made after the regression update, on the grain
    configuration and the new radius. *)
Definition burnedThrough (g : Grain.t) (innerRadius : float) : bool :=
  let webThickness := Grain.outerRadius g - Grain.coreRadius g in
  let webRemaining := Grain.outerRadius g - innerRadius in
  (webRemaining <=? 0.001) || (Grain.outerRadius g * 0.98 <=? innerRadius).

(** The history throttle: whether a sample is recorded at time [t]. *)
Definition sampleDue (h : History.t) (t : float) : bool :=
  Nat.eqb (List.length (History.time h)) 0
  || (0.01 <=? t - last_entry (History.time h)).

(** [update(deltaTime)], as the new value of the instance. *)
Definition update (deltaTime : float) (this : MotorSimulation)
    : MotorSimulation :=
  if negb (isBurning this) || isBurnedOut this || hasExploded this then this
  else
    let cfg := config this in
    let time1 := time this + deltaTime in
    let throatArea :=
      calculateThroatArea (Nozzle.throatDiameter (Config.nozzle cfg)) in
    let exitArea :=
      Math_PI * Math_pow approx (Nozzle.exitDiameter (Config.nozzle cfg) / 2) 2 in
    let burningArea1 :=
      calculateBurningArea (Config.grainConfig cfg) (currentInnerRadius this) in
    let Kn1 := burningArea1 / throatArea in
    let chamberPressure1 :=
      calculateChamberPressure approx burningArea1 throatArea
        (Config.propellant cfg) in
    let maxPressure1 := Math_max (maxPressure this) chamberPressure1 in
    let burnRate1 :=
      calculateBurnRate approx chamberPressure1 (Config.propellant cfg) in
    let burnRateMmS1 := burnRate1 * 1000 in
    let regression := burnRate1 * deltaTime in
    let currentInnerRadius1 := currentInnerRadius this + regression in
    if burnedThrough (Config.grainConfig cfg) currentInnerRadius1 then
      {| config := cfg; time := time1;
         currentInnerRadius := currentInnerRadius1;
         chamberPressure := CONSTANTS.ATMOSPHERIC_PRESSURE;
         thrust := 0; burnRate := 0; burnRateMmS := 0;
         burningArea := burningArea1; Kn := Kn1;
         stress := stress this; safetyFactor := safetyFactor this;
         isBurning := false; isBurnedOut := true;
         hasExploded := hasExploded this;
         explosionTime := explosionTime this; history := history this;
         totalImpulse := totalImpulse this; burnTime := time1;
         maxThrust := maxThrust this; maxPressure := maxPressure1 |}
    else
      let thrust1 :=
        calculateThrust approx chamberPressure1 throatArea exitArea
          (Config.propellant cfg)
        * Nozzle.efficiency (Config.nozzle cfg) in
      let maxThrust1 := Math_max (maxThrust this) thrust1 in
      let stress1 :=
        calculateHoopStress chamberPressure1
          (Casing.innerRadius (Config.casing cfg))
          (Casing.wallThickness (Config.casing cfg)) in
      let safetyFactor1 := calculateSafetyFactor stress1 (Config.material cfg) in
      let failure := checkForFailure stress1 (Config.material cfg) in
      let totalImpulse1 := totalImpulse this + thrust1 * deltaTime in
      let h := history this in
      let history1 :=
        if sampleDue h time1 then
          {| History.time := History.time h ++ [time1];
             History.pressure := History.pressure h ++ [chamberPressure1 / 1e6];
             History.thrust := History.thrust h ++ [thrust1];
             History.burnRate := History.burnRate h ++ [burnRateMmS1];
             History.innerRadius :=
               History.innerRadius h ++ [currentInnerRadius1 * 1000];
             History.Kn := History.Kn h ++ [Kn1];
             History.stress := History.stress h ++ [stress1 / 1e6] |}
        else h in
      {| config := cfg; time := time1;
         currentInnerRadius := currentInnerRadius1;
         chamberPressure := chamberPressure1;
         thrust := thrust1; burnRate := burnRate1;
         burnRateMmS := burnRateMmS1;
         burningArea := burningArea1; Kn := Kn1;
         stress := stress1; safetyFactor := safetyFactor1;
         isBurning := isBurning this; isBurnedOut := isBurnedOut this;
         hasExploded :=
           if catastrophic failure then true else hasExploded this;
         explosionTime :=
           if catastrophic failure then Some time1 else explosionTime this;
         history := history1;
         totalImpulse := totalImpulse1; burnTime := burnTime this;
         maxThrust := maxThrust1; maxPressure := maxPressure1 |}.

(** What a call of [update] returns. *)
Definition update_result (deltaTime : float) (this : MotorSimulation)
    : Snapshot.t :=
  getState (update deltaTime this).

End Update.

(** ** Configuration updates *)

(** The argument of [updateConfig]: an object that may hold any of the
    five sub-objects; a grain, nozzle or casing sub-object may in turn
    hold any of its fields.  An absent key is [None]. *)
Module GrainPatch.
Record t := mk {
  type : option string;
  outerRadius : option float;
  coreRadius : option float;
  length : option float;
  segments : option float;
  starPoints : option float;
  starInnerRadius : option float
}.
Definition none : t := mk None None None None None None None.
End GrainPatch.

Module NozzlePatch.
Record t := mk {
  throatDiameter : option float;
  exitDiameter : option float;
  efficiency : option float
}.
End NozzlePatch.

Module CasingPatch.
Record t := mk {
  innerRadius : option float;
  wallThickness : option float
}.
End CasingPatch.

Module ConfigPatch.
Record t := mk {
  propellant : option Propellant.t;
  material : option Material.t;
  grainConfig : option GrainPatch.t;
  nozzle : option NozzlePatch.t;
  casing : option CasingPatch.t
}.
Definition none : t := mk None None None None None.
End ConfigPatch.

(** One key of [{ ...old, ...patch }]. *)
Definition spread {A : Type} (old : A) (patch : option A) : A :=
  match patch with Some v => v | None => old end.

Definition spreadGrain (old : Grain.t) (p : GrainPatch.t) : Grain.t :=
  {| Grain.type := spread (Grain.type old) (GrainPatch.type p);
     Grain.outerRadius := spread (Grain.outerRadius old) (GrainPatch.outerRadius p);
     Grain.coreRadius := spread (Grain.coreRadius old) (GrainPatch.coreRadius p);
     Grain.length := spread (Grain.length old) (GrainPatch.length p);
     Grain.segments := spread (Grain.segments old) (GrainPatch.segments p);
     Grain.starPoints := spread (Grain.starPoints old) (GrainPatch.starPoints p);
     Grain.starInnerRadius :=
       spread (Grain.starInnerRadius old) (GrainPatch.starInnerRadius p) |}.

Definition spreadNozzle (old : Nozzle.t) (p : NozzlePatch.t) : Nozzle.t :=
  {| Nozzle.throatDiameter :=
       spread (Nozzle.throatDiameter old) (NozzlePatch.throatDiameter p);
     Nozzle.exitDiameter :=
       spread (Nozzle.exitDiameter old) (NozzlePatch.exitDiameter p);
     Nozzle.efficiency := spread (Nozzle.efficiency old) (NozzlePatch.efficiency p) |}.

Definition spreadCasing (old : Casing.t) (p : CasingPatch.t) : Casing.t :=
  {| Casing.innerRadius := spread (Casing.innerRadius old) (CasingPatch.innerRadius p);
     Casing.wallThickness :=
       spread (Casing.wallThickness old) (CasingPatch.wallThickness p) |}.

Definition mergeConfig (old : Config.t) (newConfig : ConfigPatch.t) : Config.t :=
  {| Config.propellant :=
       match ConfigPatch.propellant newConfig with
       | Some p => p
       | None => Config.propellant old
       end;
     Config.material :=
       match ConfigPatch.material newConfig with
       | Some m => m
       | None => Config.material old
       end;
     Config.grainConfig :=
       match ConfigPatch.grainConfig newConfig with
       | Some g => spreadGrain (Config.grainConfig old) g
       | None => Config.grainConfig old
       end;
     Config.nozzle :=
       match ConfigPatch.nozzle newConfig with
       | Some n => spreadNozzle (Config.nozzle old) n
       | None => Config.nozzle old
       end;
     Config.casing :=
       match ConfigPatch.casing newConfig with
       | Some c => spreadCasing (Config.casing old) c
       | None => Config.casing old
       end |}.

Definition updateConfig (newConfig : ConfigPatch.t) (this : MotorSimulation)
    : MotorSimulation :=
  {| config := mergeConfig (config this) newConfig;
     time := time this;
     currentInnerRadius := currentInnerRadius this;
     chamberPressure := chamberPressure this; thrust := thrust this;
     burnRate := burnRate this; burnRateMmS := burnRateMmS this;
     burningArea := burningArea this; Kn := Kn this;
     stress := stress this; safetyFactor := safetyFactor this;
     isBurning := isBurning this;
     isBurnedOut := isBurnedOut this; hasExploded := hasExploded this;
     explosionTime := explosionTime this; history := history this;
     totalImpulse := totalImpulse this; burnTime := burnTime this;
     maxThrust := maxThrust this; maxPressure := maxPressure this |}.

(** ** Calls on an instance *)

Inductive Call :=
| Ignite
| Update (deltaTime : float)
| Reset
| UpdateConfig (newConfig : ConfigPatch.t).

Definition call (approx : float -> float -> float) (this : MotorSimulation)
    (c : Call) : MotorSimulation :=
  match c with
  | Ignite => ignite this
  | Update deltaTime => update approx deltaTime this
  | Reset => reset this
  | UpdateConfig newConfig => updateConfig newConfig this
  end.

Definition run (approx : float -> float -> float) (calls : list Call)
    (this : MotorSimulation) : MotorSimulation :=
  fold_left (call approx) calls this.

(** The lifecycle phase the three flags encode: [update] advances the
    motor exactly when the phase is [Burning]. *)
Inductive Phase := Idle | Burning | BurnedOut | Exploded.

Definition phase (this : MotorSimulation) : Phase :=
  if hasExploded this then Exploded
  else if isBurnedOut this then BurnedOut
  else if isBurning this then Burning
  else Idle.

(** ** The telemetry panel

    The helpers of the [StatusDisplay] component, which shows the object
    [getState()] returns. *)

Module StatusDisplay.

Section Format.

(** [x.toFixed(digits)]: the decimal rendering is left to the host. *)
Variable toFixed : float -> nat -> string.

Definition formatPressure (p : float) : string :=
  let val := or_else p 0 / 1e6 in
  if isNaN val || negb (isFinite val) then "0.00" else toFixed val 2.

Definition formatBurnRate (r : float) : string :=
  let val := or_else r 0 in
  if isNaN val || negb (isFinite val) then "0.00" else toFixed val 2.

Definition formatSF (sf : float) : string :=
  if negb (truthy sf) || isNaN sf || negb (isFinite sf) then ">10"
  else if 10 <? sf then ">10" else toFixed sf 2.

Definition formatProgress (p : float) : string :=
  let val := or_else p 0 * 100 in
  if isNaN val || negb (isFinite val) then "0.0" else toFixed val 1.

End Format.

Definition getStatusText (state : Snapshot.t) : string :=
  if Snapshot.hasExploded state then "CATO - STRUCTURAL FAILURE"
  else if Snapshot.isBurnedOut state then "BURNOUT COMPLETE"
  else if Snapshot.isBurning state then "BURNING"
  else "READY".

Definition getSafetyClass (safetyFactor : float) : string :=
  if safetyFactor <? 1 then "danger"
  else if safetyFactor <? 1.5 then "warning"
  else if safetyFactor <? 2 then "caution"
  else "safe".

Definition getMotorClass (impulse : float) : string :=
  if impulse <=? 0.625 then "A"
  else if impulse <=? 1.25 then "A"
  else if impulse <=? 2.5 then "B"
  else if impulse <=? 5 then "C"
  else if impulse <=? 10 then "D"
  else if impulse <=? 20 then "E"
  else if impulse <=? 40 then "F"
  else if impulse <=? 80 then "G"
  else if impulse <=? 160 then "H"
  else if impulse <=? 320 then "I"
  else if impulse <=? 640 then "J"
  else if impulse <=? 1280 then "K"
  else if impulse <=? 2560 then "L"
  else if impulse <=? 5120 then "M"
  else if impulse <=? 10240 then "N"
  else if impulse <=? 20480 then "O"
  else "P+".

End StatusDisplay.

(** ** The report page

    The helpers of the [ReportPage] component.  Array lengths and
    indices are natural numbers; on them [Math.ceil(n / d)] is the
    rounded-up quotient and [i % step === 0] is divisibility. *)

Module ReportPage.

Definition maxPoints : nat := 300.

(** [a.filter((_, i) => keep(i))], on the entries from index [i] on. *)
Fixpoint filterFrom {A : Type} (keep : nat -> bool) (i : nat) (a : list A)
    : list A :=
  match a with
  | [] => []
  | x :: rest =>
      if keep i then x :: filterFrom keep (S i) rest
      else filterFrom keep (S i) rest
  end.

(** [i % step === 0]; the remainder by zero is NaN, which equals
    nothing. *)
Definition onStep (step i : nat) : bool :=
  match step with
  | O => false
  | S _ => Nat.eqb (i mod step) 0
  end.

(** [Math.ceil(n / d)] for a length [n] and a positive count [d]. *)
Definition ceilDiv (n d : nat) : nat := (n + d - 1) / d.

Definition sampledData (history : History.t) : History.t :=
  if Nat.leb (List.length (History.time history)) maxPoints then history
  else
    let step := ceilDiv (List.length (History.time history)) maxPoints in
    {| History.time := filterFrom (onStep step) 0 (History.time history);
       History.pressure := filterFrom (onStep step) 0 (History.pressure history);
       History.thrust := filterFrom (onStep step) 0 (History.thrust history);
       History.burnRate := filterFrom (onStep step) 0 (History.burnRate history);
       History.innerRadius :=
         filterFrom (onStep step) 0 (History.innerRadius history);
       History.Kn := filterFrom (onStep step) 0 (History.Kn history);
       History.stress := filterFrom (onStep step) 0 (History.stress history) |}.

Definition getMotorClass (totalImpulse : float) : string :=
  if totalImpulse <=? 1.25 then "A"
  else if totalImpulse <=? 2.5 then "B"
  else if totalImpulse <=? 5 then "C"
  else if totalImpulse <=? 10 then "D"
  else if totalImpulse <=? 20 then "E"
  else if totalImpulse <=? 40 then "F"
  else if totalImpulse <=? 80 then "G"
  else if totalImpulse <=? 160 then "H"
  else if totalImpulse <=? 320 then "I"
  else if totalImpulse <=? 640 then "J"
  else if totalImpulse <=? 1280 then "K"
  else if totalImpulse <=? 2560 then "L"
  else if totalImpulse <=? 5120 then "M"
  else "N+".

(** [avgThrust] and the [status] line of [generateReportData], for a
    state that is present. *)
Definition avgThrust (state : Snapshot.t) : float :=
  if truthy (Snapshot.totalImpulse state) && truthy (Snapshot.burnTime state)
  then Snapshot.totalImpulse state / Snapshot.burnTime state
  else 0.

Definition status (state : Snapshot.t) : string :=
  if Snapshot.hasExploded state then "CATO (Catastrophic Failure)"
  else if Snapshot.isBurnedOut state then "Burnout Complete"
  else "Not Fired".

End ReportPage.

(** ** A host engine to run the model

    Every theorem below holds whatever the engine's approximation of
    [Math.pow] is.  To evaluate the model on concrete inputs one
    approximation is fixed here: exact repeated multiplication for small
    integer exponents, and [exp (y * ln x)] by argument reduction and
    truncated series otherwise. *)

Module Engine.

Definition Z2float (z : Z) : float :=
  match z with
  | Z0 => 0
  | Zpos _ => of_uint63 (Uint63.of_Z z)
  | Zneg p => - of_uint63 (Uint63.of_Z (Zpos p))
  end.

(** The integer part, rounded down, of a number of moderate size. *)
Definition floorZ (x : float) : Z :=
  match Prim2SF x with
  | S754_finite s m e =>
      let v := if (0 <=? e)%Z then Z.shiftl (Zpos m) e
               else Z.shiftr (Zpos m) (- e) in
      if s then
        if (0 <=? e)%Z then (- v)%Z
        else if (Z.land (Zpos m) (Z.ones (- e)) =? 0)%Z then (- v)%Z
        else (- v - 1)%Z
      else v
  | _ => 0%Z
  end.

Definition ln2 : float := 0.6931471805599453.

Fixpoint atanh_series (k : nat) (z2 i : float) : float :=
  match k with
  | O => 1 / i
  | S k' => 1 / i + z2 * atanh_series k' z2 (i + 2)
  end.

Definition ln_series (x : float) : float :=
  let '(m, e) := Z.frexp x in
  let '(m, e) :=
    if m <? 0.7071067811865476 then (2 * m, (e - 1)%Z) else (m, e) in
  let z := (m - 1) / (m + 1) in
  Z2float e * ln2 + 2 * z * atanh_series 14 (z * z) 1.

Fixpoint exp_taylor (k : nat) (r i : float) : float :=
  match k with
  | O => 1
  | S k' => 1 + r / i * exp_taylor k' r (i + 1)
  end.

Definition exp_series (t : float) : float :=
  if 710 <? t then infinity
  else if t <? -746 then 0
  else
    let j := floorZ (t / ln2 + 0.5) in
    let r := t - Z2float j * ln2 in
    Z.ldexp (exp_taylor 20 r 1) j.

Definition pow_series (base exponent : float) : float :=
  let n := floorZ exponent in
  if is_integral exponent && (Z.abs n <=? 1024)%Z then
    match n with
    | Zpos p => Pos.iter_op mul p base
    | Zneg p => 1 / Pos.iter_op mul p base
    | Z0 => 1
    end
  else
    let y := exp_series (exponent * ln_series (abs base)) in
    if (base <? 0) && is_odd_integral exponent then - y else y.

End Engine.

(** ** Notions used in the statements *)

Definition ignite_or_update (c : Call) : bool :=
  match c with
  | Ignite | Update _ => true
  | _ => false
  end.

(** The argument [{ grainConfig: { segments: n } }]. *)
Definition segmentsOnly (n : float) : ConfigPatch.t :=
  {| ConfigPatch.propellant := None;
     ConfigPatch.material := None;
     ConfigPatch.grainConfig :=
       Some {| GrainPatch.type := None; GrainPatch.outerRadius := None;
               GrainPatch.coreRadius := None; GrainPatch.length := None;
               GrainPatch.segments := Some n; GrainPatch.starPoints := None;
               GrainPatch.starInnerRadius := None |};
     ConfigPatch.nozzle := None;
     ConfigPatch.casing := None |}.

(** No two neighbours of a list of sample times are less than 10 ms
    apart, the difference being taken as the engine takes it. *)
Fixpoint spaced (times : list float) : Prop :=
  match times with
  | a :: (b :: _) as rest => (0.01 <=? b - a) = true /\ spaced rest
  | _ => True
  end.

(** The ratio of burned web to web thickness that [getState] clamps. *)
Definition burnedFraction (this : MotorSimulation) : float :=
  let g := Config.grainConfig (config this) in
  (currentInnerRadius this - Grain.coreRadius g)
  / (Grain.outerRadius g - Grain.coreRadius g).

(** A grain whose core radius is its outer radius: once the radius has
    grown the ratio is [+Infinity], and the accessor returns 1. *)
Definition noWebConfig : Config.t :=
  {| Config.propellant := Config.propellant defaultConfig;
     Config.material := Config.material defaultConfig;
     Config.grainConfig :=
       {| Grain.type := GRAIN_TYPES.BATES; Grain.outerRadius := 0.0285;
          Grain.coreRadius := 0.0285; Grain.length := 0.065;
          Grain.segments := 4; Grain.starPoints := 5;
          Grain.starInnerRadius := 0.006 |};
     Config.nozzle := Config.nozzle defaultConfig;
     Config.casing := Config.casing defaultConfig |}.

(** The calls of the claim: [ignite()], [reset()], and [update(dt)] with
    a positive finite time step. *)
Definition stepping_call (c : Call) : bool :=
  match c with
  | Ignite | Reset => true
  | Update deltaTime => (0 <? deltaTime) && (deltaTime <? infinity)
  | UpdateConfig _ => false
  end.

(** The invariant of the radius for a configuration whose radii satisfy
    [0 <= coreRadius <= outerRadius]. *)
Definition radius_inv (cfg : Config.t) (this : MotorSimulation) : Prop :=
  config this = cfg
  /\ (Grain.coreRadius (Config.grainConfig cfg) <=? currentInnerRadius this) = true
  /\ (isBurnedOut this = false ->
      (currentInnerRadius this <=? Grain.outerRadius (Config.grainConfig cfg)) = true).

(** The assumption on the engine: at exponent [n] its approximation is
    not negative and does not decrease on the positive finite bases. *)
Definition pow_monotone_at (approx : float -> float -> float) (n : float)
    : Prop :=
  forall b1 b2,
    (0 <? b1) = true -> (b1 <=? b2) = true -> (b2 <? infinity) = true ->
    (0 <=? approx b1 n) = true /\ (approx b1 n <=? approx b2 n) = true.

(** A call other than [reset()]. *)
Definition no_reset (c : Call) : bool :=
  match c with
  | Reset => false
  | _ => true
  end.

(** The fields of an instance other than its configuration. *)
Definition physical (this : MotorSimulation) :=
  (time this, currentInnerRadius this, chamberPressure this, thrust this,
   (burnRate this, burnRateMmS this, burningArea this, Kn this),
   (stress this, safetyFactor this),
   (isBurning this, isBurnedOut this, hasExploded this, explosionTime this),
   (history this, totalImpulse this, burnTime this, maxThrust this,
    maxPressure this)).

(** KNSB with the burn-rate exponent set to 1, at which the power law is
    linear and [Math.pow] returns its base. *)
Definition linearPropellant : Propellant.t :=
  {| Propellant.name := "linear";
     Propellant.density := 1841;
     Propellant.burnRateCoeff := 8.26;
     Propellant.burnRateExponent := 1;
     Propellant.referencePressure := 6.895;
     Propellant.characteristicVelocity := 885;
     Propellant.gamma := 1.133;
     Propellant.combustionTemp := 1600;
     Propellant.molecularMass := 39.9 |}.

(** A propellant whose rate in mm/s overflows between 1 MPa and 10 MPa. *)
Definition overflowingPropellant : Propellant.t :=
  {| Propellant.name := "overflowing";
     Propellant.density := 1841;
     Propellant.burnRateCoeff := 1e308;
     Propellant.burnRateExponent := 1;
     Propellant.referencePressure := 1;
     Propellant.characteristicVelocity := 885;
     Propellant.gamma := 1.133;
     Propellant.combustionTemp := 1600;
     Propellant.molecularMass := 39.9 |}.

(** The new estimate [Pc_new] one round of the solver computes from the
    estimate [Pc]. *)
Definition pressureEstimate (approx : float -> float -> float)
    (rho a_m_s n Pref cStar burningArea throatArea Pc : float) : float :=
  rho * (a_m_s * Math_pow approx (Pc / Pref) n) * burningArea * cStar
  / throatArea.

(** A grain configuration with its type replaced. *)
Definition withType (type : string) (g : Grain.t) : Grain.t :=
  {| Grain.type := type; Grain.outerRadius := Grain.outerRadius g;
     Grain.coreRadius := Grain.coreRadius g; Grain.length := Grain.length g;
     Grain.segments := Grain.segments g; Grain.starPoints := Grain.starPoints g;
     Grain.starInnerRadius := Grain.starInnerRadius g |}.

(** A call other than [updateConfig]. *)
Definition keeps_config (c : Call) : bool :=
  match c with
  | UpdateConfig _ => false
  | _ => true
  end.

Definition is_update (c : Call) : bool :=
  match c with
  | Update _ => true
  | _ => false
  end.

(** An [update] call with a time step that is not negative; any other
    call. *)
Definition nonneg_step (c : Call) : bool :=
  match c with
  | Update deltaTime => 0 <=? deltaTime
  | _ => true
  end.

(** The moves of the lifecycle: [reset] leads to Idle, [ignite] leads
    from Idle to Burning, [update] leads from Burning to Burning,
    BurnedOut or Exploded, and every other call leaves the phase. *)
Definition lifecycle (c : Call) (p q : Phase) : bool :=
  match c, p, q with
  | Reset, _, Idle => true
  | Ignite, Idle, Burning => true
  | Ignite, Burning, Burning => true
  | Ignite, BurnedOut, BurnedOut => true
  | Ignite, Exploded, Exploded => true
  | Update _, Idle, Idle => true
  | Update _, Burning, (Burning | BurnedOut | Exploded) => true
  | Update _, BurnedOut, BurnedOut => true
  | Update _, Exploded, Exploded => true
  | UpdateConfig _, Idle, Idle => true
  | UpdateConfig _, Burning, Burning => true
  | UpdateConfig _, BurnedOut, BurnedOut => true
  | UpdateConfig _, Exploded, Exploded => true
  | _, _, _ => false
  end.

(** What the flags and records of an instance say about each other. *)
Definition terminal_records (this : MotorSimulation) : Prop :=
  (isBurnedOut this = true ->
     isBurning this = false /\ hasExploded this = false
     /\ burnTime this = time this /\ thrust this = 0
     /\ burnRate this = 0 /\ burnRateMmS this = 0
     /\ chamberPressure this = 101325)
  /\ (isBurnedOut this = false -> burnTime this = 0)
  /\ (hasExploded this = true ->
      isBurning this = true /\ explosionTime this = Some (time this))
  /\ (hasExploded this = false -> explosionTime this = None).

(** The seven arrays of a history have one length. *)
Definition aligned (h : History.t) : Prop :=
  let n := List.length (History.time h) in
  List.length (History.pressure h) = n
  /\ List.length (History.thrust h) = n
  /\ List.length (History.burnRate h) = n
  /\ List.length (History.innerRadius h) = n
  /\ List.length (History.Kn h) = n
  /\ List.length (History.stress h) = n.

(** The history [h] followed, array by array, by the entries of [d]. *)
Definition appendHistory (h d : History.t) : History.t :=
  {| History.time := History.time h ++ History.time d;
     History.pressure := History.pressure h ++ History.pressure d;
     History.thrust := History.thrust h ++ History.thrust d;
     History.burnRate := History.burnRate h ++ History.burnRate d;
     History.innerRadius := History.innerRadius h ++ History.innerRadius d;
     History.Kn := History.Kn h ++ History.Kn d;
     History.stress := History.stress h ++ History.stress d |}.

(** The chamber pressure is finite and inside the clamp of the solver;
    the peak pressure is the 0 of [reset] or lies between the chamber
    pressure and the upper end of the clamp. *)
Definition pressure_inv (this : MotorSimulation) : Prop :=
  is_finite (chamberPressure this) = true
  /\ (101325 <=? chamberPressure this) = true
  /\ (chamberPressure this <=? 15e6) = true
  /\ (maxPressure this = 0
      \/ ((chamberPressure this <=? maxPressure this) = true
          /\ (maxPressure this <=? 15e6) = true)).

Definition thrust_inv (this : MotorSimulation) : Prop :=
  is_finite (thrust this) = true
  /\ (0 <=? thrust this) = true
  /\ (thrust this <=? maxThrust this) = true
  /\ is_finite (maxThrust this) = true.

Definition burn_rate_inv (this : MotorSimulation) : Prop :=
  (0 <=? burnRate this) = true
  /\ (burnRate this <=? 0.030) = true
  /\ burnRateMmS this = burnRate this * 1000.

(** For an instance whose configuration is [cfg]: the explosion flag
    says that the recorded stress exceeds the ultimate strength, the
    safety factor is that of the recorded stress, and a burned-out motor
    has its web burned through. *)
Definition failure_inv (cfg : Config.t) (this : MotorSimulation) : Prop :=
  config this = cfg
  /\ hasExploded this
     = (Material.ultimateStrength (Config.material cfg) <? stress this)
  /\ safetyFactor this = calculateSafetyFactor (stress this) (Config.material cfg)
  /\ (isBurnedOut this = true ->
      burnedThrough (Config.grainConfig cfg) (currentInnerRadius this) = true).


(** The motor classes in increasing order, and the place of a class in
    that order. *)
Definition motorClasses : list string :=
  ["A"; "B"; "C"; "D"; "E"; "F"; "G"; "H"; "I"; "J"; "K"; "L"; "M"; "N"; "O";
   "P+"]%string.

Fixpoint index_of (s : string) (l : list string) : nat :=
  match l with
  | [] => O
  | x :: rest => if String.eqb s x then O else S (index_of s rest)
  end.

Definition classRank (class : string) : nat := index_of class motorClasses.

(** Entry [k] of [sampled] is entry [k * step] of [a], and [sampled] ends
    where those entries end. *)
Definition everyNth {A : Type} (step : nat) (sampled a : list A) : Prop :=
  forall k, nth_error sampled k = nth_error a (k * step).

(** ** Binary64 numbers as reals

    The notions in which the rounding of the arithmetic operations is
    stated: the real value of a number of the format, and what it means
    for a record of the shifting algorithm to locate a real and for a
    number to be nearest to a real. *)

Module Binary64.

Import Reals.

Definition bpow (e : Z) : R := powerRZ 2 e.

Definition F2R (m e : Z) : R := (IZR m * bpow e)%R.

Definition emin : Z := SpecFloat.emin prec emax.

(** A record [(m, r, s)] at exponent [e] locates the real [v]: [m] is
    the integer part of [v / 2^e], and the round and sticky bits tell
    where [v] lies between [m] and [m + 1]. *)
Definition located (v : R) (mrs : shr_record) (e : Z) : Prop :=
  let x := IZR (shr_m mrs) in
  match shr_r mrs, shr_s mrs with
  | false, false => v = (x * bpow e)%R
  | false, true => (x * bpow e < v < (x + / 2) * bpow e)%R
  | true, false => v = ((x + / 2) * bpow e)%R
  | true, true => ((x + / 2) * bpow e < v < (x + 1) * bpow e)%R
  end.

(** A number of the format without the bound on the exponent: zero, or
    a mantissa in canonical position. *)
Definition canonical (g : spec_float) : Prop :=
  match g with
  | S754_zero _ => True
  | S754_finite _ m e => canonical_mantissa prec emax m e = true
  | _ => False
  end.

Definition SF2R (f : spec_float) : R :=
  match f with
  | S754_finite s m e => F2R (cond_Zopp s (Zpos m)) e
  | _ => 0%R
  end.

(** [w] is at least as close to [v] as any number of the format. *)
Definition nearest (v w : R) : Prop :=
  forall g, canonical g -> (Rabs (w - v) <= Rabs (SF2R g - v))%R.

(** What [binary_round_aux] builds from a canonical mantissa and
    exponent. *)
Definition pack (sx : bool) (m e : Z) : spec_float :=
  match m with
  | Z0 => S754_zero sx
  | Zpos p =>
      if (e <=? emax - prec)%Z then S754_finite sx p e else S754_infinity sx
  | Zneg _ => S754_nan
  end.

(** The number of the format behind a packed result. *)
Definition unpacked (m e : Z) : spec_float :=
  match m with
  | Zpos p => S754_finite false p e
  | _ => S754_zero false
  end.

(** A number that is not below zero. *)
Inductive nonneg : spec_float -> Prop :=
| nonneg_zero s : nonneg (S754_zero s)
| nonneg_infinity : nonneg (S754_infinity false)
| nonneg_finite m e :
    canonical_mantissa prec emax m e = true -> (e <= emax - prec)%Z ->
    nonneg (S754_finite false m e).

(** A number that is not above zero. *)
Inductive nonpos : spec_float -> Prop :=
| nonpos_zero s : nonpos (S754_zero s)
| nonpos_infinity : nonpos (S754_infinity true)
| nonpos_finite m e : nonpos (S754_finite true m e).

End Binary64.

(** * Proofs *)

(** ** Facts about the order of binary64 numbers *)

Module FloatOrd.

(** The comparison of the specification, read on the three booleans. *)
Lemma ltb_compare x y :
  (x <? y) = match SFcompare (Prim2SF x) (Prim2SF y) with Some Lt => true | _ => false end.
Proof. rewrite FloatAxioms.ltb_spec. reflexivity. Qed.

Lemma leb_compare x y :
  (x <=? y) = match SFcompare (Prim2SF x) (Prim2SF y) with Some (Lt | Eq) => true | _ => false end.
Proof. rewrite FloatAxioms.leb_spec. reflexivity. Qed.

Lemma eqb_compare x y :
  (x =? y) = match SFcompare (Prim2SF x) (Prim2SF y) with Some Eq => true | _ => false end.
Proof. rewrite FloatAxioms.eqb_spec. reflexivity. Qed.

Lemma is_nan_spec x :
  is_nan x = match Prim2SF x with S754_nan => true | _ => false end.
Proof.
  unfold is_nan. rewrite eqb_compare.
  destruct (Prim2SF x) as [[]|[]| |[] m e]; simpl; try reflexivity;
    rewrite Z.compare_refl, Pos.compare_cont_refl; reflexivity.
Qed.

Lemma SFcompare_nan_l x y :
  SFcompare x y = None <-> x = S754_nan \/ y = S754_nan.
Proof.
  destruct x as [[]|[]| |[] ? ?], y as [[]|[]| |[] ? ?]; simpl;
    split; intros H; try discriminate; auto;
    destruct H; discriminate.
Qed.

Lemma SFcompare_antisym x y :
  SFcompare y x = option_map CompOpp (SFcompare x y).
Proof.
  destruct x as [[]|[]| |[] m1 e1], y as [[]|[]| |[] m2 e2]; simpl;
    try reflexivity;
    rewrite (Z.compare_antisym e1 e2);
    destruct (e1 ?= e2)%Z; simpl; try reflexivity;
    rewrite (Pos.compare_cont_antisym m1 m2 Eq); simpl;
    try rewrite CompOpp_involutive; reflexivity.
Qed.

(** Decide a statement on [SFcompare] by cases on the operands and on
    the comparisons of their exponents and mantissas. *)
Ltac compare_cases :=
  repeat match goal with
    | |- context [(?a ?= ?b)%Z] => destruct (Z.compare_spec a b)
    | |- context [Pos.compare_cont Eq ?a ?b] =>
        change (Pos.compare_cont Eq a b) with (Pos.compare a b);
        destruct (Pos.compare_spec a b)
    end;
  simpl; intros; subst;
  try discriminate; try reflexivity; try tauto; try lia.

Ltac to_spec :=
  rewrite ?ltb_compare, ?leb_compare, ?eqb_compare, ?is_nan_spec.

Lemma ltb_leb x y : (x <? y) = true -> (x <=? y) = true.
Proof. to_spec. destruct (SFcompare _ _) as [[]|]; auto. Qed.

Lemma eqb_leb x y : (x =? y) = true -> (x <=? y) = true.
Proof. to_spec. destruct (SFcompare _ _) as [[]|]; auto. Qed.

Lemma leb_refl x : is_nan x = false -> (x <=? x) = true.
Proof.
  to_spec. destruct (Prim2SF x) as [[]|[]| |[] m e]; simpl; compare_cases.
Qed.

Lemma leb_not_nan x y :
  (x <=? y) = true -> is_nan x = false /\ is_nan y = false.
Proof.
  to_spec.
  destruct (Prim2SF x) as [[]|[]| |[] ? ?], (Prim2SF y) as [[]|[]| |[] ? ?];
    simpl; intros; try discriminate; auto.
Qed.

Lemma ltb_not_nan x y :
  (x <? y) = true -> is_nan x = false /\ is_nan y = false.
Proof. intros H. apply leb_not_nan, ltb_leb, H. Qed.

(** Two numbers are comparable as soon as neither is NaN. *)
Lemma leb_total x y :
  is_nan x = false -> is_nan y = false -> (x <? y) = false -> (y <=? x) = true.
Proof.
  to_spec. rewrite (SFcompare_antisym (Prim2SF x) (Prim2SF y)).
  destruct (Prim2SF x) as [[]|[]| |[] ? ?], (Prim2SF y) as [[]|[]| |[] ? ?];
    simpl; compare_cases.
Qed.

Lemma ltb_antisym x y : (x <? y) = true -> (y <? x) = false.
Proof.
  to_spec. rewrite (SFcompare_antisym (Prim2SF x) (Prim2SF y)).
  destruct (SFcompare _ _) as [[]|]; simpl; auto.
Qed.

Lemma leb_ltb_false x y : (x <=? y) = true -> (y <? x) = false.
Proof.
  to_spec. rewrite (SFcompare_antisym (Prim2SF x) (Prim2SF y)).
  destruct (SFcompare _ _) as [[]|]; simpl; auto; discriminate.
Qed.

Lemma SFcompare_trans x y z c :
  c <> Gt ->
  SFcompare x y = Some c \/ SFcompare x y = Some Eq ->
  SFcompare y z = Some c \/ SFcompare y z = Some Eq ->
  SFcompare x z = Some c \/ SFcompare x z = Some Eq.
Proof.
  intros Hc.
  destruct x as [[]|[]| |[] m1 e1], y as [[]|[]| |[] m2 e2],
           z as [[]|[]| |[] m3 e3]; simpl;
    try (intros [H|H] [H'|H']; first [discriminate | injection H as <- | idtac];
         first [discriminate | injection H' as <- | idtac];
         first [congruence | auto]; fail).
  all: destruct c; try congruence.
  all: compare_cases.
Qed.

Lemma leb_trans x y z :
  (x <=? y) = true -> (y <=? z) = true -> (x <=? z) = true.
Proof.
  to_spec. intros H1 H2.
  assert (H : SFcompare (Prim2SF x) (Prim2SF z) = Some Lt
              \/ SFcompare (Prim2SF x) (Prim2SF z) = Some Eq).
  { apply (SFcompare_trans _ (Prim2SF y)); [discriminate | |].
    - destruct (SFcompare (Prim2SF x) (Prim2SF y)) as [[]|]; auto; discriminate.
    - destruct (SFcompare (Prim2SF y) (Prim2SF z)) as [[]|]; auto; discriminate. }
  destruct H as [-> | ->]; reflexivity.
Qed.

Lemma ltb_leb_trans x y z :
  (x <? y) = true -> (y <=? z) = true -> (x <? z) = true.
Proof.
  intros H1 H2.
  destruct (x <? z) eqn:E; [reflexivity|].
  destruct (ltb_not_nan _ _ H1) as [Nx _].
  destruct (leb_not_nan _ _ H2) as [_ Nz].
  pose proof (leb_total _ _ Nx Nz E) as H3.
  pose proof (leb_trans _ _ _ H2 H3) as H4.
  apply leb_ltb_false in H4. congruence.
Qed.

Lemma leb_ltb_trans x y z :
  (x <=? y) = true -> (y <? z) = true -> (x <? z) = true.
Proof.
  intros H1 H2.
  destruct (x <? z) eqn:E; [reflexivity|].
  destruct (leb_not_nan _ _ H1) as [Nx _].
  destruct (ltb_not_nan _ _ H2) as [_ Nz].
  pose proof (leb_total _ _ Nx Nz E) as H3.
  pose proof (leb_trans _ _ _ H3 H1) as H4.
  apply leb_ltb_false in H4. congruence.
Qed.

(** The classes of a number, on its specification. *)
Lemma is_pos_zero_spec x :
  is_pos_zero x = true <-> Prim2SF x = S754_zero false.
Proof.
  unfold is_pos_zero. rewrite classify_spec. unfold SF64classify, SFclassify.
  destruct (Prim2SF x) as [[]|[]| |[] m e];
    repeat match goal with
      | |- context [if ?c then _ else _] => destruct c
      end;
    split; intros H; try discriminate H; reflexivity.
Qed.

Lemma is_neg_zero_spec x :
  is_neg_zero x = true <-> Prim2SF x = S754_zero true.
Proof.
  unfold is_neg_zero. rewrite classify_spec. unfold SF64classify, SFclassify.
  destruct (Prim2SF x) as [[]|[]| |[] m e];
    repeat match goal with
      | |- context [if ?c then _ else _] => destruct c
      end;
    split; intros H; try discriminate H; reflexivity.
Qed.

Lemma neg_infinity_least x :
  is_nan x = false -> (neg_infinity <? x) = false -> x = neg_infinity.
Proof.
  to_spec. intros Hn Hl. apply Prim2SF_inj.
  change (Prim2SF neg_infinity) with (S754_infinity true) in *.
  destruct (Prim2SF x) as [[]|[]| |[] m e]; simpl in *;
    try discriminate; reflexivity.
Qed.

Lemma infinity_greatest x :
  is_nan x = false -> (x <? infinity) = false -> x = infinity.
Proof.
  to_spec. intros Hn Hl. apply Prim2SF_inj.
  change (Prim2SF infinity) with (S754_infinity false) in *.
  destruct (Prim2SF x) as [[]|[]| |[] m e]; simpl in *;
    try discriminate; reflexivity.
Qed.

Lemma is_finite_spec x :
  is_finite x = match Prim2SF x with
                | S754_zero _ | S754_finite _ _ _ => true
                | _ => false
                end.
Proof.
  unfold is_finite, is_infinity. rewrite is_nan_spec, eqb_compare, abs_spec.
  change (Prim2SF infinity) with (S754_infinity false).
  destruct (Prim2SF x) as [[]|[]| |[] m e]; reflexivity.
Qed.

End FloatOrd.

(** ** Facts about the builtins *)

Module JSFacts.
Import FloatOrd.

Lemma max_step_init a : is_nan a = false -> max_step neg_infinity a = a.
Proof.
  intros Hn. unfold max_step.
  replace (is_neg_zero neg_infinity) with false by reflexivity.
  rewrite andb_false_r.
  destruct (neg_infinity <? a) eqn:E; [reflexivity|].
  symmetry. apply neg_infinity_least; assumption.
Qed.

Lemma min_step_init a : is_nan a = false -> min_step infinity a = a.
Proof.
  intros Hn. unfold min_step.
  replace (is_pos_zero infinity) with false by reflexivity.
  rewrite andb_false_r.
  destruct (a <? infinity) eqn:E; [reflexivity|].
  symmetry. apply infinity_greatest; assumption.
Qed.

Lemma Math_max_eq a b :
  is_nan a = false -> is_nan b = false -> Math_max a b = max_step a b.
Proof.
  intros Ha Hb. unfold Math_max. rewrite Ha, Hb. simpl.
  rewrite max_step_init by assumption. reflexivity.
Qed.

Lemma Math_min_eq a b :
  is_nan a = false -> is_nan b = false -> Math_min a b = min_step a b.
Proof.
  intros Ha Hb. unfold Math_min. rewrite Ha, Hb. simpl.
  rewrite min_step_init by assumption. reflexivity.
Qed.

Lemma Math_max_nan a b :
  is_nan a || is_nan b = true -> Math_max a b = nan.
Proof. intros H. unfold Math_max. rewrite H. reflexivity. Qed.

Lemma Math_min_nan a b :
  is_nan a || is_nan b = true -> Math_min a b = nan.
Proof. intros H. unfold Math_min. rewrite H. reflexivity. Qed.

Lemma Math_max_cases a b :
  is_nan a = false -> is_nan b = false ->
  Math_max a b = a \/ Math_max a b = b.
Proof.
  intros Ha Hb. rewrite Math_max_eq by assumption. unfold max_step.
  destruct (_ && _); auto. destruct (a <? b); auto.
Qed.

Lemma Math_min_cases a b :
  is_nan a = false -> is_nan b = false ->
  Math_min a b = a \/ Math_min a b = b.
Proof.
  intros Ha Hb. rewrite Math_min_eq by assumption. unfold min_step.
  destruct (_ && _); auto. destruct (b <? a); auto.
Qed.

Lemma zeros_leb x y :
  Prim2SF x = S754_zero true -> Prim2SF y = S754_zero false ->
  (x <=? y) = true /\ (y <=? x) = true.
Proof. intros Hx Hy. rewrite !leb_compare, Hx, Hy. split; reflexivity. Qed.

Lemma Math_max_ge_l a b :
  is_nan a = false -> is_nan b = false -> (a <=? Math_max a b) = true.
Proof.
  intros Ha Hb. rewrite Math_max_eq by assumption. unfold max_step.
  destruct (is_pos_zero b && is_neg_zero a) eqn:Z.
  - apply andb_prop in Z as [Zb Za].
    apply is_pos_zero_spec in Zb. apply is_neg_zero_spec in Za.
    apply (zeros_leb a b Za Zb).
  - destruct (a <? b) eqn:E.
    + apply ltb_leb, E.
    + apply leb_refl, Ha.
Qed.

Lemma Math_max_ge_r a b :
  is_nan a = false -> is_nan b = false -> (b <=? Math_max a b) = true.
Proof.
  intros Ha Hb. rewrite Math_max_eq by assumption. unfold max_step.
  destruct (is_pos_zero b && is_neg_zero a) eqn:Z.
  - apply leb_refl, Hb.
  - destruct (a <? b) eqn:E.
    + apply leb_refl, Hb.
    + apply leb_total; assumption.
Qed.

Lemma Math_min_le_l a b :
  is_nan a = false -> is_nan b = false -> (Math_min a b <=? a) = true.
Proof.
  intros Ha Hb. rewrite Math_min_eq by assumption. unfold min_step.
  destruct (is_neg_zero b && is_pos_zero a) eqn:Z.
  - apply andb_prop in Z as [Zb Za].
    apply is_pos_zero_spec in Za. apply is_neg_zero_spec in Zb.
    apply (zeros_leb b a Zb Za).
  - destruct (b <? a) eqn:E.
    + apply ltb_leb, E.
    + apply leb_refl, Ha.
Qed.

Lemma Math_min_le_r a b :
  is_nan a = false -> is_nan b = false -> (Math_min a b <=? b) = true.
Proof.
  intros Ha Hb. rewrite Math_min_eq by assumption. unfold min_step.
  destruct (is_neg_zero b && is_pos_zero a) eqn:Z.
  - apply leb_refl, Hb.
  - destruct (b <? a) eqn:E.
    + apply leb_refl, Hb.
    + apply leb_total; assumption.
Qed.

Lemma Math_max_not_nan a b :
  is_nan a = false -> is_nan b = false -> is_nan (Math_max a b) = false.
Proof.
  intros Ha Hb. destruct (Math_max_cases a b Ha Hb) as [-> | ->]; assumption.
Qed.

Lemma Math_min_not_nan a b :
  is_nan a = false -> is_nan b = false -> is_nan (Math_min a b) = false.
Proof.
  intros Ha Hb. destruct (Math_min_cases a b Ha Hb) as [-> | ->]; assumption.
Qed.

(** The clamp [Math.max(lo, Math.min(x, hi))] of a number that is not
    NaN lies between its bounds. *)
Lemma clamp_bounds lo hi x :
  is_nan x = false -> (lo <=? hi) = true ->
  let c := Math_max lo (Math_min x hi) in
  (lo <=? c) = true /\ (c <=? hi) = true /\ (c = lo \/ c = x \/ c = hi).
Proof.
  intros Hx Hlh c. subst c.
  destruct (leb_not_nan _ _ Hlh) as [Hlo Hhi].
  pose proof (Math_min_not_nan x hi Hx Hhi) as Hm.
  split; [apply Math_max_ge_l; assumption|].
  destruct (Math_max_cases lo (Math_min x hi) Hlo Hm) as [E | E]; rewrite E.
  - split; [assumption | auto].
  - split; [apply Math_min_le_r; assumption|].
    destruct (Math_min_cases x hi Hx Hhi) as [-> | ->]; auto.
Qed.

End JSFacts.

(** ** The rounding of the arithmetic operations *)

Module Round.

Import Reals Lra Binary64.

Local Open Scope Z_scope.

Lemma bpow_gt_0 e : (0 < bpow e)%R.
Proof. apply powerRZ_lt. lra. Qed.

Lemma bpow_add e1 e2 : bpow (e1 + e2) = (bpow e1 * bpow e2)%R.
Proof. apply powerRZ_add. lra. Qed.

Lemma bpow_0 : bpow 0 = 1%R.
Proof. reflexivity. Qed.

Lemma bpow_1 : bpow 1 = 2%R.
Proof. unfold bpow. simpl. lra. Qed.

Lemma bpow_succ e : bpow (e + 1) = (2 * bpow e)%R.
Proof. rewrite bpow_add, bpow_1. lra. Qed.

Lemma bpow_IZR n : 0 <= n -> bpow n = IZR (2 ^ n).
Proof.
  intros Hn. pattern n. apply natlike_ind; [reflexivity | | exact Hn].
  intros x Hx IH. unfold Z.succ. rewrite bpow_succ, IH, Z.pow_add_r by lia.
  rewrite mult_IZR. change (2 ^ 1) with 2. lra.
Qed.

Lemma bpow_ge_1 n : 0 <= n -> (1 <= bpow n)%R.
Proof.
  intros Hn. rewrite bpow_IZR by exact Hn. apply IZR_le.
  pose proof (Z.pow_pos_nonneg 2 n). lia.
Qed.

Lemma bpow_le e1 e2 : e1 <= e2 -> (bpow e1 <= bpow e2)%R.
Proof.
  intros H. replace e2 with (e1 + (e2 - e1)) by lia. rewrite bpow_add.
  pose proof (bpow_gt_0 e1). pose proof (bpow_ge_1 (e2 - e1) ltac:(lia)). nra.
Qed.

Lemma bpow_lt e1 e2 : e1 < e2 -> (bpow e1 < bpow e2)%R.
Proof.
  intros H. apply Rlt_le_trans with (bpow (e1 + 1)).
  - rewrite bpow_succ. pose proof (bpow_gt_0 e1). lra.
  - apply bpow_le. lia.
Qed.

(** The number of binary digits of a mantissa. *)
Lemma digits2_pos_bounds (m : positive) :
  2 ^ (Zpos (digits2_pos m) - 1) <= Zpos m < 2 ^ Zpos (digits2_pos m).
Proof.
  induction m as [m IH | m IH |]; cbn [digits2_pos].
  - rewrite Pos2Z.inj_succ. replace (Z.succ (Zpos (digits2_pos m)) - 1) with (Zpos (digits2_pos m)) by lia.
    rewrite Z.pow_succ_r by lia.
    replace (Zpos (digits2_pos m)) with (Zpos (digits2_pos m) - 1 + 1) at 1 by lia.
    rewrite Z.pow_add_r by lia. change (2 ^ 1) with 2. lia.
  - rewrite Pos2Z.inj_succ. replace (Z.succ (Zpos (digits2_pos m)) - 1) with (Zpos (digits2_pos m)) by lia.
    rewrite Z.pow_succ_r by lia.
    replace (Zpos (digits2_pos m)) with (Zpos (digits2_pos m) - 1 + 1) at 1 by lia.
    rewrite Z.pow_add_r by lia. change (2 ^ 1) with 2. lia.
  - simpl. lia.
Qed.

Lemma digits2_pos_unique (m : positive) (d : Z) :
  2 ^ (d - 1) <= Zpos m < 2 ^ d -> Zpos (digits2_pos m) = d.
Proof.
  intros [Hlo Hhi]. pose proof (digits2_pos_bounds m) as [Blo Bhi].
  assert (0 < d).
  { destruct (Z.ltb_spec 0 d); [assumption|].
    assert (2 ^ d <= 1).
    { destruct (Z.eq_dec d 0) as [-> | ]; [simpl; lia|].
      rewrite Z.pow_neg_r by lia. lia. }
    lia. }
  destruct (Z.lt_trichotomy (Zpos (digits2_pos m)) d) as [L | [E | G]]; [|exact E|].
  - assert (2 ^ Zpos (digits2_pos m) <= 2 ^ (d - 1)) by (apply Z.pow_le_mono_r; lia).
    lia.
  - assert (2 ^ d <= 2 ^ (Zpos (digits2_pos m) - 1)) by (apply Z.pow_le_mono_r; lia).
    lia.
Qed.

(** The value of a mantissa with [d] digits, as a real. *)
Lemma digits2_pos_bpow (m : positive) :
  (bpow (Zpos (digits2_pos m) - 1) <= IZR (Zpos m) < bpow (Zpos (digits2_pos m)))%R.
Proof.
  pose proof (digits2_pos_bounds m) as [Blo Bhi].
  rewrite !bpow_IZR by lia. split; [apply IZR_le | apply IZR_lt]; assumption.
Qed.

(** *** Shifting a mantissa right *)

Lemma IZR_xO p : IZR (Zpos p~0) = (2 * IZR (Zpos p))%R.
Proof. rewrite Pos2Z.inj_xO, mult_IZR. reflexivity. Qed.

Lemma IZR_xI p : IZR (Zpos p~1) = (2 * IZR (Zpos p) + 1)%R.
Proof. rewrite Pos2Z.inj_xI, plus_IZR, mult_IZR. reflexivity. Qed.

Lemma shr_1_located v mrs e :
  0 <= shr_m mrs -> located v mrs e ->
  located v (shr_1 mrs) (e + 1) /\ 0 <= shr_m (shr_1 mrs).
Proof.
  destruct mrs as [m r s]. unfold located. cbn [shr_m shr_r shr_s].
  intros Hm. pose proof (bpow_gt_0 e) as HP.
  destruct m as [|[p|p|]|p]; try lia;
    destruct r, s; cbn [shr_1 shr_m shr_r shr_s orb];
    rewrite bpow_succ; try rewrite (IZR_xO p); try rewrite (IZR_xI p); intros H;
    (split; [lra | lia]).
Qed.

Lemma iter_shr_1_located p :
  forall v mrs e,
    0 <= shr_m mrs -> located v mrs e ->
    located v (SpecFloat.iter_pos shr_1 p mrs) (e + Zpos p)
    /\ 0 <= shr_m (SpecFloat.iter_pos shr_1 p mrs).
Proof.
  induction p as [p IH | p IH |]; intros v mrs e Hm Hl; cbn [SpecFloat.iter_pos].
  - destruct (shr_1_located v mrs e Hm Hl) as [H1 H1'].
    destruct (IH v _ _ H1' H1) as [H2 H2'].
    destruct (IH v _ _ H2' H2) as [H3 H3'].
    replace (e + Zpos p~1) with (e + 1 + Zpos p + Zpos p) by lia.
    split; assumption.
  - destruct (IH v _ _ Hm Hl) as [H2 H2'].
    destruct (IH v _ _ H2' H2) as [H3 H3'].
    replace (e + Zpos p~0) with (e + Zpos p + Zpos p) by lia.
    split; assumption.
  - apply shr_1_located; assumption.
Qed.

Lemma shr_located v mrs e n :
  0 <= shr_m mrs -> located v mrs e ->
  located v (fst (shr mrs e n)) (snd (shr mrs e n))
  /\ 0 <= shr_m (fst (shr mrs e n))
  /\ snd (shr mrs e n) = e + Z.max n 0.
Proof.
  intros Hm Hl. destruct n as [|p|p]; cbn [shr fst snd].
  - rewrite Z.add_0_r. auto.
  - destruct (iter_shr_1_located p v mrs e Hm Hl). repeat split; assumption.
  - rewrite Z.add_0_r. auto.
Qed.

(** *** Rounding to nearest, ties to even *)

Lemma round_nearest_even_located v mrs e :
  located v mrs e ->
  let m := round_nearest_even (shr_m mrs) (loc_of_shr_record mrs) in
  (m = shr_m mrs \/ m = shr_m mrs + 1)
  /\ forall j : Z, (Rabs (IZR m * bpow e - v) <= Rabs (IZR j * bpow e - v))%R.
Proof.
  destruct mrs as [m r s]. unfold located. cbn [shr_m shr_r shr_s].
  pose proof (bpow_gt_0 e) as HP. intros Hl.
  assert (Hj : forall j : Z,
    (IZR j * bpow e <= IZR m * bpow e)%R \/ (IZR (m + 1) * bpow e <= IZR j * bpow e)%R).
  { intros j. destruct (Z_le_gt_dec j m) as [L | G].
    - left. apply IZR_le in L. nra.
    - right. assert (L : m + 1 <= j) by lia. apply IZR_le in L. nra. }
  destruct r, s; cbn [loc_of_shr_record round_nearest_even].
  - split; [right; reflexivity|]. intros j. specialize (Hj j).
    rewrite plus_IZR in *. unfold Rabs. repeat destruct (Rcase_abs _); lra.
  - destruct (Z.even m); (split; [auto|]); intros j; specialize (Hj j);
      rewrite plus_IZR in *; unfold Rabs; repeat destruct (Rcase_abs _); lra.
  - split; [left; reflexivity|]. intros j. specialize (Hj j).
    rewrite plus_IZR in *. unfold Rabs. repeat destruct (Rcase_abs _); lra.
  - split; [left; reflexivity|]. intros j. specialize (Hj j).
    rewrite plus_IZR in *. unfold Rabs. repeat destruct (Rcase_abs _); lra.
Qed.

(** *** The format *)

Lemma fexp_eq x : fexp prec emax x = Z.max (x - 53) (-1074).
Proof. reflexivity. Qed.

Lemma emin_eq : emin = -1074.
Proof. reflexivity. Qed.

Lemma prec_eq : prec = 53.
Proof. reflexivity. Qed.

Lemma emax_eq : emax = 1024.
Proof. reflexivity. Qed.

Lemma Zdigits2_bpow mx :
  0 <= mx ->
  (IZR mx < bpow (Zdigits2 mx))%R
  /\ (0 < mx -> (bpow (Zdigits2 mx - 1) <= IZR mx)%R).
Proof.
  intros H. destruct mx as [|p|p]; try lia; cbn [Zdigits2].
  - change (bpow 0) with 1%R. split; [lra | lia].
  - pose proof (digits2_pos_bpow p). split; [tauto | intros _; tauto].
Qed.

Lemma canonical_mantissa_bounds m e :
  canonical_mantissa prec emax m e = true ->
  emin <= e /\ Zpos m < 2 ^ prec /\ (emin < e -> 2 ^ (prec - 1) <= Zpos m).
Proof.
  unfold canonical_mantissa. rewrite fexp_eq, emin_eq, prec_eq.
  intros H. apply Z.eqb_eq in H.
  pose proof (digits2_pos_bounds m) as [Blo Bhi].
  set (d := Zpos (digits2_pos m)) in *.
  assert (Hd : 0 < d) by (subst d; lia).
  split; [lia|]. split.
  - assert (d <= 53) by lia.
    assert (2 ^ d <= 2 ^ 53) by (apply Z.pow_le_mono_r; lia). lia.
  - intros He. assert (d = 53) by lia. replace (53 - 1) with (d - 1) by lia. exact Blo.
Qed.

Lemma canonical_mantissa_of_bounds m e :
  emin <= e -> Zpos m < 2 ^ prec -> (emin < e -> 2 ^ (prec - 1) <= Zpos m) ->
  canonical_mantissa prec emax m e = true.
Proof.
  rewrite emin_eq, prec_eq. intros He Hhi Hlo.
  unfold canonical_mantissa. rewrite fexp_eq. apply Z.eqb_eq.
  pose proof (digits2_pos_bounds m) as [Blo Bhi].
  set (d := Zpos (digits2_pos m)) in *.
  assert (Hd : 0 < d) by (subst d; lia).
  assert (d <= 53).
  { destruct (Z_le_gt_dec d 53); [assumption|].
    assert (2 ^ 53 <= 2 ^ (d - 1)) by (apply Z.pow_le_mono_r; lia). lia. }
  destruct (Z.eq_dec e (-1074)) as [-> | Hne]; [lia|].
  assert (d = 53).
  { apply (digits2_pos_unique m 53). split; [apply Hlo; lia | exact Hhi]. }
  lia.
Qed.

Lemma located_bounds v mrs e :
  located v mrs e ->
  (IZR (shr_m mrs) * bpow e <= v < (IZR (shr_m mrs) + 1) * bpow e)%R.
Proof.
  unfold located. pose proof (bpow_gt_0 e).
  destruct (shr_r mrs), (shr_s mrs); intros Hl; lra.
Qed.

Lemma shr_m_of_loc m l : shr_m (shr_record_of_loc m l) = m.
Proof. destruct l as [|[]]; reflexivity. Qed.

Lemma located_exact m e : located (F2R m e) (shr_record_of_loc m loc_Exact) e.
Proof. reflexivity. Qed.

Lemma F2R_shift m e d : 0 <= d -> F2R (m * 2 ^ d) e = F2R m (e + d).
Proof.
  intros Hd. unfold F2R. rewrite mult_IZR, bpow_add, <- bpow_IZR by exact Hd. lra.
Qed.

Lemma nearest_of_multiples v m e :
  (0 <= v)%R -> emin <= e ->
  (emin < e -> (bpow (prec - 1 + e) <= v)%R) ->
  (forall j : Z, (Rabs (IZR m * bpow e - v) <= Rabs (IZR j * bpow e - v))%R) ->
  nearest v (F2R m e).
Proof.
  intros Hv He Hlo Hj g Hg. unfold F2R.
  destruct g as [s| | |s mg eg]; simpl in Hg; try contradiction.
  - specialize (Hj 0). cbn [SF2R]. replace (0 - v)%R with (0 * bpow e - v)%R by lra.
    exact Hj.
  - cbn [SF2R]. unfold F2R.
    pose proof (bpow_gt_0 eg) as HPg.
    assert (Hmg : (0 < IZR (Zpos mg))%R) by (apply IZR_lt; lia).
    destruct s; cbn [cond_Zopp].
    + specialize (Hj 0).
      apply Rle_trans with (1 := Hj).
      change (Z.neg mg) with (- Zpos mg). rewrite opp_IZR.
      unfold Rabs. repeat destruct (Rcase_abs _); nra.
    + destruct (canonical_mantissa_bounds mg eg Hg) as (Hge & Hhi & _).
      destruct (Z_le_gt_dec e eg) as [L | G].
      * specialize (Hj (Zpos mg * 2 ^ (eg - e))).
        pose proof (F2R_shift (Zpos mg) e (eg - e) ltac:(lia)) as E.
        unfold F2R in E. rewrite E in Hj.
        replace (e + (eg - e)) with eg in Hj by lia. exact Hj.
      * specialize (Hj (2 ^ (prec - 1))).
        rewrite <- bpow_IZR, <- bpow_add in Hj by (rewrite prec_eq; lia).
        specialize (Hlo ltac:(lia)).
        apply Rle_trans with (1 := Hj).
        assert (Hlt : (IZR (Zpos mg) * bpow eg < bpow (prec - 1 + e))%R).
        { apply Rlt_le_trans with (bpow (prec + eg)).
          - rewrite bpow_add. apply Rmult_lt_compat_r; [exact HPg|].
            rewrite bpow_IZR by (rewrite prec_eq; lia). apply IZR_lt, Hhi.
          - apply bpow_le. lia. }
        unfold Rabs. repeat destruct (Rcase_abs _); lra.
Qed.

Lemma shr_nonpos mrs e n : n <= 0 -> shr mrs e n = (mrs, e).
Proof. destruct n; try reflexivity. lia. Qed.

(** The second shift of [binary_round_aux] renormalises a mantissa that
    rounding carried to [2^prec]; it changes no value. *)
Lemma second_shift m e :
  0 <= m <= 2 ^ prec -> emin <= e -> (emin < e -> 2 ^ (prec - 1) <= m) ->
  let r := shr_fexp prec emax m e loc_Exact in
  F2R (shr_m (fst r)) (snd r) = F2R m e
  /\ 0 <= shr_m (fst r)
  /\ (shr_m (fst r) = 0
      \/ canonical_mantissa prec emax (Z.to_pos (shr_m (fst r))) (snd r) = true).
Proof.
  rewrite emin_eq, prec_eq. intros [Hm0 Hm1] He Hlo. cbv zeta.
  unfold shr_fexp. rewrite fexp_eq. cbn [shr_record_of_loc].
  destruct (Z.eq_dec m (2 ^ 53)) as [-> | Hne].
  - replace (Z.max (Zdigits2 (2 ^ 53) + e - 53) (-1074) - e) with 1
      by (change (Zdigits2 (2 ^ 53)) with 54; lia).
    cbn [shr SpecFloat.iter_pos fst snd]. change (2 ^ 53) with 9007199254740992.
    cbn [shr_1 shr_m]. split.
    + unfold F2R. rewrite bpow_succ.
      change 9007199254740992 with (2 * 4503599627370496).
      rewrite mult_IZR. lra.
    + split; [lia|]. right.
      apply canonical_mantissa_of_bounds; rewrite ?emin_eq, ?prec_eq; simpl; lia.
  - destruct m as [|p|p]; try lia.
    + rewrite shr_nonpos by (cbn [Zdigits2]; lia).
      cbn [fst snd shr_m]. split; [reflexivity|]. split; [lia | left; reflexivity].
    + assert (Hp : Zpos p < 2 ^ 53) by lia.
      pose proof (digits2_pos_bounds p) as [Blo Bhi].
      assert (Hd : Zpos (digits2_pos p) <= 53).
      { destruct (Z_le_gt_dec (Zpos (digits2_pos p)) 53); [assumption|].
        assert (2 ^ 53 <= 2 ^ (Zpos (digits2_pos p) - 1))
          by (apply Z.pow_le_mono_r; lia).
        lia. }
      rewrite shr_nonpos by (cbn [Zdigits2]; lia).
      cbn [fst snd shr_m]. split; [reflexivity|]. split; [lia|]. right.
      apply canonical_mantissa_of_bounds; rewrite ?emin_eq, ?prec_eq;
        cbn [Z.to_pos]; assumption.
Qed.

(** *** The rounding of [binary_round_aux] *)

(** Started from a mantissa, exponent and location that describe a real
    [v], with the exponent not above the canonical one,
    [binary_round_aux] packs a number of the format that is nearest to
    [v]. *)
Lemma binary_round_aux_spec mx ex lx v :
  0 <= mx ->
  located v (shr_record_of_loc mx lx) ex ->
  ex <= fexp prec emax (Zdigits2 mx + ex) ->
  exists m e,
    0 <= m
    /\ (m = 0 \/ canonical_mantissa prec emax (Z.to_pos m) e = true)
    /\ nearest v (F2R m e)
    /\ forall sx, binary_round_aux prec emax sx mx ex lx = pack sx m e.
Proof.
  intros Hmx Hloc Hk.
  unfold binary_round_aux.
  (* first shift *)
  set (k := fexp prec emax (Zdigits2 mx + ex) - ex).
  assert (Hk0 : 0 <= k) by (subst k; lia).
  change (shr_fexp prec emax mx ex lx) with (shr (shr_record_of_loc mx lx) ex k).
  pose proof (shr_located v (shr_record_of_loc mx lx) ex k) as Hs.
  rewrite shr_m_of_loc in Hs. specialize (Hs Hmx Hloc).
  destruct (shr (shr_record_of_loc mx lx) ex k) as [mrs' e'].
  cbn [fst snd] in Hs. destruct Hs as (Hloc' & Hm' & He').
  assert (He'' : e' = fexp prec emax (Zdigits2 mx + ex)) by (subst k; lia).
  clear He'. rewrite fexp_eq in He'', Hk.
  (* bounds on the value and on the shifted mantissa *)
  pose proof (located_bounds _ _ _ Hloc) as Bv. rewrite shr_m_of_loc in Bv.
  pose proof (located_bounds _ _ _ Hloc') as Bv'.
  pose proof (bpow_gt_0 ex) as HP. pose proof (bpow_gt_0 e') as HP'.
  destruct (Zdigits2_bpow mx Hmx) as [Dhi Dlo].
  set (d := Zdigits2 mx) in *.
  assert (Hv0 : (0 <= v)%R).
  { apply IZR_le in Hmx. nra. }
  assert (Hvhi : (v < bpow (53 + e'))%R).
  { apply Rlt_le_trans with (bpow (d + ex)).
    - rewrite bpow_add.
      assert (IZR mx + 1 <= bpow d)%R.
      { destruct (Z_le_gt_dec 0 d) as [Hd|Hd].
        - rewrite bpow_IZR in * by exact Hd. rewrite <- plus_IZR.
          apply IZR_le. apply lt_IZR in Dhi. lia.
        - exfalso. subst d. destruct mx; simpl in Hd; lia. }
      nra.
    - apply bpow_le. lia. }
  assert (Hm'hi : shr_m mrs' < 2 ^ 53).
  { apply lt_IZR. rewrite <- bpow_IZR by lia.
    rewrite bpow_add in Hvhi. nra. }
  assert (Hvlo : emin < e' -> (bpow (prec - 1 + e') <= v)%R).
  { rewrite emin_eq, prec_eq. intros Hgt.
    assert (Hmx0 : 0 < mx).
    { destruct mx as [|p|p]; try lia. subst d. simpl in *. lia. }
    specialize (Dlo Hmx0).
    replace (53 - 1 + e') with (d - 1 + ex) by lia.
    rewrite bpow_add. nra. }
  assert (Hm'lo : emin < e' -> 2 ^ (53 - 1) <= shr_m mrs').
  { intros Hgt. specialize (Hvlo Hgt). rewrite prec_eq in Hvlo.
    assert (L : (bpow (53 - 1) < IZR (shr_m mrs') + 1)%R).
    { rewrite bpow_add in Hvlo. nra. }
    rewrite bpow_IZR, <- plus_IZR in L by lia. apply lt_IZR in L. lia. }
  (* rounding *)
  destruct (round_nearest_even_located v mrs' e' Hloc') as [Hm'' Hnear].
  set (m'' := round_nearest_even (shr_m mrs') (loc_of_shr_record mrs')) in *.
  assert (Hemin : emin <= e') by (rewrite emin_eq; lia).
  (* second shift *)
  assert (H1 : 0 <= m'' <= 2 ^ prec) by (rewrite prec_eq; lia).
  assert (H2 : emin < e' -> 2 ^ (prec - 1) <= m'')
    by (rewrite prec_eq; intros Hgt; specialize (Hm'lo Hgt); lia).
  pose proof (second_shift m'' e' H1 Hemin H2) as Hss. cbv zeta in Hss.
  destruct (shr_fexp prec emax m'' e' loc_Exact) as [mrs'' e''].
  cbn [fst snd] in Hss. destruct Hss as (Hval & Hpos & Hcan).
  exists (shr_m mrs''), e''.
  split; [exact Hpos|]. split; [exact Hcan|]. split; [|reflexivity].
  rewrite Hval. apply nearest_of_multiples; assumption.
Qed.

(** *** Order and value of the numbers of the format *)

Lemma canonical_lt m1 e1 m2 e2 :
  canonical_mantissa prec emax m1 e1 = true ->
  canonical_mantissa prec emax m2 e2 = true ->
  e1 < e2 -> (F2R (Zpos m1) e1 < F2R (Zpos m2) e2)%R.
Proof.
  intros C1 C2 He.
  destruct (canonical_mantissa_bounds _ _ C1) as (Hmin1 & Hhi1 & _).
  destruct (canonical_mantissa_bounds _ _ C2) as (_ & _ & Hlo2).
  specialize (Hlo2 ltac:(lia)). rewrite prec_eq in *. unfold F2R.
  pose proof (bpow_gt_0 e1) as P1. pose proof (bpow_gt_0 e2) as P2.
  apply IZR_lt in Hhi1. apply IZR_le in Hlo2.
  rewrite <- bpow_IZR in Hhi1, Hlo2 by lia.
  apply Rlt_le_trans with (bpow (53 + e1)).
  - rewrite bpow_add. nra.
  - apply Rle_trans with (bpow (53 - 1 + e2)).
    + apply bpow_le. lia.
    + rewrite bpow_add. nra.
Qed.

Lemma F2R_pos m e : (0 < F2R (Zpos m) e)%R.
Proof.
  unfold F2R. pose proof (bpow_gt_0 e).
  assert (0 < IZR (Zpos m))%R by (apply IZR_lt; lia). nra.
Qed.

Lemma F2R_lt_same_exp m1 m2 e :
  (F2R m1 e < F2R m2 e)%R <-> m1 < m2.
Proof.
  unfold F2R. pose proof (bpow_gt_0 e). split; intros H1.
  - apply lt_IZR. nra.
  - apply IZR_lt in H1. nra.
Qed.

(** On canonical positive numbers the comparison of the specification
    is the comparison of the values. *)
Lemma SFcompare_pos m1 e1 m2 e2 :
  canonical_mantissa prec emax m1 e1 = true ->
  canonical_mantissa prec emax m2 e2 = true ->
  match SFcompare (S754_finite false m1 e1) (S754_finite false m2 e2) with
  | Some Lt => (F2R (Zpos m1) e1 < F2R (Zpos m2) e2)%R
  | Some Eq => m1 = m2 /\ e1 = e2
  | Some Gt => (F2R (Zpos m2) e2 < F2R (Zpos m1) e1)%R
  | None => False
  end.
Proof.
  intros C1 C2. cbn [SFcompare].
  destruct (Z.compare_spec e1 e2) as [E | L | G].
  - subst e2. change (Pos.compare_cont Eq m1 m2) with (Pos.compare m1 m2).
    destruct (Pos.compare_spec m1 m2) as [E | L | G].
    + auto.
    + apply F2R_lt_same_exp. lia.
    + apply F2R_lt_same_exp. lia.
  - apply canonical_lt; assumption.
  - apply canonical_lt; assumption.
Qed.

Lemma SFleb_pos m1 e1 m2 e2 :
  canonical_mantissa prec emax m1 e1 = true ->
  canonical_mantissa prec emax m2 e2 = true ->
  (F2R (Zpos m1) e1 <= F2R (Zpos m2) e2)%R ->
  SFleb (S754_finite false m1 e1) (S754_finite false m2 e2) = true.
Proof.
  intros C1 C2 H. pose proof (SFcompare_pos m1 e1 m2 e2 C1 C2) as Hc.
  unfold SFleb. destruct (SFcompare _ _) as [[]|]; try reflexivity; try contradiction.
  lra.
Qed.

Lemma SFleb_pos_inv m1 e1 m2 e2 :
  canonical_mantissa prec emax m1 e1 = true ->
  canonical_mantissa prec emax m2 e2 = true ->
  SFleb (S754_finite false m1 e1) (S754_finite false m2 e2) = true ->
  (F2R (Zpos m1) e1 <= F2R (Zpos m2) e2)%R.
Proof.
  intros C1 C2. pose proof (SFcompare_pos m1 e1 m2 e2 C1 C2) as Hc.
  unfold SFleb. destruct (SFcompare _ _) as [[]|]; try discriminate; intros _.
  - destruct Hc as [-> ->]. lra.
  - lra.
Qed.

Lemma SFltb_pos_inv m1 e1 m2 e2 :
  canonical_mantissa prec emax m1 e1 = true ->
  canonical_mantissa prec emax m2 e2 = true ->
  SFltb (S754_finite false m1 e1) (S754_finite false m2 e2) = true ->
  (F2R (Zpos m1) e1 < F2R (Zpos m2) e2)%R.
Proof.
  intros C1 C2. pose proof (SFcompare_pos m1 e1 m2 e2 C1 C2) as Hc.
  unfold SFltb. destruct (SFcompare _ _) as [[]|]; try discriminate; intros _.
  exact Hc.
Qed.

(** *** Rounding is monotone *)

(** Two nearest numbers of the format are ordered as the reals they
    approximate. *)
Lemma nearest_le v1 w1 v2 w2 g1 g2 :
  canonical g1 -> SF2R g1 = w1 -> canonical g2 -> SF2R g2 = w2 ->
  nearest v1 w1 -> nearest v2 w2 -> (v1 < v2)%R -> (w1 <= w2)%R.
Proof.
  intros C1 E1 C2 E2 N1 N2 Hv.
  specialize (N1 g2 C2). specialize (N2 g1 C1). rewrite E1 in N2. rewrite E2 in N1.
  destruct (Rle_lt_dec w1 w2) as [L | G]; [exact L | exfalso].
  unfold Rabs in N1, N2.
  repeat destruct (Rcase_abs _) in N1; repeat destruct (Rcase_abs _) in N2; lra.
Qed.

Lemma unpacked_canonical m e :
  m = 0 \/ canonical_mantissa prec emax (Z.to_pos m) e = true ->
  canonical (unpacked m e).
Proof.
  destruct m as [|p|p]; cbn [unpacked canonical]; auto.
  intros [H | H]; [discriminate | exact H].
Qed.

Lemma unpacked_value m e : 0 <= m -> SF2R (unpacked m e) = F2R m e.
Proof.
  destruct m as [|p|p]; cbn [unpacked SF2R cond_Zopp]; intros H; try lia.
  - unfold F2R. lra.
  - reflexivity.
Qed.

Lemma pack_le m1 e1 m2 e2 :
  0 <= m1 -> 0 <= m2 ->
  m1 = 0 \/ canonical_mantissa prec emax (Z.to_pos m1) e1 = true ->
  m2 = 0 \/ canonical_mantissa prec emax (Z.to_pos m2) e2 = true ->
  (F2R m1 e1 <= F2R m2 e2)%R ->
  SFleb (pack false m1 e1) (pack false m2 e2) = true.
Proof.
  intros H1 H2 C1 C2 Hle.
  destruct m1 as [|p1|p1]; try lia; destruct m2 as [|p2|p2]; try lia; cbn [pack].
  - reflexivity.
  - destruct (e2 <=? _); reflexivity.
  - exfalso. pose proof (F2R_pos p1 e1). unfold F2R in Hle at 2. lra.
  - destruct C1 as [C1 | C1]; [discriminate|].
    destruct C2 as [C2 | C2]; [discriminate|]. cbn [Z.to_pos] in C1, C2.
    destruct (Z.leb_spec e2 (emax - prec)) as [B2 | B2].
    + destruct (Z.leb_spec e1 (emax - prec)) as [B1 | B1].
      * apply SFleb_pos; assumption.
      * exfalso. pose proof (canonical_lt p2 e2 p1 e1 C2 C1 ltac:(lia)). lra.
    + destruct (e1 <=? _); reflexivity.
Qed.

(** Main lemma: on positive numbers the rounding of
    [binary_round_aux] is monotone. *)
Lemma binary_round_aux_mono mx1 ex1 lx1 v1 mx2 ex2 lx2 v2 :
  0 <= mx1 -> located v1 (shr_record_of_loc mx1 lx1) ex1 ->
  ex1 <= fexp prec emax (Zdigits2 mx1 + ex1) ->
  0 <= mx2 -> located v2 (shr_record_of_loc mx2 lx2) ex2 ->
  ex2 <= fexp prec emax (Zdigits2 mx2 + ex2) ->
  (v1 < v2)%R ->
  SFleb (binary_round_aux prec emax false mx1 ex1 lx1)
        (binary_round_aux prec emax false mx2 ex2 lx2) = true.
Proof.
  intros Hm1 Hl1 Hk1 Hm2 Hl2 Hk2 Hv.
  destruct (binary_round_aux_spec mx1 ex1 lx1 v1 Hm1 Hl1 Hk1)
    as (m1 & e1 & P1 & C1 & N1 & ->).
  destruct (binary_round_aux_spec mx2 ex2 lx2 v2 Hm2 Hl2 Hk2)
    as (m2 & e2 & P2 & C2 & N2 & ->).
  apply pack_le; try assumption.
  apply (nearest_le v1 _ v2 _ (unpacked m1 e1) (unpacked m2 e2));
    auto using unpacked_canonical, unpacked_value.
Qed.

Lemma nearest_lower g v w :
  canonical g -> (SF2R g <= v)%R -> nearest v w -> (SF2R g <= w)%R.
Proof.
  intros C H N. specialize (N g C). unfold Rabs in N.
  repeat destruct (Rcase_abs _) in N; lra.
Qed.

Lemma nearest_upper g v w :
  canonical g -> (v <= SF2R g)%R -> nearest v w -> (w <= SF2R g)%R.
Proof.
  intros C H N. specialize (N g C). unfold Rabs in N.
  repeat destruct (Rcase_abs _) in N; lra.
Qed.

(** *** Valid numbers *)

Lemma valid_finite s m e :
  SpecFloat.valid_binary prec emax (S754_finite s m e) = true ->
  canonical_mantissa prec emax m e = true /\ e <= emax - prec.
Proof.
  cbn [SpecFloat.valid_binary]. unfold bounded. intros H.
  apply andb_prop in H as [H1 H2]. apply Z.leb_le in H2. auto.
Qed.

Lemma pack_finite s m e :
  e <= emax - prec -> pack s (Zpos m) e = S754_finite s m e.
Proof. intros H. cbn [pack]. apply Z.leb_le in H. rewrite H. reflexivity. Qed.

Lemma nonneg_of_leb X :
  SpecFloat.valid_binary prec emax X = true ->
  SFleb (S754_zero false) X = true -> nonneg X.
Proof.
  intros V H. destruct X as [s|[]| |[] m e]; try discriminate H.
  - constructor.
  - constructor.
  - destruct (valid_finite _ _ _ V). constructor; assumption.
Qed.

Lemma nonneg_pack m e : 0 <= m ->
  m = 0 \/ canonical_mantissa prec emax (Z.to_pos m) e = true ->
  nonneg (pack false m e).
Proof.
  intros Hm C. destruct m as [|p|p]; try lia; cbn [pack].
  - constructor.
  - destruct C as [C|C]; [discriminate|]. cbn [Z.to_pos] in C.
    destruct (Z.leb_spec e (emax - prec)); constructor; assumption.
Qed.

Lemma nonneg_leb_zero X : nonneg X -> SFleb (S754_zero false) X = true.
Proof. intros []; reflexivity. Qed.

Lemma SFleb_refl_nonneg X : nonneg X -> SFleb X X = true.
Proof.
  intros [s| |m e C B]; try reflexivity.
  unfold SFleb. cbn [SFcompare]. rewrite Z.compare_refl, Pos.compare_cont_refl.
  reflexivity.
Qed.

Lemma SFleb_nonneg_infinity X : nonneg X -> SFleb X (S754_infinity false) = true.
Proof. intros []; reflexivity. Qed.

Lemma SFleb_zero_nonneg s X : nonneg X -> SFleb (S754_zero s) X = true.
Proof. intros []; reflexivity. Qed.

(** *** Multiplication *)

Lemma digits2_pos_mul mx my :
  Zpos (digits2_pos mx) + Zpos (digits2_pos my) - 1
  <= Zpos (digits2_pos (mx * my)).
Proof.
  pose proof (digits2_pos_bounds mx) as [Lx _].
  pose proof (digits2_pos_bounds my) as [Ly _].
  pose proof (digits2_pos_bounds (mx * my)) as [_ H].
  set (dx := Zpos (digits2_pos mx)) in *. set (dy := Zpos (digits2_pos my)) in *.
  set (D := Zpos (digits2_pos (mx * my))) in *.
  assert (0 < dx) by (subst dx; lia). assert (0 < dy) by (subst dy; lia).
  assert (0 < D) by (subst D; lia).
  assert (Hp : 2 ^ (dx - 1 + (dy - 1)) <= Zpos (mx * my)).
  { rewrite Z.pow_add_r, Pos2Z.inj_mul by lia.
    apply Z.mul_le_mono_nonneg; try assumption; apply Z.pow_nonneg; lia. }
  destruct (Z_le_gt_dec (dx + dy - 1) D) as [L | G]; [exact L | exfalso].
  assert (2 ^ D <= 2 ^ (dx - 1 + (dy - 1))) by (apply Z.pow_le_mono_r; lia).
  lia.
Qed.

Lemma mul_exponent_canonical mx ex my ey :
  canonical_mantissa prec emax mx ex = true ->
  canonical_mantissa prec emax my ey = true ->
  ex + ey <= fexp prec emax (Zdigits2 (Zpos (mx * my)) + (ex + ey)).
Proof.
  unfold canonical_mantissa. rewrite !fexp_eq. intros Cx Cy.
  apply Z.eqb_eq in Cx, Cy. cbn [Zdigits2].
  pose proof (digits2_pos_mul mx my).
  assert (0 < Zpos (digits2_pos mx)) by lia.
  assert (0 < Zpos (digits2_pos my)) by lia.
  lia.
Qed.

Lemma F2R_mul m1 e1 m2 e2 :
  F2R (m1 * m2) (e1 + e2) = (F2R m1 e1 * F2R m2 e2)%R.
Proof. unfold F2R. rewrite mult_IZR, bpow_add. ring. Qed.

(** The product of two finite numbers: the nearest number of the format
    to the product of the values, with the product of the signs. *)
Lemma SFmul_finite_spec mx ex my ey :
  canonical_mantissa prec emax mx ex = true ->
  canonical_mantissa prec emax my ey = true ->
  exists m e,
    0 <= m
    /\ (m = 0 \/ canonical_mantissa prec emax (Z.to_pos m) e = true)
    /\ nearest (F2R (Zpos mx) ex * F2R (Zpos my) ey) (F2R m e)
    /\ forall sx sy,
         SFmul prec emax (S754_finite sx mx ex) (S754_finite sy my ey)
         = pack (xorb sx sy) m e.
Proof.
  intros Cx Cy.
  destruct (binary_round_aux_spec (Zpos (mx * my)) (ex + ey) loc_Exact
              (F2R (Zpos mx) ex * F2R (Zpos my) ey))
    as (m & e & Hm & Hc & Hn & Hr).
  - lia.
  - rewrite <- F2R_mul. apply located_exact.
  - apply mul_exponent_canonical; assumption.
  - exists m, e. repeat split; try assumption.
    intros sx sy. cbn [SFmul]. apply Hr.
Qed.

(** Multiplying by a number that is not negative is monotone on the
    numbers that are not negative. *)
Lemma SFmul_mono A X Y :
  nonneg A -> nonneg X -> nonneg Y ->
  SFleb X Y = true ->
  A <> S754_infinity false -> Y <> S754_infinity false ->
  SFleb (SFmul prec emax A X) (SFmul prec emax A Y) = true.
Proof.
  intros HA HX HY Hle HAi HYi.
  destruct HY as [sy| |my ey Cy By]; [| congruence |].
  - (* Y zero: X is zero too *)
    destruct HX as [sx| |mx ex Cx Bx]; try discriminate Hle.
    destruct HA as [sa| |ma ea Ca Ba]; [reflexivity | congruence | reflexivity].
  - destruct HA as [sa| |ma ea Ca Ba]; [| congruence |].
    + destruct HX as [sx| |mx ex Cx Bx]; try discriminate Hle; reflexivity.
    + destruct (SFmul_finite_spec ma ea my ey Ca Cy) as (m2 & e2 & P2 & C2 & N2 & R2).
      rewrite R2. cbn [xorb].
      destruct HX as [sx| |mx ex Cx Bx]; try discriminate Hle.
      * apply SFleb_zero_nonneg, nonneg_pack; assumption.
      * destruct (SFmul_finite_spec ma ea mx ex Ca Cx) as (m1 & e1 & P1 & C1 & N1 & R1).
        rewrite R1. cbn [xorb].
        pose proof (SFcompare_pos mx ex my ey Cx Cy) as Hc.
        unfold SFleb in Hle.
        destruct (SFcompare (S754_finite false mx ex) (S754_finite false my ey))
          as [[]|] eqn:E; try discriminate Hle.
        -- destruct Hc as [-> ->].
           pose proof (R1 false false) as E1. pose proof (R2 false false) as E2.
           cbn [xorb] in E1, E2. rewrite <- E1, E2.
           apply SFleb_refl_nonneg, nonneg_pack; assumption.
        -- apply pack_le; try assumption.
           apply (nearest_le (F2R (Zpos ma) ea * F2R (Zpos mx) ex) _
                    (F2R (Zpos ma) ea * F2R (Zpos my) ey) _
                    (unpacked m1 e1) (unpacked m2 e2));
             auto using unpacked_canonical, unpacked_value.
           pose proof (F2R_pos ma ea). nra.
Qed.

Lemma SFmul_nonneg A X :
  nonneg A -> nonneg X ->
  SFmul prec emax A X = S754_nan \/ nonneg (SFmul prec emax A X).
Proof.
  intros [sa| |ma ea Ca Ba] [sx| |mx ex Cx Bx]; cbn [SFmul xorb]; auto;
    try (right; constructor; fail).
  destruct (SFmul_finite_spec ma ea mx ex Ca Cx) as (m & e & P & C & N & R).
  pose proof (R false false) as E. cbn [SFmul xorb] in E. rewrite E.
  right. apply nonneg_pack; assumption.
Qed.

(** Multiplying by a factor between 0 and 1 does not increase a number
    that is not negative. *)
Lemma SFmul_le_l X mc ec :
  nonneg X -> canonical_mantissa prec emax mc ec = true ->
  (F2R (Zpos mc) ec <= 1)%R ->
  SFleb (SFmul prec emax X (S754_finite false mc ec)) X = true.
Proof.
  intros [sx| |mx ex Cx Bx] Cc Hc; try reflexivity.
  destruct (SFmul_finite_spec mx ex mc ec Cx Cc) as (m & e & P & C & N & R).
  rewrite R. cbn [xorb]. rewrite <- (pack_finite false mx ex Bx).
  apply pack_le; auto; [lia|].
  change (F2R (Zpos mx) ex) with (SF2R (S754_finite false mx ex)).
  refine (nearest_upper (S754_finite false mx ex) _ _ Cx _ N).
  cbn [SF2R cond_Zopp]. pose proof (F2R_pos mx ex). nra.
Qed.

(** *** Addition *)

Lemma iter_xO_value m d : Zpos (Pos.iter xO m d) = Zpos m * 2 ^ Zpos d.
Proof.
  induction d as [|d IH] using Pos.peano_ind.
  - simpl. lia.
  - rewrite Pos.iter_succ, Pos2Z.inj_xO, IH, Pos2Z.inj_succ, Z.pow_succ_r by lia.
    lia.
Qed.

Lemma iter_xO_digits m d :
  Zpos (digits2_pos (Pos.iter xO m d)) = Zpos (digits2_pos m) + Zpos d.
Proof.
  induction d as [|d IH] using Pos.peano_ind.
  - simpl. lia.
  - rewrite Pos.iter_succ. cbn [digits2_pos]. rewrite Pos2Z.inj_succ, IH. lia.
Qed.

Lemma shl_align_spec m e e' :
  let r := shl_align m e e' in
  F2R (Zpos (fst r)) (snd r) = F2R (Zpos m) e
  /\ snd r = Z.min e e'
  /\ Zpos (digits2_pos (fst r)) + snd r = Zpos (digits2_pos m) + e.
Proof.
  cbv zeta. unfold shl_align.
  destruct (e' - e) as [|d|d] eqn:E; cbn [fst snd].
  - repeat split; lia.
  - repeat split; lia.
  - rewrite iter_xO_digits. split; [|split; lia].
    rewrite iter_xO_value.
    rewrite (F2R_shift (Zpos m) e' (Zpos d)) by lia.
    replace (e' + Zpos d) with e by lia. reflexivity.
Qed.

Lemma binary_round_spec mx ex :
  exists m e,
    0 <= m
    /\ (m = 0 \/ canonical_mantissa prec emax (Z.to_pos m) e = true)
    /\ nearest (F2R (Zpos mx) ex) (F2R m e)
    /\ forall sx, binary_round prec emax sx mx ex = pack sx m e.
Proof.
  unfold binary_round.
  pose proof (shl_align_spec mx ex (fexp prec emax (Zpos (digits2_pos mx) + ex)))
    as (Hv & He & Hd).
  destruct (shl_align mx ex _) as [mz ez]. cbn [fst snd] in *.
  destruct (binary_round_aux_spec (Zpos mz) ez loc_Exact (F2R (Zpos mx) ex))
    as (m & e & Hm & Hc & Hn & Hr).
  - lia.
  - rewrite <- Hv. apply located_exact.
  - cbn [Zdigits2]. rewrite Hd. lia.
  - exists m, e. auto.
Qed.

Lemma SFadd_finite_pos_spec mx ex my ey :
  exists m e,
    0 <= m
    /\ (m = 0 \/ canonical_mantissa prec emax (Z.to_pos m) e = true)
    /\ nearest (F2R (Zpos mx) ex + F2R (Zpos my) ey) (F2R m e)
    /\ SFadd prec emax (S754_finite false mx ex) (S754_finite false my ey)
       = pack false m e.
Proof.
  cbn [SFadd cond_Zopp].
  pose proof (shl_align_spec mx ex (Z.min ex ey)) as (Hvx & Hex & _).
  pose proof (shl_align_spec my ey (Z.min ex ey)) as (Hvy & Hey & _).
  destruct (shl_align mx ex _) as [mx' ex'].
  destruct (shl_align my ey _) as [my' ey']. cbn [fst snd] in *.
  assert (Ex : ex' = Z.min ex ey) by lia.
  assert (Ey : ey' = Z.min ex ey) by lia.
  change (Zpos mx' + Zpos my') with (Zpos (mx' + my')).
  cbn [binary_normalize].
  destruct (binary_round_spec (mx' + my') (Z.min ex ey)) as (m & e & Hm & Hc & Hn & Hr).
  exists m, e. repeat split; try assumption; [|apply Hr].
  replace (F2R (Zpos mx) ex + F2R (Zpos my) ey)%R
    with (F2R (Zpos (mx' + my')) (Z.min ex ey)); [exact Hn|].
  rewrite <- Hvx, <- Hvy, Ex, Ey. unfold F2R. rewrite Pos2Z.inj_add, plus_IZR. ring.
Qed.

(** Adding a number that is not negative does not decrease a number
    that is not negative. *)
Lemma SFadd_ge X D :
  nonneg X -> nonneg D -> SFleb X (SFadd prec emax X D) = true.
Proof.
  intros HX HD.
  destruct HX as [sx| |mx ex Cx Bx].
  - destruct HD as [sd| |md ed Cd Bd]; cbn [SFadd]; try reflexivity.
    destruct sx, sd; reflexivity.
  - destruct HD; reflexivity.
  - destruct HD as [sd| |md ed Cd Bd]; cbn [SFadd].
    + apply SFleb_refl_nonneg. constructor; assumption.
    + reflexivity.
    + destruct (SFadd_finite_pos_spec mx ex md ed) as (m & e & P & C & N & R).
      cbn [SFadd] in R. rewrite R.
      rewrite <- (pack_finite false mx ex Bx).
      apply pack_le; auto; [lia|].
      change (F2R (Zpos mx) ex) with (SF2R (S754_finite false mx ex)).
      refine (nearest_lower (S754_finite false mx ex) _ _ Cx _ N).
      cbn [SF2R cond_Zopp]. pose proof (F2R_pos md ed). lra.
Qed.

Lemma SFadd_nonneg X D :
  nonneg X -> nonneg D -> nonneg (SFadd prec emax X D).
Proof.
  intros HX HD.
  destruct HX as [sx| |mx ex Cx Bx]; destruct HD as [sd| |md ed Cd Bd];
    cbn [SFadd]; try (constructor; assumption).
  - destruct sx, sd; constructor.
  - destruct (SFadd_finite_pos_spec mx ex md ed) as (m & e & P & C & N & R).
    cbn [SFadd] in R. rewrite R. apply nonneg_pack; assumption.
Qed.

(** *** Division *)

Lemma new_location_located (q m2 r e : Z) (v : R) :
  0 < m2 -> 0 <= r < m2 ->
  (v * IZR m2 = (IZR q * IZR m2 + IZR r) * bpow e)%R ->
  located v (shr_record_of_loc q (new_location m2 r)) e.
Proof.
  intros Hm2 Hr Hv.
  pose proof (bpow_gt_0 e) as HP.
  assert (HM : (0 < IZR m2)%R) by (apply IZR_lt; lia).
  set (t := (IZR r / IZR m2)%R).
  assert (Ht : (t * IZR m2 = IZR r)%R) by (subst t; field; lra).
  assert (Hvt : v = ((IZR q + t) * bpow e)%R).
  { apply Rmult_eq_reg_r with (IZR m2); [|lra]. rewrite Hv. nra. }
  assert (Ht0 : r = 0 -> t = 0%R).
  { intros ->. subst t. unfold Rdiv. lra. }
  assert (Htpos : 0 < r -> (0 < t)%R).
  { intros H. apply IZR_lt in H. nra. }
  assert (Htlt : forall c, (c ?= m2) = Lt -> (IZR c < IZR m2)%R).
  { intros c H. apply IZR_lt. apply Z.compare_lt_iff. exact H. }
  assert (Htgt : forall c, (c ?= m2) = Gt -> (IZR m2 < IZR c)%R).
  { intros c H. apply IZR_lt. apply Z.compare_gt_iff. exact H. }
  assert (Hteq : forall c, (c ?= m2) = Eq -> (IZR c = IZR m2)%R).
  { intros c H. apply Z.compare_eq in H. subst. reflexivity. }
  assert (Hr1 : (IZR r < IZR m2)%R) by (apply IZR_lt; lia).
  unfold new_location, new_location_even, new_location_odd.
  destruct (Z.even m2) eqn:Ev.
  - destruct (Z.eqb_spec r 0) as [E0 | N0].
    + unfold located. cbn. rewrite Hvt, (Ht0 E0). lra.
    + specialize (Htpos ltac:(lia)).
      destruct (2 * r ?= m2) eqn:Cmp; unfold located; cbn.
      * apply Hteq in Cmp. rewrite mult_IZR in Cmp. rewrite Hvt.
        assert (t = / 2)%R by nra. subst t. nra.
      * apply Htlt in Cmp. rewrite mult_IZR in Cmp. rewrite Hvt.
        assert (t < / 2)%R by nra. nra.
      * apply Htgt in Cmp. rewrite mult_IZR in Cmp. rewrite Hvt.
        assert (/ 2 < t)%R by nra. assert (t < 1)%R by nra. nra.
  - assert (Hodd : forall c, 2 * c <> m2).
    { intros c E. subst m2. rewrite Z.even_mul in Ev. discriminate. }
    destruct (Z.eqb_spec r 0) as [E0 | N0].
    + unfold located. cbn. rewrite Hvt, (Ht0 E0). lra.
    + specialize (Htpos ltac:(lia)).
      destruct (2 * r + 1 ?= m2) eqn:Cmp; unfold located; cbn.
      * apply Hteq in Cmp. rewrite plus_IZR, mult_IZR in Cmp. rewrite Hvt.
        assert (t < / 2)%R by nra. nra.
      * apply Htlt in Cmp. rewrite plus_IZR, mult_IZR in Cmp. rewrite Hvt.
        assert (t < / 2)%R by nra. nra.
      * apply Z.compare_gt_iff in Cmp.
        assert (L : m2 < 2 * r) by (specialize (Hodd r); lia).
        apply IZR_lt in L. rewrite mult_IZR in L. rewrite Hvt.
        assert (/ 2 < t)%R by nra. assert (t < 1)%R by nra. nra.
Qed.

Lemma F2R_div_scaled mx ex my ey e' :
  0 <= ex - ey - e' ->
  (F2R (Zpos mx) ex / F2R (Zpos my) ey * IZR (Zpos my)
   = IZR (Zpos mx * 2 ^ (ex - ey - e')) * bpow e')%R.
Proof.
  intros Hs. unfold F2R.
  pose proof (bpow_gt_0 ey). pose proof (bpow_gt_0 e').
  assert (0 < IZR (Zpos my))%R by (apply IZR_lt; lia).
  rewrite mult_IZR, <- bpow_IZR by exact Hs.
  replace ex with ((ex - ey - e') + e' + ey) at 1 by lia.
  rewrite !bpow_add. field. split; lra.
Qed.

(** The quotient, exponent and location computed by [SFdiv] describe
    the quotient of the values, and the exponent is not above the
    canonical one. *)
Lemma SFdiv_core_spec mx ex my ey :
  let '(q, e', l) := SFdiv_core_binary prec emax (Zpos mx) ex (Zpos my) ey in
  0 <= q
  /\ located (F2R (Zpos mx) ex / F2R (Zpos my) ey) (shr_record_of_loc q l) e'
  /\ e' <= fexp prec emax (Zdigits2 q + e').
Proof.
  unfold SFdiv_core_binary. cbn [Zdigits2].
  pose proof (digits2_pos_bounds mx) as [Lx Ux].
  pose proof (digits2_pos_bounds my) as [Ly Uy].
  set (d1 := Zpos (digits2_pos mx)) in *. set (d2 := Zpos (digits2_pos my)) in *.
  assert (Hd1 : 0 < d1) by (subst d1; lia).
  assert (Hd2 : 0 < d2) by (subst d2; lia).
  rewrite fexp_eq.
  set (e' := Z.min (Z.max (d1 + ex - (d2 + ey) - 53) (-1074)) (ex - ey)).
  set (s := ex - ey - e').
  assert (Hs : 0 <= s) by (subst s e'; lia).
  assert (Hm' : match s with
                | 0 => Zpos mx
                | Zpos _ => Z.shiftl (Zpos mx) s
                | Zneg _ => 0
                end = Zpos mx * 2 ^ s).
  { destruct s as [|p|p] eqn:Es; try lia.
    - rewrite Z.shiftl_mul_pow2 by lia. reflexivity. }
  rewrite Hm'. clear Hm'.
  pose proof (Z_div_mod (Zpos mx * 2 ^ s) (Zpos my) ltac:(lia)) as Hdm.
  destruct (Z.div_eucl (Zpos mx * 2 ^ s) (Zpos my)) as [q r].
  destruct Hdm as [Hq Hr].
  assert (Hp : 0 < 2 ^ s) by (apply Z.pow_pos_nonneg; lia).
  assert (Hq0 : 0 <= q) by nia.
  split; [exact Hq0|]. split.
  - apply new_location_located; [lia | lia |].
    rewrite (F2R_div_scaled mx ex my ey e') by (fold s; exact Hs). fold s.
    rewrite Hq, plus_IZR, mult_IZR. ring.
  - rewrite fexp_eq.
    destruct (Z_le_gt_dec e' (-1074)) as [L | G]; [lia|].
    assert (Hs53 : 53 - d1 + d2 <= s) by (subst s e'; lia).
    assert (Hq52 : 2 ^ 52 <= q).
    { assert (H1 : 2 ^ (52 + d2) <= Zpos mx * 2 ^ s).
      { apply Z.le_trans with (2 ^ (d1 - 1) * 2 ^ s).
        - rewrite <- Z.pow_add_r by lia. apply Z.pow_le_mono_r; lia.
        - apply Z.mul_le_mono_nonneg_r; lia. }
      rewrite Z.pow_add_r in H1 by lia.
      assert (H2 : 2 ^ 52 * Zpos my < 2 ^ 52 * 2 ^ d2).
      { apply Z.mul_lt_mono_pos_l; lia. }
      nia. }
    assert (Hdq : 53 <= Zdigits2 q).
    { destruct q as [|pq|pq]; try lia. cbn [Zdigits2].
      pose proof (digits2_pos_bounds pq) as [_ Uq].
      destruct (Z_le_gt_dec 53 (Zpos (digits2_pos pq))) as [L' | G']; [exact L'|].
      assert (2 ^ Zpos (digits2_pos pq) <= 2 ^ 52) by (apply Z.pow_le_mono_r; lia).
      lia. }
    lia.
Qed.

Lemma SFdiv_finite_spec mx ex my ey :
  exists m e,
    0 <= m
    /\ (m = 0 \/ canonical_mantissa prec emax (Z.to_pos m) e = true)
    /\ nearest (F2R (Zpos mx) ex / F2R (Zpos my) ey) (F2R m e)
    /\ forall sx sy,
         SFdiv prec emax (S754_finite sx mx ex) (S754_finite sy my ey)
         = pack (xorb sx sy) m e.
Proof.
  pose proof (SFdiv_core_spec mx ex my ey) as H.
  cbn [SFdiv].
  destruct (SFdiv_core_binary prec emax (Zpos mx) ex (Zpos my) ey) as [[q e'] l].
  destruct H as (Hq & Hl & Hk).
  destruct (binary_round_aux_spec q e' l _ Hq Hl Hk) as (m & e & Hm & Hc & Hn & Hr).
  exists m, e. auto.
Qed.

Lemma SFdiv_nonneg X mc ec :
  nonneg X -> nonneg (SFdiv prec emax X (S754_finite false mc ec)).
Proof.
  intros [sx| |mx ex Cx Bx]; cbn [SFdiv xorb]; try constructor.
  destruct (SFdiv_finite_spec mx ex mc ec) as (m & e & P & C & N & R).
  pose proof (R false false) as E. cbn [SFdiv xorb] in E. rewrite E.
  apply nonneg_pack; assumption.
Qed.

(** Dividing by a positive finite number is monotone on the numbers
    that are not negative. *)
Lemma SFdiv_mono X Y mc ec :
  nonneg X -> nonneg Y -> SFleb X Y = true ->
  SFleb (SFdiv prec emax X (S754_finite false mc ec))
        (SFdiv prec emax Y (S754_finite false mc ec)) = true.
Proof.
  intros HX HY Hle.
  pose proof (SFdiv_nonneg Y mc ec HY) as NY.
  destruct HX as [sx| |mx ex Cx Bx].
  - change (SFdiv prec emax (S754_zero sx) (S754_finite false mc ec))
      with (S754_zero (xorb sx false)).
    apply SFleb_zero_nonneg, NY.
  - destruct HY as [sy| |my ey Cy By]; try discriminate Hle. reflexivity.
  - destruct HY as [sy| |my ey Cy By]; try discriminate Hle.
    + change (SFdiv prec emax (S754_infinity false) (S754_finite false mc ec))
        with (S754_infinity false).
      apply SFleb_nonneg_infinity.
      apply SFdiv_nonneg. constructor; assumption.
    + destruct (SFdiv_finite_spec mx ex mc ec) as (m1 & e1 & P1 & C1 & N1 & R1).
      destruct (SFdiv_finite_spec my ey mc ec) as (m2 & e2 & P2 & C2 & N2 & R2).
      pose proof (SFcompare_pos mx ex my ey Cx Cy) as Hc.
      unfold SFleb in Hle.
      destruct (SFcompare (S754_finite false mx ex) (S754_finite false my ey))
        as [[]|] eqn:E; try discriminate Hle.
      * destruct Hc as [-> ->]. apply SFleb_refl_nonneg, NY.
      * rewrite R1, R2. cbn [xorb]. apply pack_le; try assumption.
        apply (nearest_le (F2R (Zpos mx) ex / F2R (Zpos mc) ec) _
                 (F2R (Zpos my) ey / F2R (Zpos mc) ec) _
                 (unpacked m1 e1) (unpacked m2 e2));
          auto using unpacked_canonical, unpacked_value.
        pose proof (F2R_pos mc ec). unfold Rdiv.
        apply Rmult_lt_compat_r; [apply Rinv_0_lt_compat; assumption | exact Hc].
Qed.

Lemma nonpos_of_leb X :
  SFleb X (S754_zero false) = true -> nonpos X.
Proof.
  intros H. destruct X as [s|[]| |[] m e]; try discriminate H; constructor.
Qed.

Lemma nonpos_leb_zero X : nonpos X -> SFleb X (S754_zero false) = true.
Proof. intros []; reflexivity. Qed.

Lemma nonpos_leb_nonneg X Y : nonpos X -> nonneg Y -> SFleb X Y = true.
Proof. intros [] []; reflexivity. Qed.

Lemma nonpos_pack m e : 0 <= m -> nonpos (pack true m e).
Proof.
  intros Hm. destruct m as [|p|p]; try lia; cbn [pack]; try constructor.
  destruct (e <=? _); constructor.
Qed.

Lemma SFdiv_nonpos X mc ec :
  nonpos X -> nonpos (SFdiv prec emax X (S754_finite false mc ec)).
Proof.
  intros [sx| |mx ex]; cbn [SFdiv xorb]; try constructor.
  destruct (SFdiv_finite_spec mx ex mc ec) as (m & e & P & C & N & R).
  pose proof (R true false) as E. cbn [SFdiv xorb] in E. rewrite E.
  apply nonpos_pack; assumption.
Qed.

End Round.

(** ** Arithmetic on numbers *)

Module FloatArith.

Import Reals Lra FloatOrd JSFacts Binary64 Round.

Local Open Scope float_scope.

Lemma mul_SF x y : Prim2SF (x * y) = SFmul prec emax (Prim2SF x) (Prim2SF y).
Proof. apply mul_spec. Qed.

Lemma div_SF x y : Prim2SF (x / y) = SFdiv prec emax (Prim2SF x) (Prim2SF y).
Proof. apply div_spec. Qed.

Lemma add_SF x y : Prim2SF (x + y) = SFadd prec emax (Prim2SF x) (Prim2SF y).
Proof. apply add_spec. Qed.

Lemma leb_SF x y : (x <=? y) = SFleb (Prim2SF x) (Prim2SF y).
Proof. apply leb_spec. Qed.

Lemma nonneg_float x : (0 <=? x) = true -> nonneg (Prim2SF x).
Proof.
  rewrite leb_SF. apply nonneg_of_leb, Prim2SF_valid.
Qed.

Lemma nonneg_float_inv x : nonneg (Prim2SF x) -> (0 <=? x) = true.
Proof. rewrite leb_SF. apply nonneg_leb_zero. Qed.

Lemma nonpos_float x : (x <=? 0) = true -> nonpos (Prim2SF x).
Proof. rewrite leb_SF. apply nonpos_of_leb. Qed.

Lemma nonpos_float_inv x : nonpos (Prim2SF x) -> (x <=? 0) = true.
Proof. rewrite leb_SF. apply nonpos_leb_zero. Qed.

(** A positive finite number. *)
Lemma positive_finite c :
  (0 <? c) = true -> is_finite c = true ->
  exists m e, Prim2SF c = S754_finite false m e
              /\ canonical_mantissa prec emax m e = true.
Proof.
  rewrite ltb_compare, is_finite_spec. pose proof (Prim2SF_valid c) as V.
  change (Prim2SF 0) with (S754_zero false).
  destruct (Prim2SF c) as [s|s| |[] m e]; try discriminate.
  intros _ _. exists m, e. split; [reflexivity|]. apply (valid_finite _ _ _ V).
Qed.

Lemma is_finite_SF x :
  is_finite x = true <->
  (exists s, Prim2SF x = S754_zero s) \/ (exists s m e, Prim2SF x = S754_finite s m e).
Proof.
  rewrite is_finite_spec. destruct (Prim2SF x) as [s|s| |s m e]; split;
    try discriminate; try reflexivity; eauto;
    intros [[s' H] | [s' [m' [e' H]]]]; discriminate.
Qed.

Lemma is_nan_SF x : is_nan x = true <-> Prim2SF x = S754_nan.
Proof.
  rewrite is_nan_spec. destruct (Prim2SF x); split; try discriminate; reflexivity.
Qed.

Lemma not_nan_SF x : is_nan x = false <-> Prim2SF x <> S754_nan.
Proof.
  rewrite is_nan_spec. destruct (Prim2SF x); split; try discriminate; try reflexivity;
    congruence.
Qed.

Lemma nonneg_not_nan X : nonneg X -> X <> S754_nan.
Proof. intros N E. destruct N; discriminate E. Qed.

Lemma nonpos_not_nan X : nonpos X -> X <> S754_nan.
Proof. intros N E. destruct N; discriminate E. Qed.

(** *** Division by a positive finite number *)

Lemma div_mono x y c :
  (0 <? c) = true -> is_finite c = true ->
  (0 <=? x) = true -> (x <=? y) = true ->
  (x / c <=? y / c) = true.
Proof.
  intros Hc Hf Hx Hxy.
  destruct (positive_finite c Hc Hf) as (mc & ec & Ec & _).
  rewrite leb_SF, !div_SF, Ec.
  apply SFdiv_mono.
  - apply nonneg_float, Hx.
  - apply nonneg_float, (leb_trans _ _ _ Hx Hxy).
  - rewrite <- leb_SF. exact Hxy.
Qed.

Lemma div_nonneg x c :
  (0 <? c) = true -> is_finite c = true ->
  (0 <=? x) = true -> (0 <=? x / c) = true.
Proof.
  intros Hc Hf Hx.
  destruct (positive_finite c Hc Hf) as (mc & ec & Ec & _).
  apply nonneg_float_inv. rewrite div_SF, Ec.
  apply SFdiv_nonneg, nonneg_float, Hx.
Qed.

Lemma div_nonpos x c :
  (0 <? c) = true -> is_finite c = true ->
  (x <=? 0) = true -> (x / c <=? 0) = true.
Proof.
  intros Hc Hf Hx.
  destruct (positive_finite c Hc Hf) as (mc & ec & Ec & _).
  apply nonpos_float_inv. rewrite div_SF, Ec.
  apply SFdiv_nonpos, nonpos_float, Hx.
Qed.

Lemma div_is_finite_inv x c :
  (0 <? c) = true -> is_finite c = true ->
  is_finite (x / c) = true -> is_finite x = true.
Proof.
  intros Hc Hf.
  destruct (positive_finite c Hc Hf) as (mc & ec & Ec & _).
  rewrite !is_finite_spec, div_SF, Ec.
  destruct (Prim2SF x) as [s|s| |s m e]; cbn [SFdiv]; auto.
Qed.

(** *** Multiplication *)

Lemma mul_is_finite_inv a x :
  is_finite (a * x) = true -> is_finite a = true /\ is_finite x = true.
Proof.
  rewrite !is_finite_spec, mul_SF.
  destruct (Prim2SF a) as [sa|sa| |sa ma ea], (Prim2SF x) as [sx|sx| |sx mx ex];
    cbn [SFmul]; auto; intros H; discriminate H.
Qed.

Lemma finite_not_infinity x s : is_finite x = true -> Prim2SF x <> S754_infinity s.
Proof. rewrite is_finite_spec. intros H E. rewrite E in H. discriminate. Qed.

Lemma mul_mono a x y :
  (0 <=? a) = true -> (0 <=? x) = true -> (x <=? y) = true ->
  is_finite (a * y) = true ->
  (a * x <=? a * y) = true.
Proof.
  intros Ha Hx Hxy Hf.
  destruct (mul_is_finite_inv _ _ Hf) as [Fa Fy].
  rewrite leb_SF, !mul_SF. apply SFmul_mono.
  - apply nonneg_float, Ha.
  - apply nonneg_float, Hx.
  - apply nonneg_float, (leb_trans _ _ _ Hx Hxy).
  - rewrite <- leb_SF. exact Hxy.
  - apply finite_not_infinity, Fa.
  - apply finite_not_infinity, Fy.
Qed.

Lemma mul_nonneg a x :
  (0 <=? a) = true -> (0 <=? x) = true -> is_nan (a * x) = false ->
  (0 <=? a * x) = true.
Proof.
  intros Ha Hx Hn. apply nonneg_float_inv.
  apply not_nan_SF in Hn. rewrite mul_SF in *.
  destruct (SFmul_nonneg _ _ (nonneg_float _ Ha) (nonneg_float _ Hx)) as [E | N];
    [contradiction | exact N].
Qed.

Lemma mul_finite_not_nan a x :
  is_finite a = true -> is_finite x = true -> is_nan (a * x) = false.
Proof.
  rewrite !is_finite_spec. intros Fa Fx. apply not_nan_SF. rewrite mul_SF.
  pose proof (Prim2SF_valid a) as Va. pose proof (Prim2SF_valid x) as Vx.
  destruct (Prim2SF a) as [sa|sa| |sa ma ea], (Prim2SF x) as [sx|sx| |sx mx ex];
    try discriminate; try (cbn [SFmul]; discriminate).
  destruct (valid_finite _ _ _ Va) as [Ca _].
  destruct (valid_finite _ _ _ Vx) as [Cx _].
  destruct (SFmul_finite_spec ma ea mx ex Ca Cx) as (m & e & P & C & N & R).
  rewrite (R sa sx).
  destruct m as [|p|p]; try lia; cbn [pack]; try discriminate.
  destruct (e <=? _)%Z; discriminate.
Qed.

(** The product of a number that is not positive and one that is not
    negative is NaN or not positive. *)
Lemma mul_nonpos a x :
  (a <=? 0) = true -> (0 <=? x) = true -> is_nan (a * x) = false ->
  (a * x <=? 0) = true.
Proof.
  intros Ha Hx Hn. apply nonpos_float_inv.
  apply not_nan_SF in Hn. rewrite mul_SF in *.
  pose proof (Prim2SF_valid a) as Va.
  pose proof (nonpos_float _ Ha) as NA. pose proof (nonneg_float _ Hx) as NX.
  destruct NA as [sa| |ma ea]; destruct NX as [sx| |mx ex Cx Bx];
    try (cbn [SFmul xorb] in *; first [constructor | congruence]).
  destruct (valid_finite _ _ _ Va) as [Ca _].
  destruct (SFmul_finite_spec ma ea mx ex Ca Cx) as (m & e & P & C & N & R).
  rewrite (R true false). apply nonpos_pack; assumption.
Qed.

(** Scaling by a factor of at most 1. *)
Lemma mul_le_l x c :
  (0 <=? x) = true -> (0 <? c) = true -> (c <=? 1) = true ->
  (x * c <=? x) = true.
Proof.
  intros Hx Hc Hc1.
  assert (Fc : is_finite c = true).
  { rewrite is_finite_spec. rewrite leb_SF in Hc1.
    change (Prim2SF 1) with (S754_finite false 4503599627370496 (-52)) in Hc1.
    rewrite ltb_compare in Hc. change (Prim2SF 0) with (S754_zero false) in Hc.
    destruct (Prim2SF c) as [s|[]| |s m e]; try discriminate; reflexivity. }
  destruct (positive_finite c Hc Fc) as (mc & ec & Ec & Cc).
  rewrite leb_SF, mul_SF, Ec. apply SFmul_le_l.
  - apply nonneg_float, Hx.
  - exact Cc.
  - rewrite leb_SF, Ec in Hc1.
    change (Prim2SF 1) with (S754_finite false 4503599627370496 (-52)) in Hc1.
    pose proof (SFleb_pos_inv mc ec 4503599627370496 (-52) Cc eq_refl Hc1) as Hr.
    replace (F2R 4503599627370496 (-52)) with 1%R in Hr; [exact Hr|].
    unfold F2R. change 4503599627370496%Z with (2 ^ 52)%Z.
    rewrite <- bpow_IZR, <- bpow_add by lia. reflexivity.
Qed.

(** *** Addition *)

Lemma add_ge x d :
  (0 <=? x) = true -> (0 <=? d) = true -> (x <=? x + d) = true.
Proof.
  intros Hx Hd. rewrite leb_SF, add_SF.
  apply SFadd_ge; apply nonneg_float; assumption.
Qed.

Lemma add_nonneg x d :
  (0 <=? x) = true -> (0 <=? d) = true -> (0 <=? x + d) = true.
Proof.
  intros Hx Hd. apply nonneg_float_inv. rewrite add_SF.
  apply SFadd_nonneg; apply nonneg_float; assumption.
Qed.

End FloatArith.

(** ** More on the order, the extrema and the clamps *)

Module MoreOrd.

Import FloatOrd JSFacts Binary64 Round FloatArith.

Lemma ltb_of_not_leb a b :
  is_nan a = false -> is_nan b = false -> (a <=? b) = false -> (b <? a) = true.
Proof.
  to_spec. rewrite (SFcompare_antisym (Prim2SF a) (Prim2SF b)).
  destruct (Prim2SF a) as [[]|[]| |[] ? ?], (Prim2SF b) as [[]|[]| |[] ? ?];
    simpl; compare_cases.
Qed.

Lemma ltb_eqb_false a b : (a <? b) = true -> (a =? b) = false /\ (b =? a) = false.
Proof.
  to_spec. rewrite (SFcompare_antisym (Prim2SF a) (Prim2SF b)).
  destruct (SFcompare _ _) as [[]|]; simpl; try discriminate; auto.
Qed.

Lemma leb_infinity x : is_nan x = false -> (x <=? infinity) = true.
Proof.
  to_spec. change (Prim2SF infinity) with (S754_infinity false).
  destruct (Prim2SF x) as [[]|[]| |[] ? ?]; simpl; try discriminate; reflexivity.
Qed.

Lemma Math_max_lub a b z :
  (a <=? z) = true -> (b <=? z) = true -> (Math_max a b <=? z) = true.
Proof.
  intros Ha Hb.
  destruct (leb_not_nan _ _ Ha) as [Na _]. destruct (leb_not_nan _ _ Hb) as [Nb _].
  destruct (Math_max_cases a b Na Nb) as [-> | ->]; assumption.
Qed.

Lemma Math_min_glb a b z :
  (z <=? a) = true -> (z <=? b) = true -> (z <=? Math_min a b) = true.
Proof.
  intros Ha Hb.
  destruct (leb_not_nan _ _ Ha) as [_ Na]. destruct (leb_not_nan _ _ Hb) as [_ Nb].
  destruct (Math_min_cases a b Na Nb) as [-> | ->]; assumption.
Qed.

Lemma Math_max_mono_l x1 x2 c :
  is_nan c = false -> (x1 <=? x2) = true ->
  (Math_max x1 c <=? Math_max x2 c) = true.
Proof.
  intros Nc H. destruct (leb_not_nan _ _ H) as [N1 N2].
  apply Math_max_lub.
  - apply leb_trans with x2; [exact H | apply Math_max_ge_l; assumption].
  - apply Math_max_ge_r; assumption.
Qed.

Lemma Math_max_mono_r c y1 y2 :
  is_nan c = false -> (y1 <=? y2) = true ->
  (Math_max c y1 <=? Math_max c y2) = true.
Proof.
  intros Nc H. destruct (leb_not_nan _ _ H) as [N1 N2].
  apply Math_max_lub.
  - apply Math_max_ge_l; assumption.
  - apply leb_trans with y2; [exact H | apply Math_max_ge_r; assumption].
Qed.

Lemma Math_min_mono_l x1 x2 c :
  is_nan c = false -> (x1 <=? x2) = true ->
  (Math_min x1 c <=? Math_min x2 c) = true.
Proof.
  intros Nc H. destruct (leb_not_nan _ _ H) as [N1 N2].
  apply Math_min_glb.
  - apply leb_trans with x1; [apply Math_min_le_l; assumption | exact H].
  - apply Math_min_le_r; assumption.
Qed.

(** The clamp [Math.max(lo, Math.min(x, hi))] is monotone. *)
Lemma clamp_mono lo hi x1 x2 :
  is_nan lo = false -> is_nan hi = false -> (x1 <=? x2) = true ->
  (Math_max lo (Math_min x1 hi) <=? Math_max lo (Math_min x2 hi)) = true.
Proof.
  intros Nlo Nhi H.
  apply Math_max_mono_r; [exact Nlo|]. apply Math_min_mono_l; assumption.
Qed.

(** Clamping a number that is not above [lo] gives a number that is not
    above [lo]. *)
Lemma clamp_low lo hi x :
  is_nan hi = false -> (x <=? lo) = true ->
  (Math_max lo (Math_min x hi) <=? lo) = true.
Proof.
  intros Nhi H. destruct (leb_not_nan _ _ H) as [Nx Nlo].
  apply Math_max_lub; [apply leb_refl, Nlo|].
  apply leb_trans with x; [apply Math_min_le_l; assumption | exact H].
Qed.

(** The numbers that are not negative. *)
Lemma nonneg_cases b :
  (0 <=? b) = true ->
  (b =? infinity) = true
  \/ ((b =? infinity) = false
      /\ ((is_pos_zero b = true \/ is_neg_zero b = true)
          \/ (is_pos_zero b = false /\ is_neg_zero b = false
              /\ (0 <? b) = true /\ (b <? infinity) = true))).
Proof.
  intros H. pose proof (nonneg_float b H) as N.
  assert (Ep : is_pos_zero b = true <-> Prim2SF b = S754_zero false)
    by apply is_pos_zero_spec.
  assert (En : is_neg_zero b = true <-> Prim2SF b = S754_zero true)
    by apply is_neg_zero_spec.
  rewrite eqb_compare, !ltb_compare.
  change (Prim2SF infinity) with (S754_infinity false).
  change (Prim2SF 0) with (S754_zero false).
  destruct N as [[]| |m e C B].
  - right. split; [reflexivity|]. left. right. apply En. reflexivity.
  - right. split; [reflexivity|]. left. left. apply Ep. reflexivity.
  - left. reflexivity.
  - right. split; [reflexivity|]. right.
    repeat split; try reflexivity.
    + destruct (is_pos_zero b); [|reflexivity].
      destruct Ep as [Ep _]. specialize (Ep eq_refl). discriminate.
    + destruct (is_neg_zero b); [|reflexivity].
      destruct En as [En _]. specialize (En eq_refl). discriminate.
Qed.

Lemma zero_leb z x :
  is_pos_zero z = true \/ is_neg_zero z = true ->
  (0 <=? x) = true -> (0 <=? z) = true /\ (z <=? x) = true.
Proof.
  intros Hz Hx. rewrite !leb_SF in *.
  change (Prim2SF 0) with (S754_zero false) in *.
  assert (E : exists s, Prim2SF z = S754_zero s).
  { destruct Hz as [Hz|Hz]; [apply is_pos_zero_spec in Hz | apply is_neg_zero_spec in Hz];
      eauto. }
  destruct E as [s ->]. split; [reflexivity|].
  destruct (Prim2SF x) as [[]|[]| |[] ? ?]; try discriminate; reflexivity.
Qed.

Lemma leb_zero_is_zero b1 b2 :
  (0 <=? b1) = true -> (b1 <=? b2) = true ->
  is_pos_zero b2 = true \/ is_neg_zero b2 = true ->
  is_pos_zero b1 = true \/ is_neg_zero b1 = true.
Proof.
  intros H1 H12 Z2. pose proof (nonneg_float b1 H1) as N.
  rewrite leb_SF in H12.
  assert (E : exists s, Prim2SF b2 = S754_zero s).
  { destruct Z2 as [Z|Z]; [apply is_pos_zero_spec in Z | apply is_neg_zero_spec in Z];
      eauto. }
  destruct E as [s E]. rewrite E in H12.
  destruct (Prim2SF b1) as [[]|[]| |[] ? ?] eqn:E1; try discriminate H12;
    try (inversion N; fail).
  - right. apply is_neg_zero_spec, E1.
  - left. apply is_pos_zero_spec, E1.
Qed.

Lemma zero_not_infinity b :
  is_pos_zero b = true \/ is_neg_zero b = true -> (b =? infinity) = false.
Proof.
  intros Z. rewrite eqb_compare. change (Prim2SF infinity) with (S754_infinity false).
  destruct Z as [Z|Z]; [apply is_pos_zero_spec in Z | apply is_neg_zero_spec in Z];
    rewrite Z; reflexivity.
Qed.

Lemma infinity_leb_not_ltb b1 b2 :
  (b1 =? infinity) = true -> (b1 <=? b2) = true -> (b2 <? infinity) = false.
Proof.
  rewrite eqb_compare, leb_compare, ltb_compare.
  change (Prim2SF infinity) with (S754_infinity false).
  destruct (Prim2SF b1) as [[]|[]| |[] ? ?]; try discriminate;
    destruct (Prim2SF b2) as [[]|[]| |[] ? ?]; try discriminate; reflexivity.
Qed.

Lemma is_finite_not_nan x : is_finite x = true -> is_nan x = false.
Proof.
  unfold is_finite. destruct (is_nan x); [discriminate | reflexivity].
Qed.

Lemma finite_below x y :
  (0 <=? x) = true -> (x <=? y) = true -> is_finite y = true -> is_finite x = true.
Proof.
  rewrite !leb_SF, !is_finite_spec. change (Prim2SF 0) with (S754_zero false).
  destruct (Prim2SF x) as [[]|[]| |[] ? ?]; try discriminate; try reflexivity;
    destruct (Prim2SF y) as [[]|[]| |[] ? ?]; try discriminate; reflexivity.
Qed.

Lemma leb_or_ltb x y :
  is_nan x = false -> is_nan y = false -> (x <=? y) = true \/ (y <=? x) = true.
Proof.
  intros Nx Ny. destruct (x <=? y) eqn:E; [left; reflexivity|].
  right. apply ltb_leb, ltb_of_not_leb; assumption.
Qed.

Lemma div_not_nan x c :
  (0 <? c) = true -> is_finite c = true -> is_nan x = false ->
  is_nan (x / c) = false.
Proof.
  intros Hc Fc Nx.
  destruct (leb_or_ltb 0 x eq_refl Nx) as [H | H].
  - apply (leb_not_nan _ _ (div_nonneg x c Hc Fc H)).
  - apply (leb_not_nan _ _ (div_nonpos x c Hc Fc H)).
Qed.

Lemma finite_of_ltb_infinity x :
  (0 <=? x) = true -> (x <? infinity) = true -> is_finite x = true.
Proof.
  rewrite leb_SF, ltb_compare, is_finite_spec.
  change (Prim2SF 0) with (S754_zero false).
  change (Prim2SF infinity) with (S754_infinity false).
  destruct (Prim2SF x) as [[]|[]| |[] ? ?]; try discriminate; reflexivity.
Qed.

End MoreOrd.

(** ** The chamber-pressure solver *)

Section ChamberPressure.

Import FloatOrd JSFacts.

Variable approx : float -> float -> float.

(** The loop never runs more rounds than its bound. *)
Lemma pressure_loop_rounds fuel rho a n Pref cStar bA tA Pc :
  (snd (pressure_loop approx fuel rho a n Pref cStar bA tA Pc) <= fuel)%nat.
Proof.
  revert Pc. induction fuel as [|fuel IH]; intros Pc; simpl.
  - apply Nat.le_refl.
  - destruct (Math_abs _ <? 1000); simpl; [lia|].
    specialize (IH (0.7 * Pc + 0.3 * (rho * (a * Math_pow approx (Pc / Pref) n) * bA * cStar / tA))).
    destruct (pressure_loop _ _ _ _ _ _ _ _ _ _) as [Pc' k]. simpl in *. lia.
Qed.

Lemma atmospheric_in_range :
  is_finite CONSTANTS.ATMOSPHERIC_PRESSURE = true
  /\ (101325 <=? CONSTANTS.ATMOSPHERIC_PRESSURE) = true
  /\ (CONSTANTS.ATMOSPHERIC_PRESSURE <=? 15e6) = true.
Proof. repeat split. Qed.

(** C1. For every propellant and every pair of areas the solver runs at
    most 20 rounds of its fixed-point loop and returns a finite pressure
    between 101325 Pa and 15e6 Pa (so in particular when both areas are
    positive); and when [burningArea <= 0] or [throatArea <= 0] it
    returns 101325 Pa without entering the loop. *)
Theorem chamber_pressure_bounded (propellant : Propellant.t)
    (burningArea throatArea : float) :
  let (Pc, rounds) := chamberPressure_run approx burningArea throatArea propellant in
  Pc = calculateChamberPressure approx burningArea throatArea propellant
  /\ (rounds <= 20)%nat
  /\ is_finite Pc = true
  /\ (101325 <=? Pc) = true /\ (Pc <=? 15e6) = true
  /\ ((burningArea <=? 0) = true \/ (throatArea <=? 0) = true ->
      Pc = 101325 /\ rounds = 0%nat).
Proof.
  unfold calculateChamberPressure, chamberPressure_run.
  destruct (negb (truthy burningArea) || (burningArea <=? 0)) eqn:Eb.
  { simpl. repeat split; intros; try reflexivity; lia. }
  destruct (negb (truthy throatArea) || (throatArea <=? 0)) eqn:Et.
  { simpl. repeat split; intros; try reflexivity; lia. }
  apply orb_false_elim in Eb as [_ Eb]. apply orb_false_elim in Et as [_ Et].
  pose proof (pressure_loop_rounds 20 (Propellant.density propellant)
    (Propellant.burnRateCoeff propellant / 1000)
    (Propellant.burnRateExponent propellant)
    (or_else (Propellant.referencePressure propellant) 6.895 * 1e6)
    (Propellant.characteristicVelocity propellant)
    burningArea throatArea 2e6) as Hk.
  destruct (pressure_loop _ _ _ _ _ _ _ _ _ _) as [Pc k]. simpl in Hk.
  assert (Hdeg : forall P : Prop,
    (burningArea <=? 0) = true \/ (throatArea <=? 0) = true -> P).
  { intros P [H|H]; congruence. }
  destruct (negb (isFinite Pc) || isNaN Pc) eqn:Ef; simpl.
  { repeat split; try assumption; eapply Hdeg; eassumption. }
  apply orb_false_elim in Ef as [Ef En]. apply negb_false_iff in Ef.
  unfold isNaN, isFinite in *.
  destruct (clamp_bounds CONSTANTS.ATMOSPHERIC_PRESSURE 15e6 Pc En eq_refl)
    as (Hlo & Hhi & Hc).
  repeat split; try assumption; try (eapply Hdeg; eassumption).
  destruct Hc as [-> | [-> | ->]]; auto.
Qed.

End ChamberPressure.

(** ** Thrust at or below atmospheric pressure *)

Section Thrust.

Variable approx : float -> float -> float.

(** C10. Whatever gamma and the two areas are, a chamber pressure at or
    below 101325 Pa (equality included) makes
    [calculateThrustCoefficient] return 0, a value outside the interval
    from 1.0 to 2.2 of its final clamp, and makes [calculateThrust]
    return 0. *)
Theorem no_thrust_up_to_atmospheric (propellant : Propellant.t)
    (gamma exitArea throatArea chamberPressure : float) :
  (chamberPressure <=? 101325) = true ->
  let Cf := calculateThrustCoefficient approx gamma exitArea throatArea
              chamberPressure in
  Cf = 0
  /\ (1.0 <=? Cf) && (Cf <=? 2.2) = false
  /\ calculateThrust approx chamberPressure throatArea exitArea propellant = 0.
Proof.
  intros H. unfold calculateThrustCoefficient, calculateThrust.
  change CONSTANTS.ATMOSPHERIC_PRESSURE with 101325.
  rewrite H. repeat split.
Qed.

End Thrust.

(** ** The burnout step *)

Section Burnout.

Variable approx : float -> float -> float.

(** C3. In an [update] step taken while Burning, if the radius after
    the regression update leaves a web of at most 1 mm or reaches 0.98
    of the outer radius, the motor is BurnedOut after the step, thrust
    and burn rate are 0, the chamber pressure is 101325 Pa, [burnTime]
    is the time just reached, and thrust, stress, safety factor,
    impulse and history were not computed: [maxThrust], [stress],
    [safetyFactor], [totalImpulse] and [history] are those of before. *)
Theorem burnout_step (deltaTime : float) (this : MotorSimulation) :
  phase this = Burning ->
  let next := update approx deltaTime this in
  let outerRadius := Grain.outerRadius (Config.grainConfig (config this)) in
  (outerRadius - currentInnerRadius next <=? 0.001) = true
  \/ (outerRadius * 0.98 <=? currentInnerRadius next) = true ->
  phase next = BurnedOut
  /\ isBurnedOut next = true /\ isBurning next = false
  /\ thrust next = 0 /\ burnRate next = 0 /\ burnRateMmS next = 0
  /\ chamberPressure next = 101325
  /\ time next = time this + deltaTime
  /\ burnTime next = time next
  /\ maxThrust next = maxThrust this
  /\ stress next = stress this
  /\ safetyFactor next = safetyFactor this
  /\ totalImpulse next = totalImpulse this
  /\ history next = history this
  /\ hasExploded next = false /\ explosionTime next = explosionTime this.
Proof.
  unfold phase. intros Hp.
  destruct (hasExploded this) eqn:Ex; [discriminate|].
  destruct (isBurnedOut this) eqn:Bo; [discriminate|].
  destruct (isBurning this) eqn:Bu; [|discriminate].
  unfold update. rewrite Ex, Bo, Bu. cbv zeta. cbv beta iota delta [negb orb].
  destruct (burnedThrough _ _) eqn:Bt;
    cbn [currentInnerRadius isBurnedOut isBurning thrust
      burnRate burnRateMmS chamberPressure time burnTime maxThrust stress
      safetyFactor totalImpulse history hasExploded explosionTime];
    intros Hweb.
  - repeat split.
  - unfold burnedThrough in Bt. apply orb_false_elim in Bt as [B1 B2].
    destruct Hweb as [H|H]; congruence.
Qed.

End Burnout.

(** ** States that do not evolve *)

Section Inert.

Variable approx : float -> float -> float.

Lemma update_not_burning (deltaTime : float) (this : MotorSimulation) :
  phase this <> Burning -> update approx deltaTime this = this.
Proof.
  unfold phase, update. intros H.
  destruct (hasExploded this), (isBurnedOut this), (isBurning this);
    try reflexivity.
  contradiction H. reflexivity.
Qed.

Lemma ignite_terminal (this : MotorSimulation) :
  phase this = BurnedOut \/ phase this = Exploded -> ignite this = this.
Proof.
  unfold phase, ignite.
  destruct (hasExploded this), (isBurnedOut this), (isBurning this);
    intros [H|H]; try discriminate; reflexivity.
Qed.

Lemma phase_physical (a b : MotorSimulation) :
  physical a = physical b -> phase a = phase b.
Proof.
  unfold physical, phase. intros H.
  injection H as _ _ _ _ _ _ _ _ _ _ H1 H2 H3 _ _ _ _ _ _.
  rewrite H1, H2, H3. reflexivity.
Qed.

Lemma call_terminal_physical (c : Call) (this : MotorSimulation) :
  phase this = BurnedOut \/ phase this = Exploded ->
  no_reset c = true ->
  physical (call approx this c) = physical this.
Proof.
  intros Ht Hc. destruct c as [|deltaTime| |newConfig]; cbn [call].
  - rewrite ignite_terminal by exact Ht. reflexivity.
  - rewrite update_not_burning; [reflexivity|].
    destruct Ht as [-> | ->]; discriminate.
  - discriminate Hc.
  - reflexivity.
Qed.

(** C7. Outside the Burning phase [update] leaves the whole instance as
    it is, so from Idle the time of a fresh instance stays 0; and once
    BurnedOut or Exploded, [ignite] changes nothing either: no sequence
    of [ignite] and [update] calls changes the instance, and no sequence
    of calls other than [reset] changes a field other than the
    configuration or brings the motor back to Burning. *)
Theorem inert_outside_burning :
  (forall deltaTime this,
      phase this <> Burning -> update approx deltaTime this = this)
  /\ (forall deltaTime cfg,
        phase (construct cfg) = Idle
        /\ time (update approx deltaTime (construct cfg)) = 0)
  /\ (forall this,
        phase this = BurnedOut \/ phase this = Exploded ->
        ignite this = this
        /\ (forall calls,
              forallb ignite_or_update calls = true ->
              run approx calls this = this)
        /\ (forall calls,
              forallb no_reset calls = true ->
              physical (run approx calls this) = physical this
              /\ phase (run approx calls this) = phase this
              /\ phase (run approx calls this) <> Burning)).
Proof.
  split; [exact update_not_burning|]. split.
  - intros deltaTime cfg. split; [reflexivity|].
    rewrite update_not_burning; [reflexivity | discriminate].
  - intros this Ht. split; [apply ignite_terminal, Ht|]. split.
    + induction calls as [|c calls IH]; intros Hc; [reflexivity|].
      simpl in Hc. apply andb_prop in Hc as [Hc1 Hc2].
      unfold run. simpl. fold (run approx calls).
      assert (E : call approx this c = this).
      { destruct c; try discriminate; simpl.
        - apply ignite_terminal, Ht.
        - apply update_not_burning. destruct Ht as [-> | ->]; discriminate. }
      rewrite E. apply IH, Hc2.
    + assert (Hrun : forall calls that,
                 physical that = physical this ->
                 forallb no_reset calls = true ->
                 physical (run approx calls that) = physical this).
      { induction calls as [|c calls IH]; intros that Hp Hc; [exact Hp|].
        simpl in Hc. apply andb_prop in Hc as [Hc1 Hc2].
        unfold run. simpl. fold (run approx calls).
        apply IH; [|exact Hc2].
        rewrite call_terminal_physical; [exact Hp | | exact Hc1].
        rewrite (phase_physical _ _ Hp). exact Ht. }
      intros calls Hc. pose proof (Hrun calls this eq_refl Hc) as Hp.
      pose proof (phase_physical _ _ Hp) as Hph.
      split; [exact Hp|]. split; [exact Hph|].
      rewrite Hph. destruct Ht as [-> | ->]; discriminate.
Qed.

End Inert.

(** ** Changing one field of the grain *)

(** C8. [updateConfig({ grainConfig: { segments: 6 } })] sets [segments]
    to 6 and changes nothing else: propellant, material, nozzle and
    casing, the other fields of the grain, and every field of the
    simulation state are those of before. *)
Theorem updateConfig_segments_frame (this : MotorSimulation) :
  let next := updateConfig (segmentsOnly 6) this in
  let g := Config.grainConfig (config this) in
  let g' := Config.grainConfig (config next) in
  Grain.segments g' = 6
  /\ (Grain.type g' = Grain.type g
      /\ Grain.outerRadius g' = Grain.outerRadius g
      /\ Grain.coreRadius g' = Grain.coreRadius g
      /\ Grain.length g' = Grain.length g
      /\ Grain.starPoints g' = Grain.starPoints g
      /\ Grain.starInnerRadius g' = Grain.starInnerRadius g)
  /\ (Config.propellant (config next) = Config.propellant (config this)
      /\ Config.material (config next) = Config.material (config this)
      /\ Config.nozzle (config next) = Config.nozzle (config this)
      /\ Config.casing (config next) = Config.casing (config this))
  /\ (time next = time this
      /\ currentInnerRadius next = currentInnerRadius this
      /\ chamberPressure next = chamberPressure this
      /\ thrust next = thrust this
      /\ burnRate next = burnRate this
      /\ burnRateMmS next = burnRateMmS this
      /\ burningArea next = burningArea this
      /\ Kn next = Kn this
      /\ stress next = stress this
      /\ safetyFactor next = safetyFactor this)
  /\ (isBurning next = isBurning this
      /\ isBurnedOut next = isBurnedOut this
      /\ hasExploded next = hasExploded this
      /\ explosionTime next = explosionTime this
      /\ phase next = phase this)
  /\ (totalImpulse next = totalImpulse this
      /\ burnTime next = burnTime this
      /\ maxThrust next = maxThrust this
      /\ maxPressure next = maxPressure this
      /\ history next = history this).
Proof. cbn. repeat split. Qed.

(** ** History sampling *)

Section Sampling.

Variable approx : float -> float -> float.

Lemma last_entry_cons a b l : last_entry (a :: b :: l) = last_entry (b :: l).
Proof.
  unfold last_entry. cbn [List.length].
  replace (S (S (List.length l)) - 1)%nat with (S (List.length l)) by lia.
  replace (S (List.length l) - 1)%nat with (List.length l) by lia.
  reflexivity.
Qed.

Lemma spaced_push times t :
  spaced times ->
  Nat.eqb (List.length times) 0 || (0.01 <=? t - last_entry times) = true ->
  spaced (times ++ [t]).
Proof.
  induction times as [|a [|b l] IH]; intros Hs Hd.
  - exact I.
  - simpl in *. split; [exact Hd | exact I].
  - destruct Hs as [Hab Hs]. split; [exact Hab|].
    apply IH; [exact Hs|].
    rewrite last_entry_cons in Hd. exact Hd.
Qed.

Lemma update_history (deltaTime : float) (this : MotorSimulation) :
  let next := update approx deltaTime this in
  History.time (history next) = History.time (history this)
  \/ (sampleDue (history this) (time next) = true
      /\ History.time (history next)
         = History.time (history this) ++ [time next]).
Proof.
  unfold update.
  destruct (negb (isBurning this) || isBurnedOut this || hasExploded this);
    [left; reflexivity|].
  cbv zeta. destruct (burnedThrough _ _); [left; reflexivity|].
  cbn [history time].
  destruct (sampleDue (history this) (time this + deltaTime)) eqn:Hd.
  - right. split; reflexivity.
  - left. reflexivity.
Qed.

Lemma call_spaced (c : Call) (this : MotorSimulation) :
  spaced (History.time (history this)) ->
  spaced (History.time (history (call approx this c))).
Proof.
  intros Hs. destruct c as [|deltaTime| |newConfig]; simpl.
  - unfold ignite. destruct (_ && _); exact Hs.
  - destruct (update_history deltaTime this) as [E | [Hd E]]; rewrite E.
    + exact Hs.
    + apply spaced_push; [exact Hs | exact Hd].
  - exact I.
  - exact Hs.
Qed.

(** C5. Whatever calls are made on a new instance, with whatever time
    steps (steps below 10 ms included), no two consecutive entries of
    [history.time] are less than 10 ms apart. *)
Theorem history_spacing (cfg : Config.t) (calls : list Call) :
  spaced (History.time (history (run approx calls (construct cfg)))).
Proof.
  unfold run.
  assert (H0 : spaced (History.time (history (construct cfg)))) by exact I.
  revert H0. generalize (construct cfg).
  induction calls as [|c calls IH]; intros this Hs; simpl.
  - exact Hs.
  - apply IH, call_spaced, Hs.
Qed.

End Sampling.

(** ** The safety factor *)

Section SafetyFactor.

Import FloatOrd JSFacts.

Lemma float_neq_0_99 : (0 : float) <> 99.
Proof. intros H. apply (f_equal (fun x => x <? 1)) in H. discriminate H. Qed.

(** Infinite stress, the value [calculateHoopStress] gives a casing
    without wall, has safety factor 0 and not 99. *)
Lemma safety_factor_infinite_stress :
  is_finite infinity = false
  /\ calculateHoopStress 3.5e6 0.030 0 = infinity
  /\ calculateSafetyFactor infinity MATERIALS.ALUMINUM = 0
  /\ calculateSafetyFactor infinity MATERIALS.ALUMINUM <> 99.
Proof.
  repeat split. exact float_neq_0_99.
Qed.

Lemma div_nan_r x : x / nan = nan.
Proof.
  apply Prim2SF_inj. rewrite div_spec.
  change (Prim2SF nan) with S754_nan.
  destruct (Prim2SF x) as [[]|[]| |[] m e]; reflexivity.
Qed.

Lemma not_leb_nan_l x : is_nan x = true -> forall y, (x <=? y) = false.
Proof.
  intros Hn y. destruct (x <=? y) eqn:E; [|reflexivity].
  apply leb_not_nan in E as [E _]. congruence.
Qed.

Lemma is_nan_eq x : is_nan x = true -> x = nan.
Proof.
  rewrite is_nan_spec. intros H. apply Prim2SF_inj.
  change (Prim2SF nan) with S754_nan.
  destruct (Prim2SF x); try discriminate; reflexivity.
Qed.

Lemma div_infinity_zero y :
  is_finite y = true -> y / infinity = 0 \/ y / infinity = -0.
Proof.
  rewrite is_finite_spec. intros Hf.
  assert (H : Prim2SF (y / infinity) = S754_zero false
              \/ Prim2SF (y / infinity) = S754_zero true).
  { rewrite div_spec. change (Prim2SF infinity) with (S754_infinity false).
    destruct (Prim2SF y) as [[]|[]| |[] m e]; try discriminate; simpl; auto. }
  destruct H as [H|H]; [left | right]; apply Prim2SF_inj; exact H.
Qed.

(** C6, as the code has it. The safety factor is 99 when the stress is
    non-positive or NaN, and when the quotient [yieldStrength / stress]
    is not finite; otherwise it is that quotient clamped between 0 and
    99.  It always lies between 0 and 99.  For an infinite positive
    stress and a finite yield strength the quotient is zero, and the
    safety factor is 0. *)
Theorem safety_factor_cases (stress : float) (material : Material.t) :
  let sf := Material.yieldStrength material / stress in
  let result := calculateSafetyFactor stress material in
  ((stress <=? 0) = true \/ is_nan stress = true -> result = 99)
  /\ ((stress <=? 0) = false -> is_finite sf = false -> result = 99)
  /\ ((stress <=? 0) = false -> is_finite sf = true ->
      result = Math_max 0 (Math_min sf 99))
  /\ ((0 <=? result) = true /\ (result <=? 99) = true)
  /\ (stress = infinity -> is_finite (Material.yieldStrength material) = true ->
      result = 0).
Proof.
  cbv zeta. unfold calculateSafetyFactor, isFinite, isNaN.
  set (sf := Material.yieldStrength material / stress).
  repeat split.
  - intros [H|H].
    + rewrite H. reflexivity.
    + rewrite (not_leb_nan_l _ H).
      apply is_nan_eq in H. subst stress. subst sf.
      rewrite div_nan_r. reflexivity.
  - intros H1 H2. rewrite H1, H2. reflexivity.
  - intros H1 H2. rewrite H1, H2.
    assert (En : is_nan sf = false).
    { unfold is_finite in H2. destruct (is_nan sf); [discriminate | reflexivity]. }
    rewrite En. reflexivity.
  - destruct (stress <=? 0); [reflexivity|].
    destruct (negb (is_finite sf) || is_nan sf) eqn:E; [reflexivity|].
    apply orb_false_elim in E as [_ En].
    apply (clamp_bounds 0 99 sf En eq_refl).
  - destruct (stress <=? 0); [reflexivity|].
    destruct (negb (is_finite sf) || is_nan sf) eqn:E; [reflexivity|].
    apply orb_false_elim in E as [_ En].
    apply (clamp_bounds 0 99 sf En eq_refl).
  - intros -> Hy. subst sf.
    destruct (div_infinity_zero _ Hy) as [-> | ->]; reflexivity.
Qed.

End SafetyFactor.

(** ** Burn progress *)

Section BurnProgress.

Import FloatOrd JSFacts.

Lemma infinity_eq_spec x : Prim2SF x = S754_infinity false -> x = infinity.
Proof. intros H. apply Prim2SF_inj. exact H. Qed.

(** C9, as the code has it. The accessor returns 0 when the ratio is
    NaN, and otherwise the ratio clamped between 0 and 1: a ratio of
    [+Infinity] gives 1 and a ratio of [-Infinity] gives 0. *)
Theorem burn_progress_cases (this : MotorSimulation) :
  let ratio := burnedFraction this in
  let progress := Snapshot.grainBurnProgress (getState this) in
  (is_nan ratio = true -> progress = 0)
  /\ (is_nan ratio = false ->
      progress = Math_max 0 (Math_min ratio 1)
      /\ (0 <=? progress) = true /\ (progress <=? 1) = true)
  /\ (ratio = infinity -> progress = 1)
  /\ (ratio = neg_infinity -> progress = 0).
Proof.
  cbv zeta. unfold getState, burnedFraction. cbn [Snapshot.grainBurnProgress].
  set (ratio := (_ - _) / (_ - _)). unfold isNaN.
  repeat split.
  - intros Hn. rewrite (Math_min_nan ratio 1) by (rewrite Hn; reflexivity).
    reflexivity.
  - rewrite Math_max_not_nan; [reflexivity | reflexivity |].
    apply Math_min_not_nan; [assumption | reflexivity].
  - rewrite Math_max_not_nan; [| reflexivity |
      apply Math_min_not_nan; [assumption | reflexivity]].
    apply (clamp_bounds 0 1 ratio H eq_refl).
  - rewrite Math_max_not_nan; [| reflexivity |
      apply Math_min_not_nan; [assumption | reflexivity]].
    apply (clamp_bounds 0 1 ratio H eq_refl).
  - intros ->. reflexivity.
  - intros ->. reflexivity.
Qed.

(** A grain without web: after one step the ratio is [+Infinity], which
    is not finite, and the accessor returns 1 and not 0. *)
Lemma burn_progress_infinite_ratio :
  let this := run Engine.pow_series [Ignite; Update 0.01] (construct noWebConfig) in
  burnedFraction this = infinity
  /\ is_finite (burnedFraction this) = false
  /\ Snapshot.grainBurnProgress (getState this) = 1
  /\ Snapshot.grainBurnProgress (getState this) <> 0.
Proof.
  vm_compute. repeat split.
  intros H. apply (f_equal (fun x => x <? 0.5)) in H. discriminate H.
Qed.

End BurnProgress.

(** ** The burn rate *)

Section BurnRate.

Import FloatOrd JSFacts Binary64 Round FloatArith MoreOrd.

Variable approx : float -> float -> float.

Lemma Math_pow_nonneg_base b n :
  (0 <? n) = true -> (n <? infinity) = true -> (0 <=? b) = true ->
  Math_pow approx b n =
    if b =? infinity then infinity
    else if is_pos_zero b then 0
    else if is_neg_zero b then (if is_odd_integral n then -0 else 0)
    else approx b n.
Proof.
  intros Hn Hi Hb. unfold Math_pow.
  destruct (ltb_not_nan _ _ Hn) as [_ Nn]. rewrite Nn.
  destruct (ltb_eqb_false _ _ Hn) as [_ E0]. rewrite E0.
  destruct (leb_not_nan _ _ Hb) as [_ Nb]. rewrite Nb.
  rewrite Hn.
  destruct (b =? infinity); [reflexivity|].
  assert (E1 : (b =? neg_infinity) = false).
  { destruct (b =? neg_infinity) eqn:E; [|reflexivity].
    apply eqb_leb in E. pose proof (leb_trans _ _ _ Hb E) as F. discriminate F. }
  rewrite E1.
  destruct (is_pos_zero b); [reflexivity|].
  destruct (is_neg_zero b); [reflexivity|].
  destruct (ltb_eqb_false _ _ Hi) as [E2 _]. rewrite E2.
  assert (E3 : (n =? neg_infinity) = false).
  { destruct (n =? neg_infinity) eqn:E; [|reflexivity].
    apply eqb_leb in E. pose proof (ltb_leb_trans _ _ _ Hn E) as F. discriminate F. }
  rewrite E3.
  rewrite (leb_ltb_false _ _ Hb). reflexivity.
Qed.

Lemma Math_pow_mono n b1 b2 :
  (0 <? n) = true -> (n <? infinity) = true -> pow_monotone_at approx n ->
  (0 <=? b1) = true -> (b1 <=? b2) = true ->
  (0 <=? Math_pow approx b1 n) = true
  /\ (Math_pow approx b1 n <=? Math_pow approx b2 n) = true.
Proof.
  intros Hn Hi Hmono Hb1 Hb12.
  pose proof (leb_trans _ _ _ Hb1 Hb12) as Hb2.
  rewrite !Math_pow_nonneg_base by assumption.
  assert (Hz : forall z, z = 0 \/ z = (if is_odd_integral n then -0 else 0) ->
               is_pos_zero z = true \/ is_neg_zero z = true).
  { intros z [-> | ->]; [left; reflexivity|].
    destruct (is_odd_integral n); [right | left]; reflexivity. }
  assert (Hpos : forall b, (0 <? b) = true -> (b <? infinity) = true ->
                 (0 <=? approx b n) = true).
  { intros b H0 H1. destruct (ltb_not_nan _ _ H0) as [_ Nb].
    apply (Hmono b b H0 (leb_refl b Nb) H1). }
  destruct (nonneg_cases b2 Hb2) as [I2 | [I2 [Z2 | (P2 & N2 & L2 & F2)]]].
  - (* b2 infinite *)
    rewrite I2.
    destruct (nonneg_cases b1 Hb1) as [I1 | [I1 [Z1 | (P1 & N1 & L1 & F1)]]];
      rewrite I1.
    + split; reflexivity.
    + destruct Z1 as [Z1 | Z1].
      * rewrite Z1. split; reflexivity.
      * rewrite Z1. destruct (is_pos_zero b1); [split; reflexivity|].
        destruct (is_odd_integral n); split; reflexivity.
    + rewrite P1, N1. pose proof (Hpos b1 L1 F1) as H.
      split; [exact H|]. apply leb_infinity. apply (leb_not_nan _ _ H).
  - (* b2 zero: b1 is zero as well *)
    pose proof (leb_zero_is_zero b1 b2 Hb1 Hb12 Z2) as Z1.
    rewrite (zero_not_infinity b1 Z1), I2.
    set (w1 := if is_pos_zero b1 then 0 else _).
    set (w2 := if is_pos_zero b2 then 0 else _).
    assert (W1 : is_pos_zero w1 = true \/ is_neg_zero w1 = true).
    { apply Hz. subst w1. destruct (is_pos_zero b1); [left; reflexivity|].
      destruct Z1 as [Z1|Z1]; [discriminate|]. rewrite Z1. right. reflexivity. }
    assert (W2 : is_pos_zero w2 = true \/ is_neg_zero w2 = true).
    { apply Hz. subst w2. destruct (is_pos_zero b2); [left; reflexivity|].
      destruct Z2 as [Z2|Z2]; [discriminate|]. rewrite Z2. right. reflexivity. }
    destruct (zero_leb w2 0 W2 eq_refl) as [P2 _].
    destruct (zero_leb w1 w2 W1 P2) as [P1 L12].
    split; assumption.
  - (* b2 positive and finite *)
    rewrite I2, P2, N2.
    pose proof (Hpos b2 L2 F2) as W2.
    destruct (nonneg_cases b1 Hb1) as [I1 | [I1 [Z1 | (P1 & N1 & L1 & F1)]]].
    + exfalso. pose proof (infinity_leb_not_ltb b1 b2 I1 Hb12). congruence.
    + rewrite I1.
      set (w1 := if is_pos_zero b1 then 0 else _).
      assert (W1 : is_pos_zero w1 = true \/ is_neg_zero w1 = true).
      { apply Hz. subst w1. destruct (is_pos_zero b1); [left; reflexivity|].
        destruct Z1 as [Z1|Z1]; [discriminate|]. rewrite Z1. right. reflexivity. }
      apply (zero_leb w1 _ W1 W2).
    + rewrite I1, P1, N1. apply Hmono; assumption.
Qed.

Lemma burn_rate_range pressure propellant :
  (0 <=? calculateBurnRate approx pressure propellant) = true
  /\ (calculateBurnRate approx pressure propellant <=? 0.030) = true.
Proof.
  unfold calculateBurnRate, isFinite, isNaN.
  destruct (negb (is_finite _) || is_nan _) eqn:E; [split; reflexivity|].
  apply orb_false_elim in E as [_ En].
  destruct (clamp_bounds 0 0.030 _ En eq_refl) as (H1 & H2 & _). auto.
Qed.

Lemma burn_rate_not_finite pressure propellant :
  is_finite (rate_m_s approx pressure propellant) = false ->
  calculateBurnRate approx pressure propellant = 0.
Proof.
  intros H. unfold calculateBurnRate, isFinite. rewrite H. reflexivity.
Qed.

Lemma burn_rate_finite pressure propellant :
  is_finite (rate_m_s approx pressure propellant) = true ->
  calculateBurnRate approx pressure propellant
  = Math_max 0 (Math_min (rate_m_s approx pressure propellant) 0.030).
Proof.
  intros H. unfold calculateBurnRate, isFinite, isNaN.
  rewrite H, (is_finite_not_nan _ H). reflexivity.
Qed.

(** The pressure in MPa, floored at 0.1, does not decrease with the
    pressure. *)
Lemma P_MPa_mono p1 p2 :
  (p1 <=? p2) = true ->
  (0.1 <=? Math_max (p1 / 1e6) 0.1) = true
  /\ (Math_max (p1 / 1e6) 0.1 <=? Math_max (p2 / 1e6) 0.1) = true.
Proof.
  intros H. destruct (leb_not_nan _ _ H) as [N1 N2].
  pose proof (div_not_nan p1 1e6 eq_refl eq_refl N1) as D1.
  pose proof (div_not_nan p2 1e6 eq_refl eq_refl N2) as D2.
  pose proof (Math_max_ge_r (p2 / 1e6) 0.1 D2 eq_refl) as G2.
  split; [apply Math_max_ge_r; [exact D1 | reflexivity]|].
  apply Math_max_lub; [|exact G2].
  destruct (leb_or_ltb 0 p1 eq_refl N1) as [P | P].
  - apply leb_trans with (p2 / 1e6).
    + apply div_mono; try reflexivity; assumption.
    + apply Math_max_ge_l; [exact D2 | reflexivity].
  - apply leb_trans with 0.1; [|exact G2].
    apply leb_trans with 0; [|reflexivity].
    apply div_nonpos; try reflexivity; assumption.
Qed.

(** C4, as the code has it. The burn rate always lies between 0 and
    0.030 m/s, and it is 0 when the unclamped rate is not finite.  For a
    propellant with a finite positive exponent and a finite positive
    reference pressure, and an engine whose [Math.pow] does not decrease
    in its base, the burn rate does not decrease from a pressure to a
    higher one at which the unclamped rate is finite. *)
Theorem burn_rate_monotone_while_finite (propellant : Propellant.t) :
  (forall pressure,
      (0 <=? calculateBurnRate approx pressure propellant) = true
      /\ (calculateBurnRate approx pressure propellant <=? 0.030) = true
      /\ (is_finite (rate_m_s approx pressure propellant) = false ->
          calculateBurnRate approx pressure propellant = 0))
  /\ (let n := Propellant.burnRateExponent propellant in
      let Pref := or_else (Propellant.referencePressure propellant) 6.895 in
      (0 <? n) = true -> (n <? infinity) = true ->
      (0 <? Pref) = true -> (Pref <? infinity) = true ->
      pow_monotone_at approx n ->
      forall p1 p2,
        (p1 <=? p2) = true ->
        is_finite (rate_m_s approx p2 propellant) = true ->
        (calculateBurnRate approx p1 propellant
         <=? calculateBurnRate approx p2 propellant) = true).
Proof.
  split.
  { intros pressure. destruct (burn_rate_range pressure propellant) as [H1 H2].
    repeat split; try assumption. apply burn_rate_not_finite. }
  cbv zeta. intros Hn Hi HP HPf Hmono p1 p2 Hp F2.
  set (Pref := or_else (Propellant.referencePressure propellant) 6.895) in *.
  set (n := Propellant.burnRateExponent propellant) in *.
  set (a := Propellant.burnRateCoeff propellant) in *.
  assert (FP : is_finite Pref = true)
    by (apply finite_of_ltb_infinity; [apply ltb_leb, HP | exact HPf]).
  destruct (burn_rate_range p2 propellant) as [R2 _].
  destruct (is_finite (rate_m_s approx p1 propellant)) eqn:F1;
    [| rewrite (burn_rate_not_finite _ _ F1); exact R2].
  rewrite (burn_rate_finite _ _ F1), (burn_rate_finite _ _ F2) in *.
  unfold rate_m_s in *. fold Pref n a in F1, F2 |- *.
  (* the pressures in MPa, then the bases of the power *)
  destruct (P_MPa_mono p1 p2 Hp) as [M1 M12].
  set (m1 := Math_max (p1 / 1e6) 0.1) in *.
  set (m2 := Math_max (p2 / 1e6) 0.1) in *.
  assert (M0 : (0 <=? m1) = true) by (apply leb_trans with 0.1; [reflexivity | exact M1]).
  pose proof (div_mono m1 m2 Pref HP FP M0 M12) as B12.
  pose proof (div_nonneg m1 Pref HP FP M0) as B0.
  destruct (Math_pow_mono n _ _ Hn Hi Hmono B0 B12) as [W0 W12].
  set (w1 := Math_pow approx (m1 / Pref) n) in *.
  set (w2 := Math_pow approx (m2 / Pref) n) in *.
  (* the rates in mm/s *)
  pose proof (div_is_finite_inv _ 1000 eq_refl eq_refl F2) as Q2.
  destruct (mul_is_finite_inv _ _ Q2) as [Fa Fw2].
  pose proof (finite_below _ _ W0 W12 Fw2) as Fw1.
  pose proof (mul_finite_not_nan a w1 Fa Fw1) as Nq1.
  destruct (leb_or_ltb 0 a eq_refl (is_finite_not_nan _ Fa)) as [A | A].
  - pose proof (mul_mono a w1 w2 A W0 W12 Q2) as Q12.
    pose proof (mul_nonneg a w1 A W0 Nq1) as Q0.
    apply clamp_mono; try reflexivity.
    apply div_mono; try reflexivity; assumption.
  - pose proof (mul_nonpos a w1 A W0 Nq1) as Q1.
    pose proof (div_nonpos _ 1000 eq_refl eq_refl Q1) as R1.
    apply leb_trans with 0; [|exact R2].
    apply clamp_low; [reflexivity | exact R1].
Qed.

End BurnRate.

(** ** The radius *)

Lemma Phase_eq_dec (p q : Phase) : {p = q} + {p <> q}.
Proof. decide equality. Defined.

Section Radius.

Import FloatOrd JSFacts Binary64 Round FloatArith MoreOrd.

Variable approx : float -> float -> float.

(** What an [update] step does to the radius while Burning: it adds the
    regression, the product of a burn rate between 0 and 0.030 and the
    time step, and the motor is burned out after the step exactly when
    the burnout test holds of the new radius. *)
Lemma update_radius (deltaTime : float) (this : MotorSimulation) :
  phase this = Burning ->
  let next := update approx deltaTime this in
  config next = config this
  /\ isBurnedOut next
     = burnedThrough (Config.grainConfig (config this)) (currentInnerRadius next)
  /\ exists rate,
       (0 <=? rate) = true /\ (rate <=? 0.030) = true
       /\ currentInnerRadius next = currentInnerRadius this + rate * deltaTime.
Proof.
  unfold phase. intros Hp.
  destruct (hasExploded this) eqn:Ex; [discriminate|].
  destruct (isBurnedOut this) eqn:Bo; [discriminate|].
  destruct (isBurning this) eqn:Bu; [|discriminate].
  unfold update. rewrite Ex, Bo, Bu. cbv zeta. cbv beta iota delta [negb orb].
  destruct (burnedThrough _ _) eqn:Bt;
    cbn [config isBurnedOut currentInnerRadius]; rewrite Bt;
    (split; [reflexivity|]); (split; [reflexivity|]);
    eexists; (split; [|split; [|reflexivity]]); apply burn_rate_range.
Qed.

Lemma regression_nonneg rate deltaTime :
  (0 <=? rate) = true -> (rate <=? 0.030) = true ->
  (0 <? deltaTime) = true -> (deltaTime <? infinity) = true ->
  (0 <=? rate * deltaTime) = true.
Proof.
  intros R0 R1 D0 D1.
  pose proof (ltb_leb _ _ D0) as D0'.
  apply mul_nonneg; [exact R0 | exact D0' |].
  apply mul_finite_not_nan.
  - apply (finite_below _ _ R0 R1). reflexivity.
  - apply finite_of_ltb_infinity; assumption.
Qed.

Lemma update_radius_inv cfg deltaTime this :
  (0 <=? Grain.coreRadius (Config.grainConfig cfg)) = true ->
  (Grain.coreRadius (Config.grainConfig cfg)
   <=? Grain.outerRadius (Config.grainConfig cfg)) = true ->
  (0 <? deltaTime) = true -> (deltaTime <? infinity) = true ->
  radius_inv cfg this -> radius_inv cfg (update approx deltaTime this).
Proof.
  intros C0 CO D0 D1 (Hc & Hlo & Hhi).
  destruct (Phase_eq_dec (phase this) Burning) as [Hp | Hp].
  2:{ rewrite update_not_burning by exact Hp. repeat split; assumption. }
  destruct (update_radius deltaTime this Hp) as (Ec & Eb & rate & R0 & R1 & Er).
  set (next := update approx deltaTime this) in *.
  set (g := Config.grainConfig cfg) in *.
  pose proof (regression_nonneg rate deltaTime R0 R1 D0 D1) as Hd.
  pose proof (leb_trans _ _ _ C0 Hlo) as Hr0.
  pose proof (add_ge _ _ Hr0 Hd) as Hge. rewrite <- Er in Hge.
  pose proof (leb_trans _ _ _ Hlo Hge) as Hlo'.
  split; [congruence|]. split; [exact Hlo'|].
  intros Hb. rewrite Eb, Hc in Hb. fold g in Hb.
  unfold burnedThrough in Hb. apply orb_false_elim in Hb as [_ Hb].
  pose proof (leb_trans _ _ _ C0 CO) as O0.
  pose proof (mul_le_l (Grain.outerRadius g) 0.98 O0 eq_refl eq_refl) as H98.
  destruct (leb_not_nan _ _ H98) as [N98 _].
  destruct (leb_not_nan _ _ Hlo') as [_ Nr].
  pose proof (ltb_of_not_leb _ _ N98 Nr Hb) as L.
  apply leb_trans with (Grain.outerRadius g * 0.98); [apply ltb_leb, L | exact H98].
Qed.

Lemma call_radius_inv cfg c this :
  (0 <=? Grain.coreRadius (Config.grainConfig cfg)) = true ->
  (Grain.coreRadius (Config.grainConfig cfg)
   <=? Grain.outerRadius (Config.grainConfig cfg)) = true ->
  stepping_call c = true ->
  radius_inv cfg this -> radius_inv cfg (call approx this c).
Proof.
  intros C0 CO Hc Hinv. destruct c as [|deltaTime| |newConfig]; cbn [call].
  - destruct Hinv as (H1 & H2 & H3). unfold ignite.
    destruct (_ && _); repeat split; assumption.
  - simpl in Hc. apply andb_prop in Hc as [D0 D1].
    apply update_radius_inv; assumption.
  - destruct Hinv as (H1 & _ & _). unfold radius_inv, reset.
    cbn [config currentInnerRadius isBurnedOut]. rewrite H1.
    split; [reflexivity|]. split; [|intros _; exact CO].
    apply leb_refl. apply (leb_not_nan _ _ CO).
  - discriminate Hc.
Qed.

(** C2, as the code has it. Take a configuration with
    [0 <= coreRadius <= outerRadius].  In every state reached from a new
    instance by [ignite()], [reset()] and [update(dt)] with finite
    [dt > 0], the radius is at least the core radius; and it is at most
    the outer radius in every such state that is not burned out. *)
Theorem radius_within_web_until_burnout (cfg : Config.t) (calls : list Call) :
  let g := Config.grainConfig cfg in
  (0 <=? Grain.coreRadius g) = true ->
  (Grain.coreRadius g <=? Grain.outerRadius g) = true ->
  forallb stepping_call calls = true ->
  let this := run approx calls (construct cfg) in
  (Grain.coreRadius g <=? currentInnerRadius this) = true
  /\ (isBurnedOut this = false ->
      (currentInnerRadius this <=? Grain.outerRadius g) = true).
Proof.
  cbv zeta. intros C0 CO Hcalls.
  assert (H0 : radius_inv cfg (construct cfg)).
  { unfold radius_inv, construct, reset. cbn [config currentInnerRadius isBurnedOut].
    split; [reflexivity|]. split; [|intros _; exact CO].
    apply leb_refl. apply (leb_not_nan _ _ CO). }
  assert (H : radius_inv cfg (run approx calls (construct cfg))).
  { unfold run. revert H0. generalize (construct cfg).
    induction calls as [|c calls IH]; intros this Hinv; [exact Hinv|].
    simpl in Hcalls. apply andb_prop in Hcalls as [Hc Hcs].
    cbn [fold_left]. apply IH; [exact Hcs|].
    apply call_radius_inv; assumption. }
  destruct H as (_ & H1 & H2). split; assumption.
Qed.

End Radius.

(** ** Instances on concrete inputs *)

Lemma chamber_pressure_bounded_witness :
  (-1 <=? 0) = true
  /\ calculateChamberPressure Engine.pow_series (-1) 6.4e-5 PROPELLANTS.KNSB = 101325.
Proof.
  split; [reflexivity|].
  pose proof (chamber_pressure_bounded Engine.pow_series PROPELLANTS.KNSB (-1) 6.4e-5) as H.
  destruct (chamberPressure_run Engine.pow_series (-1) 6.4e-5 PROPELLANTS.KNSB)
    as [Pc rounds].
  destruct H as (E & _ & _ & _ & _ & Hd).
  rewrite <- E. apply Hd. left. reflexivity.
Defined.

(** The solver on the fresh default grain: the loop uses its 20 rounds
    and the pressure is inside the clamp range. *)
Lemma chamber_pressure_default_grain :
  let burningArea :=
    calculateBurningArea (Config.grainConfig defaultConfig) 0.0095 in
  let throatArea := calculateThroatArea 0.009 in
  let (Pc, rounds) :=
    chamberPressure_run Engine.pow_series burningArea throatArea
      PROPELLANTS.KNSB in
  rounds = 20%nat /\ (3.5e6 <? Pc) = true /\ (Pc <? 3.6e6) = true.
Proof. vm_compute. repeat split. Qed.

Lemma burnout_step_witness :
  let this := ignite (construct defaultConfig) in
  let next := update Engine.pow_series 10 this in
  phase this = Burning
  /\ (0.0285 - currentInnerRadius next <=? 0.001) = true
  /\ phase next = BurnedOut /\ thrust next = 0 /\ burnTime next = 10
  /\ history next = History.empty.
Proof.
  cbv zeta.
  assert (Hp : phase (ignite (construct defaultConfig)) = Burning) by reflexivity.
  assert (Hw : (0.0285 - currentInnerRadius
                  (update Engine.pow_series 10 (ignite (construct defaultConfig)))
                <=? 0.001) = true) by (vm_compute; reflexivity).
  destruct (burnout_step Engine.pow_series 10 (ignite (construct defaultConfig))
              Hp (or_introl Hw))
    as (H1 & _ & _ & H2 & _ & _ & _ & H3 & H4 & _ & _ & _ & _ & H5 & _).
  split; [exact Hp|]. split; [exact Hw|]. split; [exact H1|].
  split; [exact H2|]. split; [rewrite H4, H3; reflexivity|].
  rewrite H5. reflexivity.
Defined.

Lemma inert_outside_burning_witness :
  let this := run Engine.pow_series [Ignite; Update 10] (construct defaultConfig) in
  phase this = BurnedOut
  /\ run Engine.pow_series [Ignite; Update 0.01; Update 0.01; Ignite] this = this.
Proof.
  cbv zeta.
  assert (Hp : phase (run Engine.pow_series [Ignite; Update 10]
                        (construct defaultConfig)) = BurnedOut)
    by (vm_compute; reflexivity).
  split; [exact Hp|].
  destruct (inert_outside_burning Engine.pow_series) as (_ & _ & H).
  destruct (H _ (or_introl Hp)) as (_ & Hr & _).
  apply (Hr [Ignite; Update 0.01; Update 0.01; Ignite] eq_refl).
Defined.

Lemma safety_factor_cases_witness :
  (-5 <=? 0) = true /\ calculateSafetyFactor (-5) MATERIALS.STEEL = 99.
Proof.
  split; [reflexivity|].
  destruct (safety_factor_cases (-5) MATERIALS.STEEL) as (H & _).
  apply H. left. reflexivity.
Defined.

Lemma burn_progress_cases_witness :
  let this := run Engine.pow_series [Ignite; Update 0.01] (construct noWebConfig) in
  burnedFraction this = infinity
  /\ Snapshot.grainBurnProgress (getState this) = 1.
Proof.
  cbv zeta.
  assert (Hr : burnedFraction
                 (run Engine.pow_series [Ignite; Update 0.01] (construct noWebConfig))
               = infinity) by (vm_compute; reflexivity).
  split; [exact Hr|].
  destruct (burn_progress_cases
              (run Engine.pow_series [Ignite; Update 0.01] (construct noWebConfig)))
    as (_ & _ & H & _).
  apply H, Hr.
Defined.

Lemma no_thrust_up_to_atmospheric_witness :
  (101325 <=? 101325) = true
  /\ calculateThrustCoefficient Engine.pow_series 1.133 2.5e-4 6.4e-5 101325 = 0
  /\ calculateThrust Engine.pow_series 101325 6.4e-5 2.5e-4 PROPELLANTS.KNSB = 0.
Proof.
  split; [reflexivity|].
  destruct (no_thrust_up_to_atmospheric Engine.pow_series PROPELLANTS.KNSB 1.133 2.5e-4 6.4e-5
              101325 eq_refl) as (H1 & _ & H2).
  split; [exact H1 | exact H2].
Defined.

(** With the default configuration a single step of 10 s burns the web
    through and leaves the radius far above the outer radius. *)
Lemma radius_overshoots_outer_radius :
  let this := run Engine.pow_series [Ignite; Update 10] (construct defaultConfig) in
  let g := Config.grainConfig (config this) in
  forallb stepping_call [Ignite; Update 10] = true
  /\ isBurnedOut this = true
  /\ (Grain.outerRadius g <? currentInnerRadius this) = true
  /\ (currentInnerRadius this <=? Grain.outerRadius g) = false.
Proof. vm_compute. repeat split. Qed.

Lemma radius_within_web_until_burnout_witness :
  let this :=
    run Engine.pow_series [Ignite; Update 0.01; Update 0.01]
      (construct defaultConfig) in
  (0.0095 <=? currentInnerRadius this) = true
  /\ (currentInnerRadius this <=? 0.0285) = true.
Proof.
  cbv zeta.
  destruct (radius_within_web_until_burnout Engine.pow_series defaultConfig
              [Ignite; Update 0.01; Update 0.01] eq_refl eq_refl eq_refl)
    as [H1 H2].
  split; [exact H1|]. apply H2. vm_compute. reflexivity.
Defined.

(** Whatever the engine, an infinite pressure gives KNSB an infinite
    unclamped rate, which the guard maps to 0. *)
Lemma burn_rate_at_infinite_pressure (approx : float -> float -> float) :
  rate_m_s approx infinity PROPELLANTS.KNSB = infinity
  /\ calculateBurnRate approx infinity PROPELLANTS.KNSB = 0.
Proof. vm_compute. split; reflexivity. Qed.

(** The burn rate of KNSB is positive at 1 MPa and 0 at an infinite
    pressure: it decreases. *)
Lemma burn_rate_drops_at_infinite_pressure :
  (0 <? Propellant.burnRateExponent PROPELLANTS.KNSB) = true
  /\ (1e6 <=? infinity) = true
  /\ calculateBurnRate Engine.pow_series infinity PROPELLANTS.KNSB = 0
  /\ (calculateBurnRate Engine.pow_series infinity PROPELLANTS.KNSB
      <? calculateBurnRate Engine.pow_series 1e6 PROPELLANTS.KNSB) = true
  /\ (calculateBurnRate Engine.pow_series 1e6 PROPELLANTS.KNSB
      <=? calculateBurnRate Engine.pow_series infinity PROPELLANTS.KNSB) = false.
Proof. vm_compute. repeat split. Qed.

(** The same between two finite pressures, for a propellant whose rate
    overflows. *)
Lemma burn_rate_drops_at_overflow :
  (0 <? Propellant.burnRateExponent overflowingPropellant) = true
  /\ (1e6 <=? 1e7) = true
  /\ calculateBurnRate Engine.pow_series 1e6 overflowingPropellant = 0.030
  /\ is_finite (rate_m_s Engine.pow_series 1e7 overflowingPropellant) = false
  /\ calculateBurnRate Engine.pow_series 1e7 overflowingPropellant = 0.
Proof. vm_compute. repeat split. Qed.

(** At exponent 1 the engine returns the base, which does not decrease
    with the base. *)
Lemma pow_series_monotone_at_1 : pow_monotone_at Engine.pow_series 1.
Proof.
  intros b1 b2 H0 H12 Hf.
  change (Engine.pow_series b1 1) with b1.
  change (Engine.pow_series b2 1) with b2.
  split; [apply FloatOrd.ltb_leb, H0 | exact H12].
Qed.

Lemma burn_rate_monotone_while_finite_witness :
  (1e6 <=? 2e6) = true
  /\ is_finite (rate_m_s Engine.pow_series 2e6 linearPropellant) = true
  /\ (calculateBurnRate Engine.pow_series 1e6 linearPropellant
      <=? calculateBurnRate Engine.pow_series 2e6 linearPropellant) = true.
Proof.
  assert (F : is_finite (rate_m_s Engine.pow_series 2e6 linearPropellant) = true)
    by (vm_compute; reflexivity).
  split; [reflexivity|]. split; [exact F|].
  destruct (burn_rate_monotone_while_finite Engine.pow_series linearPropellant)
    as [_ H].
  exact (H eq_refl eq_refl eq_refl eq_refl pow_series_monotone_at_1
           1e6 2e6 eq_refl F).
Defined.

(** * Further properties of the engine *)

(** ** More facts about binary64 arithmetic *)

Module FloatMore.

Import Reals Lra FloatOrd JSFacts Binary64 Round FloatArith MoreOrd.

Local Open Scope float_scope.

Lemma SFmul_comm X Y : SFmul prec emax X Y = SFmul prec emax Y X.
Proof.
  destruct X as [sx|sx| |sx mx ex], Y as [sy|sy| |sy my ey]; cbn [SFmul];
    rewrite ?(xorb_comm sx sy); try reflexivity.
  rewrite (Pos.mul_comm mx my), (Z.add_comm ex ey). reflexivity.
Qed.

Lemma mul_comm x y : x * y = y * x.
Proof. apply Prim2SF_inj. rewrite !mul_SF. apply SFmul_comm. Qed.

(** Two numbers that compare equal are the same number, unless they are
    zeros of different signs. *)
Lemma SFcompare_Eq_pos X Y :
  SFcompare X Y = Some Eq -> SFltb (S754_zero false) X = true -> X = Y.
Proof.
  unfold SFltb.
  destruct X as [sx|[]| |[] mx ex], Y as [sy|[]| |[] my ey]; simpl;
    try discriminate; try reflexivity.
  destruct (Z.compare_spec ex ey); try discriminate.
  change (Pos.compare_cont Eq mx my) with (Pos.compare mx my).
  destruct (Pos.compare_spec mx my); try discriminate.
  intros _ _. subst. reflexivity.
Qed.

Lemma leb_antisym_pos a b :
  (a <=? b) = true -> (b <=? a) = true -> (0 <? a) = true -> a = b.
Proof.
  intros H1 H2 H0. apply Prim2SF_inj.
  apply SFcompare_Eq_pos.
  - rewrite leb_compare in H1, H2.
    rewrite (SFcompare_antisym (Prim2SF a) (Prim2SF b)) in H2.
    destruct (SFcompare (Prim2SF a) (Prim2SF b)) as [[]|];
      simpl in *; try discriminate; reflexivity.
  - rewrite ltb_spec in H0. exact H0.
Qed.

Lemma ltb_not_leb x y : (x <? y) = true -> (y <=? x) = false.
Proof.
  intros H. destruct (y <=? x) eqn:E; [|reflexivity].
  rewrite (leb_ltb_false _ _ E) in H. discriminate H.
Qed.

(** [Math.max] returns its second argument when it is positive and not
    below the first. *)
Lemma Math_max_eq_r a c :
  (a <=? c) = true -> (0 <? c) = true -> Math_max a c = c.
Proof.
  intros H H0. destruct (leb_not_nan _ _ H) as [Na Nc].
  rewrite Math_max_eq by assumption. unfold max_step.
  destruct (is_pos_zero c && is_neg_zero a); [reflexivity|].
  destruct (a <? c) eqn:L; [reflexivity|].
  symmetry. apply leb_antisym_pos; [|exact H|exact H0].
  apply leb_total; assumption.
Qed.

(** [Math.min] returns its second argument when it is not above the
    first and the first is positive. *)
Lemma Math_min_eq_r x hi :
  (hi <=? x) = true -> (0 <? x) = true -> Math_min x hi = hi.
Proof.
  intros H H0. destruct (leb_not_nan _ _ H) as [Nh Nx].
  rewrite Math_min_eq by assumption. unfold min_step.
  destruct (is_neg_zero hi && is_pos_zero x); [reflexivity|].
  destruct (hi <? x) eqn:L; [reflexivity|].
  apply leb_antisym_pos; [|exact H|exact H0].
  apply leb_total; assumption.
Qed.

(** [Math.max(0, t)] for a finite [t]. *)
Lemma Math_max_0_finite t :
  is_finite t = true ->
  is_finite (Math_max 0 t) = true /\ (0 <=? Math_max 0 t) = true
  /\ (t <=? Math_max 0 t) = true.
Proof.
  intros Ft. pose proof (is_finite_not_nan _ Ft) as Nt.
  split; [|split].
  - destruct (Math_max_cases 0 t eq_refl Nt) as [-> | ->]; [reflexivity | exact Ft].
  - apply Math_max_ge_l; [reflexivity | exact Nt].
  - apply Math_max_ge_r; [reflexivity | exact Nt].
Qed.

Lemma div_finite_args x y :
  is_finite (x / y) = true -> is_nan x = false /\ is_nan y = false.
Proof.
  rewrite is_finite_spec, !is_nan_spec, div_SF.
  destruct (Prim2SF x) as [sx|sx| |sx mx ex], (Prim2SF y) as [sy|sy| |sy my ey];
    simpl; intros H; try discriminate H; split; reflexivity.
Qed.

Lemma abs_ltb_finite x c : (abs x <? c) = true -> is_finite x = true.
Proof.
  rewrite ltb_spec, is_finite_spec, abs_spec.
  destruct (Prim2SF x) as [s|s| |s m e]; try reflexivity; simpl;
    destruct (Prim2SF c) as [sc|[]| |[] mc ec]; intros H; discriminate H.
Qed.

Lemma sub_finite_args a b :
  is_finite (a - b) = true -> is_finite a = true /\ is_finite b = true.
Proof.
  rewrite !is_finite_spec, sub_spec.
  destruct (Prim2SF a) as [sa|sa| |sa ma ea], (Prim2SF b) as [sb|sb| |sb mb eb];
    try (intros _; split; reflexivity); simpl; try (intros H; discriminate H).
  destruct sa, sb; intros H; discriminate H.
Qed.

Lemma infinity_div_zero y :
  is_finite y = true -> y / infinity = 0 \/ y / infinity = -0.
Proof.
  rewrite is_finite_spec. intros Hf.
  assert (H : Prim2SF (y / infinity) = S754_zero false
              \/ Prim2SF (y / infinity) = S754_zero true).
  { rewrite div_SF. change (Prim2SF infinity) with (S754_infinity false).
    destruct (Prim2SF y) as [[]|[]| |[] m e]; try discriminate; simpl; auto. }
  destruct H as [H|H]; [left | right]; apply Prim2SF_inj; exact H.
Qed.

End FloatMore.

Module RoundMore.

Import Reals Lra FloatOrd JSFacts Binary64 Round FloatArith MoreOrd.

Local Open Scope Z_scope.

Lemma F2R_one : F2R 4503599627370496 (-52) = 1%R.
Proof.
  unfold F2R. change 4503599627370496%Z with (2 ^ 52)%Z.
  rewrite <- bpow_IZR, <- bpow_add by lia. reflexivity.
Qed.

Lemma one_SF : Prim2SF 1 = S754_finite false 4503599627370496 (-52).
Proof. reflexivity. Qed.

(** Multiplying by a factor of at least 1 does not decrease a number
    that is not negative. *)
Lemma SFmul_ge_l X mc ec :
  nonneg X -> canonical_mantissa prec emax mc ec = true ->
  (1 <= F2R (Zpos mc) ec)%R ->
  SFleb X (SFmul prec emax X (S754_finite false mc ec)) = true.
Proof.
  intros [sx| |mx ex Cx Bx] Cc Hc; try reflexivity.
  destruct (SFmul_finite_spec mx ex mc ec Cx Cc) as (m & e & P & C & N & R).
  rewrite R. cbn [xorb]. rewrite <- (pack_finite false mx ex Bx).
  apply pack_le; auto; [lia|].
  change (F2R (Zpos mx) ex) with (SF2R (S754_finite false mx ex)).
  refine (nearest_lower (S754_finite false mx ex) _ _ Cx _ N).
  cbn [SF2R cond_Zopp]. pose proof (F2R_pos mx ex). nra.
Qed.

(** The quotient of a number by one that is not smaller is at most 1. *)
Lemma SFdiv_le_one X my ey :
  nonneg X -> canonical_mantissa prec emax my ey = true ->
  SFleb X (S754_finite false my ey) = true ->
  SFleb (SFdiv prec emax X (S754_finite false my ey))
        (S754_finite false 4503599627370496 (-52)) = true.
Proof.
  intros [sx| |mx ex Cx Bx] Cy Hle; try discriminate Hle.
  - destruct sx; reflexivity.
  - destruct (SFdiv_finite_spec mx ex my ey) as (m & e & P & C & N & R).
    rewrite R. cbn [xorb].
    change (S754_finite false 4503599627370496 (-52))
      with (pack false 4503599627370496 (-52)).
    apply pack_le; [exact P | lia | exact C | right; reflexivity |].
    change (F2R 4503599627370496 (-52))
      with (SF2R (S754_finite false 4503599627370496 (-52))).
    refine (nearest_upper (S754_finite false 4503599627370496 (-52)) _ _ _ _ N);
      [reflexivity|].
    cbn [SF2R cond_Zopp]. rewrite F2R_one.
    pose proof (SFleb_pos_inv mx ex my ey Cx Cy Hle) as Hr.
    pose proof (F2R_pos my ey) as Hy.
    apply (Rmult_le_reg_r (F2R (Zpos my) ey)); [exact Hy|].
    unfold Rdiv. rewrite Rmult_assoc, Rinv_l by lra. lra.
Qed.

(** The quotient of a number by one that is not larger is at least 1. *)
Lemma SFdiv_ge_one mx ex my ey :
  canonical_mantissa prec emax mx ex = true ->
  canonical_mantissa prec emax my ey = true ->
  SFleb (S754_finite false my ey) (S754_finite false mx ex) = true ->
  SFleb (S754_finite false 4503599627370496 (-52))
        (SFdiv prec emax (S754_finite false mx ex) (S754_finite false my ey)) = true.
Proof.
  intros Cx Cy Hle.
  destruct (SFdiv_finite_spec mx ex my ey) as (m & e & P & C & N & R).
  rewrite R. cbn [xorb].
  change (S754_finite false 4503599627370496 (-52))
    with (pack false 4503599627370496 (-52)).
  apply pack_le; [lia | exact P | right; reflexivity | exact C |].
  change (F2R 4503599627370496 (-52))
    with (SF2R (S754_finite false 4503599627370496 (-52))).
  refine (nearest_lower (S754_finite false 4503599627370496 (-52)) _ _ _ _ N);
    [reflexivity|].
  cbn [SF2R cond_Zopp]. rewrite F2R_one.
  pose proof (SFleb_pos_inv my ey mx ex Cy Cx Hle) as Hr.
  pose proof (F2R_pos my ey) as Hy.
  apply (Rmult_le_reg_r (F2R (Zpos my) ey)); [exact Hy|].
  unfold Rdiv. rewrite Rmult_assoc, Rinv_l by lra. lra.
Qed.

End RoundMore.

Module FloatBounds.

Import Reals Lra FloatOrd JSFacts Binary64 Round FloatArith MoreOrd FloatMore
  RoundMore.

Local Open Scope float_scope.

Lemma one_leb_finite c :
  (1 <=? c) = true -> is_finite c = true ->
  exists m e, Prim2SF c = S754_finite false m e
              /\ canonical_mantissa prec emax m e = true
              /\ (1 <= F2R (Zpos m) e)%R.
Proof.
  intros H1 Fc.
  assert (H0 : (0 <? c) = true) by (apply ltb_leb_trans with 1; [reflexivity | exact H1]).
  destruct (positive_finite c H0 Fc) as (m & e & E & C).
  exists m, e. split; [exact E|]. split; [exact C|].
  rewrite leb_SF, E, one_SF in H1.
  rewrite <- F2R_one. apply SFleb_pos_inv; [reflexivity | exact C | exact H1].
Qed.

(** Scaling by a finite factor of at least 1. *)
Lemma mul_ge_l x c :
  (0 <=? x) = true -> (1 <=? c) = true -> is_finite c = true ->
  (x <=? x * c) = true.
Proof.
  intros Hx H1 Fc.
  destruct (one_leb_finite c H1 Fc) as (m & e & E & C & Hr).
  rewrite leb_SF, mul_SF, E.
  apply SFmul_ge_l; [apply nonneg_float, Hx | exact C | exact Hr].
Qed.

Lemma div_le_one x y :
  (0 <=? x) = true -> (x <=? y) = true ->
  (0 <? y) = true -> is_finite y = true ->
  (x / y <=? 1) = true.
Proof.
  intros Hx Hxy Hy Fy.
  destruct (positive_finite y Hy Fy) as (m & e & E & C).
  rewrite leb_SF, div_SF, E, one_SF. apply SFdiv_le_one.
  - apply nonneg_float, Hx.
  - exact C.
  - rewrite <- E, <- leb_SF. exact Hxy.
Qed.

Lemma div_ge_one x y :
  (0 <? y) = true -> (y <=? x) = true -> is_finite (x / y) = true ->
  (1 <=? x / y) = true.
Proof.
  intros Hy Hyx Fq.
  pose proof (Prim2SF_valid x) as Vx. pose proof (Prim2SF_valid y) as Vy.
  rewrite is_finite_spec, div_SF in Fq.
  rewrite leb_SF, div_SF, one_SF.
  rewrite ltb_compare in Hy. change (Prim2SF 0) with (S754_zero false) in Hy.
  rewrite leb_SF in Hyx.
  destruct (Prim2SF y) as [sy|[]| |[] my ey]; try discriminate Hy;
    destruct (Prim2SF x) as [sx|[]| |[] mx ex]; try discriminate Hyx;
    try discriminate Fq.
  destruct (valid_finite _ _ _ Vx) as [Cx _].
  destruct (valid_finite _ _ _ Vy) as [Cy _].
  apply SFdiv_ge_one; assumption.
Qed.

(** The burn rate in mm/s. *)
Lemma mm_per_s_range rate :
  (0 <=? rate) = true -> (rate <=? 0.030) = true ->
  (0 <=? rate * 1000) = true /\ (rate * 1000 <=? 30) = true.
Proof.
  intros R0 R1. rewrite (mul_comm _ 1000). split.
  - apply mul_nonneg; [reflexivity | exact R0 |].
    apply mul_finite_not_nan; [reflexivity|].
    apply (finite_below _ 0.030 R0 R1). reflexivity.
  - change 30 with (1000 * 0.030).
    apply mul_mono; try reflexivity; assumption.
Qed.

End FloatBounds.

(** ** Thrust coefficient and thrust *)

Section ThrustRange.

Import FloatOrd JSFacts FloatArith MoreOrd FloatMore FloatBounds.

Variable approx : float -> float -> float.

Lemma thrust_coefficient_bounds gamma exitArea throatArea chamberPressure :
  (chamberPressure <=? 101325) = false ->
  let Cf := calculateThrustCoefficient approx gamma exitArea throatArea
              chamberPressure in
  (1 <=? Cf) = true /\ (Cf <=? 2.2) = true.
Proof.
  intros H. unfold calculateThrustCoefficient.
  change CONSTANTS.ATMOSPHERIC_PRESSURE with 101325. rewrite H. cbv zeta.
  set (raw := Math_sqrt _).
  destruct (negb (isFinite raw) || isNaN raw) eqn:E.
  - split; reflexivity.
  - apply orb_false_elim in E as [_ En]. unfold isNaN in En.
    destruct (clamp_bounds 1 2.2 raw En eq_refl) as (H1 & H2 & _).
    split; assumption.
Qed.

(** X1. Whenever the test [Pc <= 101325] fails (a NaN pressure
    included), whatever gamma, the areas and the value of [Math.pow]
    are, [calculateThrustCoefficient] returns a finite number between
    1.0 and 2.2. *)
Theorem thrust_coefficient_range gamma exitArea throatArea chamberPressure :
  (chamberPressure <=? 101325) = false ->
  let Cf := calculateThrustCoefficient approx gamma exitArea throatArea
              chamberPressure in
  (1 <=? Cf) = true /\ (Cf <=? 2.2) = true /\ is_finite Cf = true.
Proof.
  intros H Cf.
  destruct (thrust_coefficient_bounds gamma exitArea throatArea chamberPressure H)
    as [H1 H2].
  fold Cf in H1, H2. split; [exact H1|]. split; [exact H2|].
  apply (finite_below Cf 2.2); [|exact H2|reflexivity].
  apply leb_trans with 1; [reflexivity | exact H1].
Qed.

Lemma calculateThrust_finite_nonneg (propellant : Propellant.t)
    (chamberPressure throatArea exitArea : float) :
  let F := calculateThrust approx chamberPressure throatArea exitArea propellant in
  is_finite F = true /\ (0 <=? F) = true.
Proof.
  cbv zeta. unfold calculateThrust.
  destruct (chamberPressure <=? CONSTANTS.ATMOSPHERIC_PRESSURE); [split; reflexivity|].
  destruct (throatArea <=? 0); [split; reflexivity|].
  cbv zeta. set (thrust := _ * chamberPressure * throatArea).
  destruct (negb (isFinite thrust) || isNaN thrust) eqn:G; [split; reflexivity|].
  apply orb_false_elim in G as [G _]. apply negb_false_iff in G.
  destruct (Math_max_0_finite thrust G) as (M1 & M2 & _). split; assumption.
Qed.

(** X2. [calculateThrust] always returns a finite number that is not
    negative, and 0 when the pressure is at most 101325 Pa or the throat
    area is not positive.  Above atmospheric pressure, with a positive
    throat area and a finite product [2.2 * Pc * At], the thrust lies
    between [Pc * At] and [2.2 * Pc * At]. *)
Theorem thrust_finite_bounded (propellant : Propellant.t)
    (chamberPressure throatArea exitArea : float) :
  let F := calculateThrust approx chamberPressure throatArea exitArea propellant in
  is_finite F = true /\ (0 <=? F) = true
  /\ ((chamberPressure <=? 101325) = true \/ (throatArea <=? 0) = true -> F = 0)
  /\ ((101325 <? chamberPressure) = true -> (0 <? throatArea) = true ->
      is_finite (2.2 * chamberPressure * throatArea) = true ->
      (chamberPressure * throatArea <=? F) = true
      /\ (F <=? 2.2 * chamberPressure * throatArea) = true).
Proof.
  cbv zeta. unfold calculateThrust.
  change CONSTANTS.ATMOSPHERIC_PRESSURE with 101325.
  destruct (chamberPressure <=? 101325) eqn:E1.
  { split; [reflexivity|]. split; [reflexivity|]. split; [reflexivity|].
    intros P. rewrite (ltb_not_leb _ _ P) in E1. discriminate E1. }
  destruct (throatArea <=? 0) eqn:E2.
  { split; [reflexivity|]. split; [reflexivity|]. split; [reflexivity|].
    intros _ A. rewrite (ltb_not_leb _ _ A) in E2. discriminate E2. }
  cbv zeta.
  destruct (thrust_coefficient_bounds (Propellant.gamma propellant) exitArea
              throatArea chamberPressure E1) as [C1 C2].
  set (Cf := calculateThrustCoefficient approx (Propellant.gamma propellant)
               exitArea throatArea chamberPressure) in *.
  assert (C0 : (0 <=? Cf) = true) by (apply leb_trans with 1; [reflexivity | exact C1]).
  assert (FC : is_finite Cf = true) by (apply (finite_below Cf 2.2); auto).
  assert (Hb : (101325 <? chamberPressure) = true -> (0 <? throatArea) = true ->
               is_finite (2.2 * chamberPressure * throatArea) = true ->
               is_finite (Cf * chamberPressure * throatArea) = true
               /\ (chamberPressure * throatArea <=? Cf * chamberPressure * throatArea) = true
               /\ (Cf * chamberPressure * throatArea
                   <=? 2.2 * chamberPressure * throatArea) = true).
  { intros P A Fb.
    destruct (mul_is_finite_inv _ _ Fb) as [Fb1 FA].
    destruct (mul_is_finite_inv _ _ Fb1) as [_ FP].
    assert (P0 : (0 <=? chamberPressure) = true).
    { apply leb_trans with 101325; [reflexivity | apply ltb_leb, P]. }
    pose proof (ltb_leb _ _ A) as A0.
    assert (L1 : (Cf * chamberPressure <=? 2.2 * chamberPressure) = true).
    { rewrite (mul_comm Cf), (mul_comm 2.2).
      apply mul_mono; try assumption. rewrite mul_comm. exact Fb1. }
    assert (N1 : (0 <=? Cf * chamberPressure) = true).
    { apply mul_nonneg; try assumption. apply mul_finite_not_nan; assumption. }
    assert (L2 : (Cf * chamberPressure * throatArea
                  <=? 2.2 * chamberPressure * throatArea) = true).
    { rewrite (mul_comm (Cf * chamberPressure)), (mul_comm (2.2 * chamberPressure)).
      apply mul_mono; try assumption. rewrite mul_comm. exact Fb. }
    assert (F1 : is_finite (Cf * chamberPressure) = true)
      by (apply (finite_below _ _ N1 L1 Fb1)).
    assert (N2 : (0 <=? Cf * chamberPressure * throatArea) = true).
    { apply mul_nonneg; try assumption. apply mul_finite_not_nan; assumption. }
    assert (F2 : is_finite (Cf * chamberPressure * throatArea) = true)
      by (apply (finite_below _ _ N2 L2 Fb)).
    split; [exact F2|]. split; [|exact L2].
    rewrite (mul_comm chamberPressure throatArea), (mul_comm (Cf * chamberPressure)).
    apply mul_mono; try assumption.
    - rewrite (mul_comm Cf). apply mul_ge_l; assumption.
    - rewrite mul_comm. exact F2. }
  set (thrust := Cf * chamberPressure * throatArea) in *.
  destruct (negb (isFinite thrust) || isNaN thrust) eqn:G.
  - split; [reflexivity|]. split; [reflexivity|]. split; [reflexivity|].
    intros P A Fb. destruct (Hb P A Fb) as (F2 & _).
    unfold isFinite in G. rewrite F2 in G. simpl in G.
    unfold isNaN in G. rewrite (is_finite_not_nan _ F2) in G. discriminate G.
  - apply orb_false_elim in G as [G _]. apply negb_false_iff in G.
    unfold isFinite in G.
    destruct (Math_max_0_finite thrust G) as (M1 & M2 & M3).
    split; [exact M1|]. split; [exact M2|].
    split; [intros [H|H]; discriminate H|].
    intros P A Fb. destruct (Hb P A Fb) as (_ & L & U). split.
    + apply leb_trans with thrust; assumption.
    + apply Math_max_lub; [|exact U].
      apply leb_trans with thrust; [|exact U].
      apply leb_trans with (chamberPressure * throatArea); [|exact L].
      apply mul_nonneg.
      * apply leb_trans with 101325; [reflexivity | apply ltb_leb, P].
      * apply ltb_leb, A.
      * destruct (leb_not_nan _ _ L) as [N _]. exact N.
Qed.

End ThrustRange.

(** ** Hoop stress, yielding and the safety factor *)

Section Failure.

Import FloatOrd JSFacts FloatArith MoreOrd FloatMore FloatBounds.

(** X3. [calculateHoopStress] never returns NaN or a negative number:
    it is [+Infinity] when the test [wallThickness <= 0] holds, and
    finite when it fails. *)
Theorem hoop_stress_cases (pressure innerRadius wallThickness : float) :
  let s := calculateHoopStress pressure innerRadius wallThickness in
  is_nan s = false /\ (0 <=? s) = true
  /\ ((wallThickness <=? 0) = true -> s = infinity)
  /\ ((wallThickness <=? 0) = false -> is_finite s = true).
Proof.
  cbv zeta. unfold calculateHoopStress.
  destruct (wallThickness <=? 0) eqn:E.
  { repeat split; intros; try reflexivity; discriminate. }
  cbv zeta. set (stress := pressure * innerRadius / wallThickness).
  destruct (negb (isFinite stress) || isNaN stress) eqn:G.
  { repeat split; intros; try reflexivity; discriminate. }
  apply orb_false_elim in G as [G _]. apply negb_false_iff in G.
  unfold isFinite in G.
  destruct (Math_max_0_finite stress G) as (M1 & M2 & M3).
  split; [apply is_finite_not_nan, M1|]. split; [exact M2|].
  split; [intros H; discriminate H | intros _; exact M1].
Qed.

(** X4. How [checkForFailure] and [calculateSafetyFactor] agree.  For a
    material whose yield strength is at most its ultimate strength a
    catastrophic failure is also a yielding one.  When the material
    yields and its yield strength is not negative, the safety factor is
    at most 1; and a safety factor below 1 is only reported when the
    material yields. *)
Theorem yielding_and_safety_factor (stress : float) (material : Material.t) :
  let f := checkForFailure stress material in
  let sf := calculateSafetyFactor stress material in
  ((Material.yieldStrength material <=? Material.ultimateStrength material) = true ->
   catastrophic f = true -> yielding f = true)
  /\ ((0 <=? Material.yieldStrength material) = true ->
      yielding f = true -> (sf <=? 1) = true)
  /\ ((sf <? 1) = true -> yielding f = true).
Proof.
  cbv zeta. unfold checkForFailure. cbn [catastrophic yielding].
  set (Y := Material.yieldStrength material).
  set (U := Material.ultimateStrength material).
  split; [|split].
  - intros HYU HU. apply leb_ltb_trans with U; assumption.
  - intros HY0 HYs.
    assert (S0 : (0 <? stress) = true) by (apply leb_ltb_trans with Y; assumption).
    destruct (ltb_not_nan _ _ HYs) as [NY NS].
    assert (FY : is_finite Y = true).
    { apply finite_of_ltb_infinity; [exact HY0|].
      apply ltb_leb_trans with stress; [exact HYs | apply leb_infinity, NS]. }
    unfold calculateSafetyFactor. fold Y.
    rewrite (ltb_not_leb _ _ S0). cbv zeta.
    destruct (stress <? infinity) eqn:SI.
    + assert (FS : is_finite stress = true)
        by (apply finite_of_ltb_infinity; [apply ltb_leb, S0 | exact SI]).
      pose proof (div_le_one Y stress HY0 (ltb_leb _ _ HYs) S0 FS) as Q1.
      pose proof (div_nonneg Y stress S0 FS HY0) as Q0.
      assert (FQ : is_finite (Y / stress) = true)
        by (apply (finite_below _ 1 Q0 Q1); reflexivity).
      unfold isFinite, isNaN. rewrite FQ, (is_finite_not_nan _ FQ). simpl.
      apply Math_max_lub; [reflexivity|].
      apply leb_trans with (Y / stress); [|exact Q1].
      apply Math_min_le_l; [apply is_finite_not_nan, FQ | reflexivity].
    + rewrite (infinity_greatest stress NS SI).
      destruct (infinity_div_zero Y FY) as [-> | ->]; reflexivity.
  - unfold calculateSafetyFactor. fold Y.
    destruct (stress <=? 0) eqn:S0; [intros H; discriminate H|].
    cbv zeta. set (q := Y / stress).
    destruct (negb (isFinite q) || isNaN q) eqn:G; [intros H; discriminate H|].
    apply orb_false_elim in G as [G _]. apply negb_false_iff in G.
    unfold isFinite in G. pose proof (is_finite_not_nan _ G) as Nq.
    intros Hsf. destruct (Y <? stress) eqn:E; [reflexivity|].
    destruct (div_finite_args _ _ G) as [NY NS].
    pose proof (leb_total _ _ NY NS E) as HsY.
    pose proof (ltb_of_not_leb stress 0 NS eq_refl S0) as Sp.
    pose proof (div_ge_one Y stress Sp HsY G) as Q1. fold q in Q1.
    assert (L : (1 <=? Math_max 0 (Math_min q 99)) = true).
    { apply leb_trans with (Math_min q 99).
      - apply Math_min_glb; [exact Q1 | reflexivity].
      - apply Math_max_ge_r; [reflexivity|].
        apply Math_min_not_nan; [exact Nq | reflexivity]. }
    rewrite (leb_ltb_false _ _ L) in Hsf. discriminate Hsf.
Qed.

End Failure.

(** ** The burning area *)

Section BurningArea.

Import FloatOrd JSFacts FloatArith MoreOrd FloatMore FloatBounds.

Lemma clamped_radius_low r hi :
  (r <=? 0.001) = true ->
  Math_min (Math_max r 0.001) hi = Math_min (Math_max 0.001 0.001) hi.
Proof.
  intros H. rewrite (Math_max_eq_r r 0.001 H eq_refl). reflexivity.
Qed.

Lemma clamped_radius_high r hi :
  (hi <=? r) = true -> Math_min (Math_max r 0.001) hi = hi.
Proof.
  intros H. destruct (leb_not_nan _ _ H) as [Nh Nr].
  pose proof (Math_max_ge_l r 0.001 Nr eq_refl) as G1.
  pose proof (Math_max_ge_r r 0.001 Nr eq_refl) as G2.
  apply Math_min_eq_r.
  - apply leb_trans with r; assumption.
  - apply ltb_leb_trans with 0.001; [reflexivity | exact G2].
Qed.

Lemma burning_area_of_clamped g r1 r2 :
  Math_min (Math_max r1 0.001) (Grain.outerRadius g * 0.99)
  = Math_min (Math_max r2 0.001) (Grain.outerRadius g * 0.99) ->
  calculateBurningArea g r1 = calculateBurningArea g r2.
Proof. unfold calculateBurningArea. cbv zeta. intros ->. reflexivity. Qed.

(** X5. The burning area saturates at both ends of the clamp of the
    radius: every radius of at most 1 mm (a negative one, [-Infinity])
    gives the area of 1 mm, and every radius from 99 % of the outer
    radius on (past the outer radius, [+Infinity]) gives the area of
    99 % of the outer radius. *)
Theorem burning_area_saturates (grainConfig : Grain.t) (currentInnerRadius : float) :
  let top := Grain.outerRadius grainConfig * 0.99 in
  ((currentInnerRadius <=? 0.001) = true ->
   calculateBurningArea grainConfig currentInnerRadius
   = calculateBurningArea grainConfig 0.001)
  /\ ((top <=? currentInnerRadius) = true ->
      calculateBurningArea grainConfig currentInnerRadius
      = calculateBurningArea grainConfig top).
Proof.
  cbv zeta. split; intros H; apply burning_area_of_clamped.
  - apply clamped_radius_low, H.
  - rewrite (clamped_radius_high _ _ H).
    symmetry. apply clamped_radius_high.
    apply leb_refl. apply (leb_not_nan _ _ H).
Qed.

(** X6. Only the grain types [bates] and [star] have an area formula
    of their own: every other type, the declared [finocyl] included,
    gets the area of a cylindrical grain, and a star grain gets 2.5
    times that area. *)
Theorem burning_area_by_type (grainConfig : Grain.t) (currentInnerRadius : float) :
  let cylindrical :=
    calculateBurningArea (withType GRAIN_TYPES.CYLINDRICAL grainConfig)
      currentInnerRadius in
  (String.eqb (Grain.type grainConfig) GRAIN_TYPES.BATES = false ->
   String.eqb (Grain.type grainConfig) GRAIN_TYPES.STAR = false ->
   calculateBurningArea grainConfig currentInnerRadius = cylindrical)
  /\ calculateBurningArea (withType GRAIN_TYPES.FINOCYL grainConfig)
       currentInnerRadius = cylindrical
  /\ calculateBurningArea (withType GRAIN_TYPES.STAR grainConfig)
       currentInnerRadius = cylindrical * 2.5.
Proof.
  cbv zeta. split; [|split; reflexivity].
  intros HB HS. unfold calculateBurningArea. cbv zeta. rewrite HB, HS.
  cbn [withType Grain.type Grain.outerRadius Grain.segments Grain.length].
  destruct (String.eqb (Grain.type grainConfig) GRAIN_TYPES.CYLINDRICAL);
    reflexivity.
Qed.

End BurningArea.

(** ** The floor of the burn rate and the stop of the solver *)

Section BurnRateFloor.

Import FloatOrd JSFacts FloatArith MoreOrd FloatMore FloatBounds.

Variable approx : float -> float -> float.

Lemma P_MPa_floor pressure :
  (pressure <=? 1e5) = true -> Math_max (pressure / 1e6) 0.1 = 0.1.
Proof.
  intros H. destruct (leb_not_nan _ _ H) as [Np _].
  apply Math_max_eq_r; [|reflexivity].
  destruct (leb_or_ltb 0 pressure eq_refl Np) as [P | P].
  - change 0.1 with (1e5 / 1e6).
    apply div_mono; try reflexivity; assumption.
  - apply leb_trans with 0; [|reflexivity].
    apply div_nonpos; try reflexivity; assumption.
Qed.

(** X7. Below 0.1 MPa the burn rate does not depend on the pressure:
    every pressure of at most 100000 Pa (zero, a negative one,
    [-Infinity]) gives the burn rate of 100000 Pa. *)
Theorem burn_rate_floor (pressure : float) (propellant : Propellant.t) :
  (pressure <=? 1e5) = true ->
  calculateBurnRate approx pressure propellant
  = calculateBurnRate approx 1e5 propellant.
Proof.
  intros H. unfold calculateBurnRate, rate_m_s. cbv zeta.
  rewrite (P_MPa_floor pressure H), (P_MPa_floor 1e5 eq_refl). reflexivity.
Qed.

(** A loop that ran fewer rounds than its bound left through [break]:
    its estimate passed the convergence test. *)
Lemma pressure_loop_stop fuel rho a n Pref cStar bA tA Pc0 :
  let r := pressure_loop approx fuel rho a n Pref cStar bA tA Pc0 in
  (snd r < fuel)%nat ->
  (Math_abs (pressureEstimate approx rho a n Pref cStar bA tA (fst r) - fst r)
   <? 1000) = true.
Proof.
  cbv zeta. revert Pc0. induction fuel as [|fuel IH]; intros Pc0; simpl.
  - lia.
  - fold (pressureEstimate approx rho a n Pref cStar bA tA Pc0).
    destruct (Math_abs (pressureEstimate approx rho a n Pref cStar bA tA Pc0 - Pc0)
              <? 1000) eqn:E.
    + simpl. intros _. exact E.
    + specialize (IH (0.7 * Pc0 + 0.3 * pressureEstimate approx rho a n Pref cStar bA tA Pc0)).
      destruct (pressure_loop _ _ _ _ _ _ _ _ _ _) as [Pc' k]. simpl in *.
      intros H. apply IH. lia.
Qed.

(** X8. When the solver enters its loop and leaves it before the 20th
    round, the pressure it returns is the clamp to [101325, 15e6] of a
    finite estimate [Pc] whose next estimate differs from it by less
    than 1000 Pa; the estimate returned is [Pc], not the next one. *)
Theorem solver_early_stop (propellant : Propellant.t)
    (burningArea throatArea : float) :
  let rho := Propellant.density propellant in
  let a_m_s := Propellant.burnRateCoeff propellant / 1000 in
  let n := Propellant.burnRateExponent propellant in
  let Pref := or_else (Propellant.referencePressure propellant) 6.895 * 1e6 in
  let cStar := Propellant.characteristicVelocity propellant in
  let result := chamberPressure_run approx burningArea throatArea propellant in
  (0 < snd result < 20)%nat ->
  exists Pc,
    is_finite Pc = true
    /\ (Math_abs (pressureEstimate approx rho a_m_s n Pref cStar burningArea
                    throatArea Pc - Pc) <? 1000) = true
    /\ fst result = Math_max 101325 (Math_min Pc 15e6).
Proof.
  cbv zeta. unfold chamberPressure_run.
  destruct (negb (truthy burningArea) || (burningArea <=? 0)); [simpl; lia|].
  destruct (negb (truthy throatArea) || (throatArea <=? 0)); [simpl; lia|].
  cbv zeta.
  pose proof (pressure_loop_stop 20 (Propellant.density propellant)
    (Propellant.burnRateCoeff propellant / 1000)
    (Propellant.burnRateExponent propellant)
    (or_else (Propellant.referencePressure propellant) 6.895 * 1e6)
    (Propellant.characteristicVelocity propellant)
    burningArea throatArea 2e6) as Hstop.
  cbv zeta in Hstop.
  destruct (pressure_loop _ _ _ _ _ _ _ _ _ _) as [Pc k]. cbn [fst snd] in Hstop.
  assert (Hk : (snd (if negb (isFinite Pc) || isNaN Pc
                     then (CONSTANTS.ATMOSPHERIC_PRESSURE, k)
                     else (Math_max CONSTANTS.ATMOSPHERIC_PRESSURE
                             (Math_min Pc 15e6), k)) = k)).
  { destruct (_ || _); reflexivity. }
  rewrite Hk. intros [_ Hlt]. specialize (Hstop Hlt).
  exists Pc.
  assert (Fp : is_finite Pc = true).
  { apply abs_ltb_finite in Hstop. apply sub_finite_args in Hstop. apply Hstop. }
  split; [exact Fp|]. split; [exact Hstop|].
  unfold isFinite, isNaN. rewrite Fp, (is_finite_not_nan _ Fp). reflexivity.
Qed.

End BurnRateFloor.

(** ** Sequences of calls *)

Section Runs.

Variable approx : float -> float -> float.

(** A property that every permitted call keeps holds after a run of
    permitted calls. *)
Lemma run_invariant (P : MotorSimulation -> Prop) (ok : Call -> bool) :
  (forall c this, ok c = true -> P this -> P (call approx this c)) ->
  forall calls this,
    forallb ok calls = true -> P this -> P (run approx calls this).
Proof.
  intros Hstep. induction calls as [|c calls IH]; intros this H H0; [exact H0|].
  simpl in H. apply andb_prop in H as [H1 H2].
  change (run approx (c :: calls) this) with (run approx calls (call approx this c)).
  apply IH; [exact H2|]. apply Hstep; assumption.
Qed.

Lemma forallb_any (calls : list Call) : forallb (fun _ => true) calls = true.
Proof. induction calls; [reflexivity | assumption]. Qed.

Lemma call_config (c : Call) (this : MotorSimulation) :
  keeps_config c = true -> config (call approx this c) = config this.
Proof.
  destruct c as [|deltaTime| |newConfig]; cbn [call keeps_config]; intros H.
  - unfold ignite. destruct (_ && _); reflexivity.
  - unfold update. destruct (_ || _); [reflexivity|].
    cbv zeta. destruct (burnedThrough _ _); reflexivity.
  - reflexivity.
  - discriminate H.
Qed.

Lemma stepping_keeps_config (c : Call) :
  stepping_call c = true -> keeps_config c = true.
Proof. destruct c; try reflexivity. intros H; discriminate H. Qed.

(** X9. [reset()] undoes every sequence of [ignite], [update] and
    [reset] calls: the instance is again the newly constructed one, with
    its configuration, time 0 and empty history. *)
Theorem reset_restores (cfg : Config.t) (calls : list Call) :
  forallb keeps_config calls = true ->
  reset (run approx calls (construct cfg)) = construct cfg.
Proof.
  intros H. unfold reset at 1.
  assert (E : config (run approx calls (construct cfg)) = cfg).
  { apply (run_invariant (fun s => config s = cfg) keeps_config);
      [| exact H | reflexivity].
    intros c s Hc Hs. rewrite (call_config c s Hc). exact Hs. }
  rewrite E. reflexivity.
Qed.

End Runs.

(** ** Configuration updates *)

Section ConfigUpdates.

Lemma spread_idem {A : Type} (old : A) (p : option A) :
  spread (spread old p) p = spread old p.
Proof. destruct p; reflexivity. Qed.

Lemma mergeConfig_idem (old : Config.t) (p : ConfigPatch.t) :
  mergeConfig (mergeConfig old p) p = mergeConfig old p.
Proof.
  unfold mergeConfig.
  destruct p as [[pr|] [ma|] [g|] [n|] [c|]];
    cbn [ConfigPatch.propellant ConfigPatch.material ConfigPatch.grainConfig
         ConfigPatch.nozzle ConfigPatch.casing Config.propellant Config.material
         Config.grainConfig Config.nozzle Config.casing];
    unfold spreadGrain, spreadNozzle, spreadCasing;
    cbn [Grain.type Grain.outerRadius Grain.coreRadius Grain.length Grain.segments
         Grain.starPoints Grain.starInnerRadius Nozzle.throatDiameter
         Nozzle.exitDiameter Nozzle.efficiency Casing.innerRadius
         Casing.wallThickness];
    rewrite ?spread_idem; reflexivity.
Qed.

(** X10. [updateConfig], for every argument: it changes no field of the
    instance but the configuration; with an empty object it changes
    nothing at all; applying the same argument twice is applying it
    once; and since the radius is not touched, a new core radius only
    becomes the current radius at the next [reset()]. *)
Theorem updateConfig_merges (newConfig : ConfigPatch.t) (this : MotorSimulation) :
  physical (updateConfig newConfig this) = physical this
  /\ updateConfig ConfigPatch.none this = this
  /\ updateConfig newConfig (updateConfig newConfig this)
     = updateConfig newConfig this
  /\ currentInnerRadius (updateConfig newConfig this) = currentInnerRadius this
  /\ currentInnerRadius (reset (updateConfig newConfig this))
     = Grain.coreRadius (Config.grainConfig (mergeConfig (config this) newConfig)).
Proof.
  split; [reflexivity|]. split; [|split; [|split; reflexivity]].
  - destruct this as [[pr ma g n c] ? ? ? ? ? ? ? ? ? ? ? ? ? ? ? ? ? ? ?].
    reflexivity.
  - unfold updateConfig.
    cbn [config time currentInnerRadius chamberPressure thrust burnRate
         burnRateMmS burningArea Kn stress safetyFactor isBurning isBurnedOut
         hasExploded explosionTime history totalImpulse burnTime maxThrust
         maxPressure].
    rewrite mergeConfig_idem. reflexivity.
Qed.

End ConfigUpdates.

(** ** The lifecycle *)

Section Lifecycle.

Variable approx : float -> float -> float.

Lemma update_phase_burning (deltaTime : float) (this : MotorSimulation) :
  phase this = Burning ->
  phase (update approx deltaTime this) <> Idle.
Proof.
  unfold phase. intros Hp.
  destruct (hasExploded this) eqn:Ex; [discriminate|].
  destruct (isBurnedOut this) eqn:Bo; [discriminate|].
  destruct (isBurning this) eqn:Bu; [|discriminate].
  unfold update. rewrite Ex, Bo, Bu. cbv zeta. cbv beta iota delta [negb orb].
  destruct (burnedThrough _ _);
    cbn [hasExploded isBurnedOut isBurning]; [discriminate|].
  destruct (catastrophic _); discriminate.
Qed.

(** X11. Every call moves the phase along the lifecycle only: [reset]
    leads to Idle from anywhere, [ignite] leads from Idle to Burning and
    changes no other phase, [update] leads from Burning to Burning,
    BurnedOut or Exploded and changes no other phase, and
    [updateConfig] changes no phase.  So no call leads out of BurnedOut
    or Exploded but [reset], and none leads from one of them to the
    other. *)
Theorem lifecycle_transitions (c : Call) (this : MotorSimulation) :
  lifecycle c (phase this) (phase (call approx this c)) = true.
Proof.
  destruct c as [|deltaTime| |newConfig]; cbn [call].
  - unfold phase, ignite.
    destruct (hasExploded this) eqn:Ex, (isBurnedOut this) eqn:Bo,
      (isBurning this) eqn:Bu; cbn; rewrite ?Ex, ?Bo, ?Bu; reflexivity.
  - destruct (Phase_eq_dec (phase this) Burning) as [Hp | Hp].
    + pose proof (update_phase_burning deltaTime this Hp) as Hn.
      rewrite Hp. destruct (phase (update approx deltaTime this));
        [exfalso; apply Hn; reflexivity | reflexivity..].
    + rewrite (update_not_burning approx deltaTime this Hp).
      destruct (phase this); reflexivity.
  - destruct (phase this); reflexivity.
  - change (phase (updateConfig newConfig this)) with (phase this).
    destruct (phase this); reflexivity.
Qed.

Lemma call_terminal_records (c : Call) (this : MotorSimulation) :
  terminal_records this -> terminal_records (call approx this c).
Proof.
  intros (H1 & H2 & H3 & H4).
  destruct c as [|deltaTime| |newConfig]; cbn [call].
  - unfold ignite.
    destruct (negb (isBurnedOut this) && negb (hasExploded this)) eqn:G;
      [|repeat split; try apply H1; try apply H2; try apply H3; try apply H4;
          assumption].
    apply andb_prop in G as [Bo Ex].
    apply negb_true_iff in Bo. apply negb_true_iff in Ex.
    unfold terminal_records.
    cbn [isBurnedOut hasExploded isBurning explosionTime burnTime time thrust
         burnRate burnRateMmS chamberPressure].
    split; [intros H; congruence|]. split; [exact H2|].
    split; [intros H; congruence | exact H4].
  - destruct (Phase_eq_dec (phase this) Burning) as [Hp | Hp].
    2:{ rewrite (update_not_burning approx deltaTime this Hp).
        repeat split; try apply H1; try apply H2; try apply H3; try apply H4;
          assumption. }
    unfold phase in Hp.
    destruct (hasExploded this) eqn:Ex; [discriminate|].
    destruct (isBurnedOut this) eqn:Bo; [discriminate|].
    destruct (isBurning this) eqn:Bu; [|discriminate].
    unfold update. rewrite Ex, Bo, Bu. cbv zeta. cbv beta iota delta [negb orb].
    unfold terminal_records.
    destruct (burnedThrough _ _);
      cbn [isBurnedOut hasExploded isBurning explosionTime burnTime time thrust
           burnRate burnRateMmS chamberPressure].
    + split; [intros _; repeat split|].
      split; [intros H; discriminate H|].
      split; [intros H; discriminate H | intros _; apply H4; reflexivity].
    + split; [intros H; discriminate H|].
      split; [intros _; apply H2; reflexivity|].
      destruct (catastrophic _).
      * split; [intros _; split; reflexivity | intros H; discriminate H].
      * split; [intros H; discriminate H | intros _; apply H4; reflexivity].
  - unfold terminal_records, reset.
    cbn [isBurnedOut hasExploded isBurning explosionTime burnTime time thrust
         burnRate burnRateMmS chamberPressure].
    split; [intros H; discriminate H|]. split; [reflexivity|].
    split; [intros H; discriminate H | reflexivity].
  - repeat split; try apply H1; try apply H2; try apply H3; try apply H4;
      assumption.
Qed.

Lemma construct_terminal_records (cfg : Config.t) :
  terminal_records (construct cfg).
Proof.
  unfold terminal_records, construct, reset.
  cbn [isBurnedOut hasExploded isBurning explosionTime burnTime time thrust
       burnRate burnRateMmS chamberPressure].
  split; [intros H; discriminate H|]. split; [reflexivity|].
  split; [intros H; discriminate H | reflexivity].
Qed.

(** X12. In every state reached from a new instance, by whatever calls:
    a burned-out motor is not burning and has not exploded, its
    [burnTime] is the time at which it stands, and its thrust and burn
    rate are 0 and its chamber pressure 101325 Pa; before burnout
    [burnTime] is 0; an exploded motor still has [isBurning] set and its
    [explosionTime] is the time at which it stands; otherwise
    [explosionTime] is null. *)
Theorem terminal_states_recorded (cfg : Config.t) (calls : list Call) :
  terminal_records (run approx calls (construct cfg)).
Proof.
  apply (run_invariant approx terminal_records (fun _ => true)).
  - intros c this _. apply call_terminal_records.
  - apply forallb_any.
  - apply construct_terminal_records.
Qed.

End Lifecycle.

(** ** The history arrays *)

Section Histories.

Variable approx : float -> float -> float.

Lemma appendHistory_empty (h : History.t) : appendHistory h History.empty = h.
Proof.
  destruct h. unfold appendHistory. cbn. rewrite !app_nil_r. reflexivity.
Qed.

Lemma appendHistory_assoc (h d e : History.t) :
  appendHistory (appendHistory h d) e = appendHistory h (appendHistory d e).
Proof.
  unfold appendHistory. cbn. rewrite <- !app_assoc. reflexivity.
Qed.

Lemma aligned_append (h d : History.t) :
  aligned h -> aligned d -> aligned (appendHistory h d).
Proof.
  unfold aligned, appendHistory. cbn. rewrite !length_app.
  intros (H1 & H2 & H3 & H4 & H5 & H6) (D1 & D2 & D3 & D4 & D5 & D6).
  repeat split; lia.
Qed.

(** What a call other than [reset] does to the history: nothing, or one
    entry more at the end of each array. *)
Lemma call_history (c : Call) (this : MotorSimulation) :
  no_reset c = true ->
  exists d,
    history (call approx this c) = appendHistory (history this) d
    /\ aligned d
    /\ (List.length (History.time d) <= if is_update c then 1 else 0)%nat.
Proof.
  intros Hc.
  assert (Hsame : forall next, history next = history this ->
            exists d, history next = appendHistory (history this) d
                      /\ aligned d /\ (List.length (History.time d) <= 0)%nat).
  { intros next E. exists History.empty. rewrite appendHistory_empty.
    split; [exact E|]. split; [repeat split | apply Nat.le_refl]. }
  destruct c as [|deltaTime| |newConfig]; cbn [call is_update].
  - apply Hsame. unfold ignite. destruct (_ && _); reflexivity.
  - unfold update.
    destruct (negb (isBurning this) || isBurnedOut this || hasExploded this).
    { destruct (Hsame this eq_refl) as (d & E & A & L).
      exists d. split; [exact E|]. split; [exact A | lia]. }
    cbv zeta. destruct (burnedThrough _ _).
    { destruct (Hsame this eq_refl) as (d & E & A & L).
      exists d. split; [exact E|]. split; [exact A | lia]. }
    cbn [history]. destruct (sampleDue _ _).
    + eexists (History.mk [_] [_] [_] [_] [_] [_] [_]).
      split; [reflexivity|]. split; [repeat split | apply Nat.le_refl].
    + destruct (Hsame this eq_refl) as (d & E & A & L).
      exists d. split; [exact E|]. split; [exact A | lia].
  - discriminate Hc.
  - apply Hsame. reflexivity.
Qed.

(** X13. In every state reached from a new instance the seven history
    arrays (time, pressure, thrust, burnRate, innerRadius, Kn, stress)
    have the same length, so index [i] names one sample in all of
    them. *)
Theorem history_arrays_aligned (cfg : Config.t) (calls : list Call) :
  aligned (history (run approx calls (construct cfg))).
Proof.
  apply (run_invariant approx (fun s => aligned (history s)) (fun _ => true)).
  - intros c this _ Hs. destruct (no_reset c) eqn:Hc.
    + destruct (call_history c this Hc) as (d & E & A & _).
      rewrite E. apply aligned_append; assumption.
    + destruct c; try discriminate Hc. repeat split.
  - apply forallb_any.
  - repeat split.
Qed.

(** X14. The history is append-only between resets: after any calls
    other than [reset], from any state, each array is what it was
    followed by new entries, the same number in every array and at most
    one for each [update] call. *)
Theorem history_append_only (calls : list Call) (this : MotorSimulation) :
  forallb no_reset calls = true ->
  exists d,
    history (run approx calls this) = appendHistory (history this) d
    /\ aligned d
    /\ (List.length (History.time d) <= List.length (filter is_update calls))%nat.
Proof.
  revert this. induction calls as [|c calls IH]; intros this H.
  - exists History.empty. rewrite appendHistory_empty.
    split; [reflexivity|]. split; [repeat split | apply Nat.le_refl].
  - simpl in H. apply andb_prop in H as [H1 H2].
    change (run approx (c :: calls) this) with (run approx calls (call approx this c)).
    destruct (IH (call approx this c) H2) as (d2 & E2 & A2 & L2).
    destruct (call_history c this H1) as (d1 & E1 & A1 & L1).
    exists (appendHistory d1 d2). rewrite E2, E1, appendHistory_assoc.
    split; [reflexivity|]. split; [apply aligned_append; assumption|].
    unfold appendHistory. cbn [History.time filter]. rewrite length_app.
    destruct (is_update c); cbn [List.length]; lia.
Qed.

End Histories.

(** ** Invariants of the quantities *)

Section Invariants.

Import FloatOrd JSFacts FloatArith MoreOrd FloatMore FloatBounds.

Variable approx : float -> float -> float.

Lemma chamber_pressure_range (burningArea throatArea : float)
    (propellant : Propellant.t) :
  let Pc := calculateChamberPressure approx burningArea throatArea propellant in
  is_finite Pc = true /\ (101325 <=? Pc) = true /\ (Pc <=? 15e6) = true.
Proof.
  cbv zeta. unfold calculateChamberPressure, chamberPressure_run.
  destruct (negb (truthy burningArea) || (burningArea <=? 0)); [repeat split|].
  destruct (negb (truthy throatArea) || (throatArea <=? 0)); [repeat split|].
  cbv zeta. destruct (pressure_loop _ _ _ _ _ _ _ _ _ _) as [Pc k].
  destruct (negb (isFinite Pc) || isNaN Pc) eqn:Ef; cbn [fst]; [repeat split|].
  apply orb_false_elim in Ef as [Ef En]. apply negb_false_iff in Ef.
  unfold isNaN, isFinite in *.
  destruct (clamp_bounds CONSTANTS.ATMOSPHERIC_PRESSURE 15e6 Pc En eq_refl)
    as (Hlo & Hhi & Hc).
  split; [|split; assumption].
  destruct Hc as [-> | [-> | ->]]; auto.
Qed.

Lemma construct_pressure_inv (cfg : Config.t) : pressure_inv (construct cfg).
Proof.
  unfold pressure_inv, construct, reset. cbn [chamberPressure maxPressure].
  split; [reflexivity|]. split; [reflexivity|]. split; [reflexivity|].
  left. reflexivity.
Qed.

Lemma call_pressure_inv (c : Call) (this : MotorSimulation) :
  pressure_inv this -> pressure_inv (call approx this c).
Proof.
  intros (Hf & Hlo & Hhi & Hmax).
  destruct c as [|deltaTime| |newConfig]; cbn [call].
  - unfold ignite. destruct (_ && _); repeat split; assumption.
  - unfold update.
    destruct (negb (isBurning this) || isBurnedOut this || hasExploded this);
      [repeat split; assumption|].
    cbv zeta.
    set (Pc := calculateChamberPressure approx _ _ _).
    destruct (chamber_pressure_range
                (calculateBurningArea (Config.grainConfig (config this))
                   (currentInnerRadius this))
                (calculateThroatArea
                   (Nozzle.throatDiameter (Config.nozzle (config this))))
                (Config.propellant (config this))) as (Pf & Plo & Phi).
    fold Pc in Pf, Plo, Phi.
    assert (Nm : is_nan (maxPressure this) = false).
    { destruct Hmax as [-> | [_ H]]; [reflexivity | apply (leb_not_nan _ _ H)]. }
    assert (M15 : (maxPressure this <=? 15e6) = true).
    { destruct Hmax as [-> | [_ H]]; [reflexivity | exact H]. }
    pose proof (Math_max_ge_r (maxPressure this) Pc Nm (is_finite_not_nan _ Pf)) as G.
    pose proof (Math_max_lub (maxPressure this) Pc 15e6 M15 Phi) as U.
    destruct (burnedThrough _ _); unfold pressure_inv;
      cbn [chamberPressure maxPressure].
    + split; [reflexivity|]. split; [reflexivity|]. split; [reflexivity|].
      right. split; [|exact U]. apply leb_trans with Pc; assumption.
    + split; [exact Pf|]. split; [exact Plo|]. split; [exact Phi|].
      right. split; assumption.
  - apply construct_pressure_inv.
  - repeat split; assumption.
Qed.

(** X15. In every state reached from a new instance, by whatever calls
    and configuration changes, the chamber pressure is finite and lies
    between 101325 Pa and 15e6 Pa.  The peak pressure is either 0, the
    value [reset()] gives it (below the chamber pressure), or lies
    between the chamber pressure and 15e6 Pa. *)
Theorem pressure_within_clamp (cfg : Config.t) (calls : list Call) :
  pressure_inv (run approx calls (construct cfg)).
Proof.
  apply (run_invariant approx pressure_inv (fun _ => true)).
  - intros c this _. apply call_pressure_inv.
  - apply forallb_any.
  - apply construct_pressure_inv.
Qed.

(** X16. The peak pressure never decreases: no call other than
    [reset] lowers [maxPressure]. *)
Theorem peak_pressure_never_decreases (cfg : Config.t) (calls : list Call)
    (c : Call) :
  no_reset c = true ->
  let this := run approx calls (construct cfg) in
  (maxPressure this <=? maxPressure (call approx this c)) = true.
Proof.
  intros Hr. cbv zeta.
  assert (H : pressure_inv (run approx calls (construct cfg))).
  { apply (run_invariant approx pressure_inv (fun _ => true));
      [| apply forallb_any | apply construct_pressure_inv].
    intros c' s _. apply call_pressure_inv. }
  set (this := run approx calls (construct cfg)) in *.
  destruct H as (_ & _ & _ & Hmax).
  assert (Nm : is_nan (maxPressure this) = false).
  { destruct Hmax as [-> | [_ H]]; [reflexivity | apply (leb_not_nan _ _ H)]. }
  pose proof (leb_refl _ Nm) as Hsame.
  destruct c as [|deltaTime| |newConfig]; cbn [call].
  - unfold ignite. destruct (_ && _); exact Hsame.
  - unfold update.
    destruct (negb (isBurning this) || isBurnedOut this || hasExploded this);
      [exact Hsame|].
    cbv zeta.
    destruct (chamber_pressure_range
                (calculateBurningArea (Config.grainConfig (config this))
                   (currentInnerRadius this))
                (calculateThroatArea
                   (Nozzle.throatDiameter (Config.nozzle (config this))))
                (Config.propellant (config this))) as (Pf & _ & _).
    destruct (burnedThrough _ _); cbn [maxPressure];
      apply Math_max_ge_l; try assumption; apply is_finite_not_nan, Pf.
  - discriminate Hr.
  - exact Hsame.
Qed.

Lemma call_time (c : Call) (this : MotorSimulation) :
  nonneg_step c = true -> (0 <=? time this) = true ->
  (0 <=? time (call approx this c)) = true
  /\ (no_reset c = true -> (time this <=? time (call approx this c)) = true).
Proof.
  intros Hc H0.
  assert (Hsame : (0 <=? time this) = true
                  /\ (no_reset c = true -> (time this <=? time this) = true)).
  { split; [exact H0|]. intros _. apply leb_refl. apply (leb_not_nan _ _ H0). }
  destruct c as [|deltaTime| |newConfig]; cbn [call].
  - unfold ignite. destruct (_ && _); exact Hsame.
  - unfold update.
    destruct (negb (isBurning this) || isBurnedOut this || hasExploded this);
      [exact Hsame|].
    cbv zeta. cbn [nonneg_step] in Hc.
    destruct (burnedThrough _ _); cbn [time];
      (split; [apply add_nonneg; assumption | intros _; apply add_ge; assumption]).
  - split; [reflexivity | intros H; discriminate H].
  - exact Hsame.
Qed.

(** X17. When no [update] call is given a negative or NaN time step,
    the simulated time is never negative and no call other than
    [reset] decreases it. *)
Theorem time_never_decreases (cfg : Config.t) (calls : list Call) (c : Call) :
  forallb nonneg_step calls = true -> nonneg_step c = true ->
  no_reset c = true ->
  let this := run approx calls (construct cfg) in
  (0 <=? time this) = true
  /\ (time this <=? time (call approx this c)) = true.
Proof.
  intros Hcalls Hc Hr this.
  assert (H0 : (0 <=? time this) = true).
  { apply (run_invariant approx (fun s => (0 <=? time s) = true) nonneg_step);
      [| exact Hcalls | reflexivity].
    intros c' s Hc' Hs. apply (call_time c' s Hc' Hs). }
  split; [exact H0|]. apply (call_time c this Hc H0), Hr.
Qed.

(** X18. For a configuration with [0 <= coreRadius <= outerRadius] and
    [update] steps that are positive and finite, the inner radius never
    decreases: no call other than [reset] makes the grain grow back. *)
Theorem radius_never_decreases (cfg : Config.t) (calls : list Call) (c : Call) :
  let g := Config.grainConfig cfg in
  (0 <=? Grain.coreRadius g) = true ->
  (Grain.coreRadius g <=? Grain.outerRadius g) = true ->
  forallb stepping_call calls = true -> stepping_call c = true ->
  no_reset c = true ->
  let this := run approx calls (construct cfg) in
  (currentInnerRadius this <=? currentInnerRadius (call approx this c)) = true.
Proof.
  cbv zeta. intros C0 CO Hcalls Hc Hr.
  assert (H : radius_inv cfg (run approx calls (construct cfg))).
  { apply (run_invariant approx (radius_inv cfg) stepping_call);
      [| exact Hcalls |].
    - intros c' s Hc' Hs. apply call_radius_inv; assumption.
    - unfold radius_inv, construct, reset.
      cbn [config currentInnerRadius isBurnedOut].
      split; [reflexivity|]. split; [|intros _; exact CO].
      apply leb_refl. apply (leb_not_nan _ _ CO). }
  set (this := run approx calls (construct cfg)) in *.
  destruct H as (_ & Hlo & _).
  pose proof (leb_trans _ _ _ C0 Hlo) as R0.
  assert (Hsame : (currentInnerRadius this <=? currentInnerRadius this) = true).
  { apply leb_refl. apply (leb_not_nan _ _ R0). }
  destruct c as [|deltaTime| |newConfig]; cbn [call].
  - unfold ignite. destruct (_ && _); exact Hsame.
  - destruct (Phase_eq_dec (phase this) Burning) as [Hp | Hp].
    2:{ rewrite (update_not_burning approx deltaTime this Hp). exact Hsame. }
    destruct (update_radius approx deltaTime this Hp) as (_ & _ & rate & Q0 & Q1 & E).
    rewrite E. cbn [stepping_call] in Hc. apply andb_prop in Hc as [D0 D1].
    apply add_ge; [exact R0|]. apply regression_nonneg; assumption.
  - discriminate Hr.
  - discriminate Hc.
Qed.

Lemma scaled_thrust (F efficiency : float) :
  is_finite F = true -> (0 <=? F) = true ->
  (0 <? efficiency) = true -> (efficiency <=? 1) = true ->
  is_finite (F * efficiency) = true /\ (0 <=? F * efficiency) = true
  /\ (F * efficiency <=? F) = true.
Proof.
  intros FF F0 E0 E1.
  pose proof (mul_le_l F efficiency F0 E0 E1) as L.
  assert (FE : is_finite efficiency = true).
  { apply (finite_below efficiency 1); [apply ltb_leb, E0 | exact E1 | reflexivity]. }
  assert (N : (0 <=? F * efficiency) = true).
  { apply mul_nonneg; [exact F0 | apply ltb_leb, E0 |].
    apply mul_finite_not_nan; assumption. }
  split; [apply (finite_below _ F N L FF)|]. split; assumption.
Qed.

Lemma update_thrust (deltaTime : float) (this : MotorSimulation) :
  let efficiency := Nozzle.efficiency (Config.nozzle (config this)) in
  (0 <? efficiency) = true -> (efficiency <=? 1) = true ->
  thrust_inv this -> thrust_inv (update approx deltaTime this).
Proof.
  cbv zeta. intros E0 E1 (Tf & T0 & Tm & Mf).
  unfold update.
  destruct (negb (isBurning this) || isBurnedOut this || hasExploded this);
    [repeat split; assumption|].
  cbv zeta. destruct (burnedThrough _ _); unfold thrust_inv; cbn [thrust maxThrust].
  - split; [reflexivity|]. split; [reflexivity|].
    split; [apply leb_trans with (thrust this); assumption | exact Mf].
  - set (F := calculateThrust _ _ _ _ _).
    destruct (calculateThrust_finite_nonneg approx (Config.propellant (config this))
      (calculateChamberPressure approx
         (calculateBurningArea (Config.grainConfig (config this))
            (currentInnerRadius this))
         (calculateThroatArea (Nozzle.throatDiameter (Config.nozzle (config this))))
         (Config.propellant (config this)))
      (calculateThroatArea (Nozzle.throatDiameter (Config.nozzle (config this))))
      (Math_PI * Math_pow approx
                   (Nozzle.exitDiameter (Config.nozzle (config this)) / 2) 2))
      as [FF F0].
    fold F in FF, F0.
    destruct (scaled_thrust F _ FF F0 E0 E1) as (S1 & S2 & _).
    pose proof (is_finite_not_nan _ S1) as N1.
    pose proof (is_finite_not_nan _ Mf) as N2.
    split; [exact S1|]. split; [exact S2|].
    split; [apply Math_max_ge_r; assumption|].
    destruct (Math_max_cases (maxThrust this)
                (F * Nozzle.efficiency (Config.nozzle (config this))) N2 N1)
      as [-> | ->]; assumption.
Qed.

Lemma call_thrust_inv (cfg : Config.t) (c : Call) (this : MotorSimulation) :
  let efficiency := Nozzle.efficiency (Config.nozzle cfg) in
  (0 <? efficiency) = true -> (efficiency <=? 1) = true ->
  keeps_config c = true ->
  config this = cfg /\ thrust_inv this ->
  config (call approx this c) = cfg /\ thrust_inv (call approx this c).
Proof.
  cbv zeta. intros E0 E1 Hc [Hcfg Hinv].
  split; [rewrite (call_config approx c this Hc); exact Hcfg|].
  destruct c as [|deltaTime| |newConfig]; cbn [call].
  - unfold ignite. destruct (_ && _); exact Hinv.
  - apply update_thrust; [rewrite Hcfg; exact E0 | rewrite Hcfg; exact E1 | exact Hinv].
  - repeat split.
  - discriminate Hc.
Qed.

(** X19. For a nozzle efficiency in (0, 1] and any sequence of
    [ignite], [update] and [reset] calls, with whatever time steps: the
    thrust is finite, not negative and at most [maxThrust], which is
    finite. *)
Theorem thrust_bounded_by_its_maximum (cfg : Config.t) (calls : list Call) :
  let efficiency := Nozzle.efficiency (Config.nozzle cfg) in
  (0 <? efficiency) = true -> (efficiency <=? 1) = true ->
  forallb keeps_config calls = true ->
  thrust_inv (run approx calls (construct cfg)).
Proof.
  cbv zeta. intros E0 E1 Hcalls.
  apply (run_invariant approx (fun s => config s = cfg /\ thrust_inv s) keeps_config);
    [| exact Hcalls | split; [reflexivity | repeat split]].
  intros c this Hc Hs. apply call_thrust_inv; assumption.
Qed.

Lemma call_impulse (cfg : Config.t) (c : Call) (this : MotorSimulation) :
  let efficiency := Nozzle.efficiency (Config.nozzle cfg) in
  (0 <? efficiency) = true -> (efficiency <=? 1) = true ->
  stepping_call c = true ->
  config this = cfg -> (0 <=? totalImpulse this) = true ->
  (0 <=? totalImpulse (call approx this c)) = true
  /\ (no_reset c = true ->
      (totalImpulse this <=? totalImpulse (call approx this c)) = true).
Proof.
  cbv zeta. intros E0 E1 Hc Hcfg H0.
  assert (Hsame : (0 <=? totalImpulse this) = true
                  /\ (no_reset c = true ->
                      (totalImpulse this <=? totalImpulse this) = true)).
  { split; [exact H0|]. intros _. apply leb_refl. apply (leb_not_nan _ _ H0). }
  destruct c as [|deltaTime| |newConfig]; cbn [call].
  - unfold ignite. destruct (_ && _); exact Hsame.
  - unfold update.
    destruct (negb (isBurning this) || isBurnedOut this || hasExploded this);
      [exact Hsame|].
    cbv zeta. destruct (burnedThrough _ _); cbn [totalImpulse]; [exact Hsame|].
    set (F := calculateThrust _ _ _ _ _).
    destruct (calculateThrust_finite_nonneg approx (Config.propellant (config this))
      (calculateChamberPressure approx
         (calculateBurningArea (Config.grainConfig (config this))
            (currentInnerRadius this))
         (calculateThroatArea (Nozzle.throatDiameter (Config.nozzle (config this))))
         (Config.propellant (config this)))
      (calculateThroatArea (Nozzle.throatDiameter (Config.nozzle (config this))))
      (Math_PI * Math_pow approx
                   (Nozzle.exitDiameter (Config.nozzle (config this)) / 2) 2))
      as [FF F0].
    fold F in FF, F0. rewrite Hcfg.
    destruct (scaled_thrust F _ FF F0 E0 E1) as (S1 & S2 & _).
    cbn [stepping_call] in Hc. apply andb_prop in Hc as [D0 D1].
    assert (I : (0 <=? F * Nozzle.efficiency (Config.nozzle cfg) * deltaTime) = true).
    { apply mul_nonneg; [exact S2 | apply ltb_leb, D0 |].
      apply mul_finite_not_nan; [exact S1|].
      apply finite_of_ltb_infinity; [apply ltb_leb, D0 | exact D1]. }
    split; [apply add_nonneg; assumption | intros _; apply add_ge; assumption].
  - split; [reflexivity | intros H; discriminate H].
  - discriminate Hc.
Qed.

(** X20. For a nozzle efficiency in (0, 1] and [update] steps that are
    positive and finite, the total impulse is never negative and no
    call other than [reset] decreases it. *)
Theorem impulse_never_decreases (cfg : Config.t) (calls : list Call) (c : Call) :
  let efficiency := Nozzle.efficiency (Config.nozzle cfg) in
  (0 <? efficiency) = true -> (efficiency <=? 1) = true ->
  forallb stepping_call calls = true -> stepping_call c = true ->
  no_reset c = true ->
  let this := run approx calls (construct cfg) in
  (0 <=? totalImpulse this) = true
  /\ (totalImpulse this <=? totalImpulse (call approx this c)) = true.
Proof.
  cbv zeta. intros E0 E1 Hcalls Hc Hr.
  assert (H : config (run approx calls (construct cfg)) = cfg
              /\ (0 <=? totalImpulse (run approx calls (construct cfg))) = true).
  { apply (run_invariant approx
             (fun s => config s = cfg /\ (0 <=? totalImpulse s) = true)
             stepping_call); [| exact Hcalls | split; reflexivity].
    intros c' s Hc' [Hs1 Hs2]. split.
    - rewrite (call_config approx c' s (stepping_keeps_config c' Hc')). exact Hs1.
    - apply (call_impulse cfg c' s E0 E1 Hc' Hs1 Hs2). }
  destruct H as [H1 H2]. split; [exact H2|].
  apply (call_impulse cfg c _ E0 E1 Hc H1 H2), Hr.
Qed.

Lemma call_burn_rate_inv (c : Call) (this : MotorSimulation) :
  burn_rate_inv this -> burn_rate_inv (call approx this c).
Proof.
  intros Hinv. destruct c as [|deltaTime| |newConfig]; cbn [call].
  - unfold ignite. destruct (_ && _); exact Hinv.
  - unfold update.
    destruct (negb (isBurning this) || isBurnedOut this || hasExploded this);
      [exact Hinv|].
    cbv zeta. destruct (burnedThrough _ _); unfold burn_rate_inv;
      cbn [burnRate burnRateMmS]; [repeat split|].
    split; [apply burn_rate_range|]. split; [apply burn_rate_range | reflexivity].
  - repeat split.
  - exact Hinv.
Qed.

Lemma run_burn_rate_inv (cfg : Config.t) (calls : list Call) :
  burn_rate_inv (run approx calls (construct cfg)).
Proof.
  apply (run_invariant approx burn_rate_inv (fun _ => true));
    [| apply forallb_any | repeat split].
  intros c this _. apply call_burn_rate_inv.
Qed.

(** X21. In every state reached from a new instance the burn rate lies
    between 0 and 0.030 m/s and [burnRateMmS] is that rate times 1000;
    so the burn rate [getState()] reports, in mm/s, lies between 0 and
    30. *)
Theorem burn_rate_reported_in_mm (cfg : Config.t) (calls : list Call) :
  let this := run approx calls (construct cfg) in
  burn_rate_inv this
  /\ (0 <=? Snapshot.burnRate (getState this)) = true
  /\ (Snapshot.burnRate (getState this) <=? 30) = true.
Proof.
  cbv zeta. pose proof (run_burn_rate_inv cfg calls) as H.
  split; [exact H|]. destruct H as (R0 & R1 & E).
  cbn [getState Snapshot.burnRate]. rewrite E.
  apply mm_per_s_range; assumption.
Qed.

Lemma call_failure_inv (cfg : Config.t) (c : Call) (this : MotorSimulation) :
  (0 <=? Material.ultimateStrength (Config.material cfg)) = true ->
  keeps_config c = true ->
  failure_inv cfg this -> failure_inv cfg (call approx this c).
Proof.
  intros U0 Hc (Hcfg & Hex & Hsf & Hbo).
  destruct c as [|deltaTime| |newConfig]; cbn [call].
  - unfold ignite. destruct (_ && _); repeat split; assumption.
  - destruct (Phase_eq_dec (phase this) Burning) as [Hp | Hp].
    2:{ rewrite (update_not_burning approx deltaTime this Hp).
        repeat split; assumption. }
    unfold phase in Hp.
    destruct (hasExploded this) eqn:Ex; [discriminate|].
    destruct (isBurnedOut this) eqn:Bo; [discriminate|].
    destruct (isBurning this) eqn:Bu; [|discriminate].
    unfold update. rewrite Ex, Bo, Bu. cbv zeta. cbv beta iota delta [negb orb].
    unfold failure_inv. rewrite Hcfg.
    set (r1 := currentInnerRadius this + _ * deltaTime).
    destruct (burnedThrough (Config.grainConfig cfg) r1) eqn:Bt;
      cbn [config hasExploded stress safetyFactor isBurnedOut currentInnerRadius].
    + split; [reflexivity|]. split; [exact Hex|]. split; [exact Hsf|].
      intros _. exact Bt.
    + split; [reflexivity|]. unfold checkForFailure. cbn [catastrophic].
      split; [|split; [reflexivity | intros H; discriminate H]].
      match goal with |- (if ?b then _ else _) = _ => destruct b end; reflexivity.
  - unfold failure_inv, reset.
    cbn [config hasExploded stress safetyFactor isBurnedOut currentInnerRadius].
    split; [exact Hcfg|]. rewrite Hcfg.
    split; [symmetry; apply (leb_ltb_false _ _ U0)|].
    split; [reflexivity | intros H; discriminate H].
  - discriminate Hc.
Qed.

(** X22. For a material whose ultimate strength is not negative and any
    sequence of [ignite], [update] and [reset] calls: the motor has
    exploded exactly when the recorded stress exceeds the ultimate
    strength, the recorded safety factor is the one of the recorded
    stress, and a burned-out motor has a radius that passes the burnout
    test. *)
Theorem failure_flags_consistent (cfg : Config.t) (calls : list Call) :
  (0 <=? Material.ultimateStrength (Config.material cfg)) = true ->
  forallb keeps_config calls = true ->
  failure_inv cfg (run approx calls (construct cfg)).
Proof.
  intros U0 Hcalls.
  apply (run_invariant approx (failure_inv cfg) keeps_config);
    [| exact Hcalls |].
  - intros c s Hc Hs. apply call_failure_inv; assumption.
  - unfold failure_inv, construct, reset.
    cbn [config hasExploded stress safetyFactor isBurnedOut currentInnerRadius].
    split; [reflexivity|].
    split; [symmetry; apply (leb_ltb_false _ _ U0)|].
    split; [reflexivity | intros H; discriminate H].
Qed.


End Invariants.

(** ** The telemetry panel and the report *)

Section Telemetry.

Import FloatOrd JSFacts FloatArith MoreOrd FloatMore FloatBounds.

Variable approx : float -> float -> float.
Variable toFixed : float -> nat -> string.

(** X24. A safety factor of zero (or [-Infinity]) is shown as [>10] by
    [formatSF], because zero is falsy, while [getSafetyClass] marks the
    same cell [danger].  Zero is what [calculateSafetyFactor] returns
    for an infinite stress and a finite yield strength. *)
Theorem zero_safety_factor_display (sf : float) (material : Material.t) :
  ((sf =? 0) = true \/ sf = neg_infinity ->
   StatusDisplay.formatSF toFixed sf = ">10"%string
   /\ StatusDisplay.getSafetyClass sf = "danger"%string)
  /\ (is_finite (Material.yieldStrength material) = true ->
      StatusDisplay.formatSF toFixed (calculateSafetyFactor infinity material)
      = ">10"%string
      /\ StatusDisplay.getSafetyClass (calculateSafetyFactor infinity material)
         = "danger"%string).
Proof.
  assert (H : forall x, (x =? 0) = true \/ x = neg_infinity ->
            StatusDisplay.formatSF toFixed x = ">10"%string
            /\ StatusDisplay.getSafetyClass x = "danger"%string).
  { intros x [E | ->]; [|split; reflexivity].
    unfold StatusDisplay.formatSF, StatusDisplay.getSafetyClass, truthy.
    rewrite E, orb_true_r. cbn [negb orb].
    rewrite (leb_ltb_trans x 0 1 (eqb_leb _ _ E) eq_refl). split; reflexivity. }
  split; [apply H|].
  intros Fy. apply H. left. unfold calculateSafetyFactor.
  change (infinity <=? 0) with false. cbv iota zeta.
  destruct (infinity_div_zero _ Fy) as [-> | ->]; reflexivity.
Qed.

Lemma or_else_zero_cases x : or_else x 0 = x \/ or_else x 0 = 0.
Proof. unfold or_else. destruct (truthy x); auto. Qed.

Lemma guard_passes val :
  is_finite val = true -> isNaN val || negb (isFinite val) = false.
Proof.
  intros F. unfold isNaN, isFinite. rewrite F, (is_finite_not_nan _ F). reflexivity.
Qed.

Lemma progress_in_unit (this : MotorSimulation) :
  let p := Snapshot.grainBurnProgress (getState this) in
  (0 <=? p) = true /\ (p <=? 1) = true.
Proof.
  cbv zeta. unfold getState. cbn [Snapshot.grainBurnProgress].
  set (ratio := _ / _). unfold isNaN.
  destruct (is_nan (Math_max 0 (Math_min ratio 1))) eqn:N; [split; reflexivity|].
  assert (Nr : is_nan ratio = false).
  { destruct (is_nan ratio) eqn:E; [|reflexivity].
    rewrite (Math_min_nan ratio 1) in N by (rewrite E; reflexivity).
    discriminate N. }
  destruct (clamp_bounds 0 1 ratio Nr eq_refl) as (H1 & H2 & _). split; assumption.
Qed.

(** X25. The fallbacks of the formatters are never used on what the
    engine reports: for the state of every instance reached from a new
    one, [formatPressure], [formatBurnRate] and [formatProgress] render
    the value itself (the pressure in MPa, the burn rate, the progress
    in percent) with [toFixed], never the fixed text for NaN or
    infinite values. *)
Theorem telemetry_fallbacks_unused (cfg : Config.t) (calls : list Call) :
  let state := getState (run approx calls (construct cfg)) in
  StatusDisplay.formatPressure toFixed (Snapshot.chamberPressure state)
  = toFixed (Snapshot.chamberPressure state / 1e6) 2
  /\ StatusDisplay.formatBurnRate toFixed (Snapshot.burnRate state)
     = toFixed (or_else (Snapshot.burnRate state) 0) 2
  /\ StatusDisplay.formatProgress toFixed (Snapshot.grainBurnProgress state)
     = toFixed (or_else (Snapshot.grainBurnProgress state) 0 * 100) 1.
Proof.
  cbv zeta. set (this := run approx calls (construct cfg)).
  split; [|split].
  - assert (H : pressure_inv this).
    { apply (run_invariant approx pressure_inv (fun _ => true));
        [| apply forallb_any | apply construct_pressure_inv].
      intros c s _. apply call_pressure_inv. }
    destruct H as (Pf & Plo & Phi & _).
    cbn [getState Snapshot.chamberPressure]. unfold StatusDisplay.formatPressure.
    set (cp := chamberPressure this) in *.
    assert (P0 : (0 <? cp) = true)
      by (apply ltb_leb_trans with 101325; [reflexivity | exact Plo]).
    assert (T : or_else cp 0 = cp).
    { unfold or_else, truthy.
      rewrite (is_finite_not_nan _ Pf).
      destruct (ltb_eqb_false _ _ P0) as [_ ->]. reflexivity. }
    cbv zeta. rewrite T.
    rewrite guard_passes; [reflexivity|].
    apply (finite_below (cp / 1e6) (15e6 / 1e6)); [| |reflexivity].
    + apply div_nonneg; try reflexivity. apply ltb_leb, P0.
    + apply div_mono; try reflexivity; [apply ltb_leb, P0 | exact Phi].
  - destruct (run_burn_rate_inv approx cfg calls) as (R0 & R1 & E).
    fold this in R0, R1, E.
    cbn [getState Snapshot.burnRate]. unfold StatusDisplay.formatBurnRate.
    cbv zeta. rewrite guard_passes; [reflexivity|].
    assert (F : is_finite (burnRateMmS this) = true).
    { rewrite E. destruct (mm_per_s_range _ R0 R1) as [M0 M1].
      apply (finite_below _ 30 M0 M1). reflexivity. }
    destruct (or_else_zero_cases (burnRateMmS this)) as [-> | ->];
      [exact F | reflexivity].
  - destruct (progress_in_unit this) as [G0 G1].
    set (p := Snapshot.grainBurnProgress (getState this)) in *.
    unfold StatusDisplay.formatProgress. cbv zeta.
    rewrite guard_passes; [reflexivity|].
    assert (B : (0 <=? or_else p 0) = true /\ (or_else p 0 <=? 1) = true).
    { destruct (or_else_zero_cases p) as [-> | ->]; split; auto. }
    destruct B as [B0 B1]. rewrite (mul_comm _ 100).
    apply (finite_below (100 * or_else p 0) (100 * 1)); [| |reflexivity].
    + apply mul_nonneg; [reflexivity | exact B0 |].
      apply mul_finite_not_nan; [reflexivity|].
      apply (finite_below _ 1 B0 B1). reflexivity.
    + apply mul_mono; try reflexivity; assumption.
Qed.

Ltac split_ifs :=
  repeat match goal with
    | |- context [if ?c then _ else _] => destruct c eqn:?
    end.

(** X26. The motor class of the telemetry panel does not decrease with
    the impulse: a larger impulse gets the same class or a later one in
    the order A, B, ..., O, P+. *)
Theorem motor_class_monotone (impulse1 impulse2 : float) :
  (impulse1 <=? impulse2) = true ->
  (classRank (StatusDisplay.getMotorClass impulse1)
   <= classRank (StatusDisplay.getMotorClass impulse2))%nat.
Proof.
  intros H. unfold StatusDisplay.getMotorClass.
  split_ifs;
    try (apply Nat.leb_le; reflexivity);
    exfalso;
    match goal with
    | E2 : (impulse2 <=? ?t) = true, E1 : (impulse1 <=? ?t) = false |- _ =>
        rewrite (leb_trans impulse1 impulse2 t H E2) in E1; discriminate E1
    end.
Qed.


(** X28. Until the motor has burned out the report shows an average
    thrust of 0, because [burnTime] is still 0: also for a motor that
    exploded after delivering impulse.  A motor that has not exploded
    is then reported as [Not Fired], even while the telemetry panel
    says [BURNING]. *)
Theorem report_before_burnout (cfg : Config.t) (calls : list Call) :
  let this := run approx calls (construct cfg) in
  isBurnedOut this = false ->
  ReportPage.avgThrust (getState this) = 0
  /\ (hasExploded this = false ->
      ReportPage.status (getState this) = "Not Fired"%string
      /\ (isBurning this = true ->
          StatusDisplay.getStatusText (getState this) = "BURNING"%string))
  /\ (hasExploded this = true ->
      ReportPage.status (getState this) = "CATO (Catastrophic Failure)"%string).
Proof.
  cbv zeta. intros Hb.
  assert (H : terminal_records (run approx calls (construct cfg))).
  { apply (run_invariant approx terminal_records (fun _ => true)).
    - intros c this _. apply call_terminal_records.
    - apply forallb_any.
    - apply construct_terminal_records. }
  destruct H as (_ & H2 & _).
  unfold ReportPage.avgThrust, ReportPage.status, StatusDisplay.getStatusText.
  cbn [getState Snapshot.totalImpulse Snapshot.burnTime Snapshot.hasExploded
       Snapshot.isBurnedOut Snapshot.isBurning].
  rewrite (H2 Hb), Hb.
  split; [|split].
  - change (truthy 0) with false. rewrite andb_false_r. reflexivity.
  - intros ->. split; [reflexivity | intros ->; reflexivity].
  - intros ->. reflexivity.
Qed.

End Telemetry.

(** ** Sampling the history for the charts *)

Section Sampled.

Import ReportPage.

Lemma mod_succ (step i : nat) :
  (0 < step)%nat ->
  (S i) mod step = if Nat.eqb (S (i mod step)) step then O else S (i mod step).
Proof.
  intros Hs. pose proof (Nat.div_mod_eq i step) as E.
  pose proof (Nat.mod_upper_bound i step ltac:(lia)) as B.
  destruct (Nat.eqb_spec (S (i mod step)) step) as [Heq | Hne].
  - symmetry. apply (Nat.mod_unique (S i) step (S (i / step)) 0); lia.
  - symmetry. apply (Nat.mod_unique (S i) step (i / step) (S (i mod step))); lia.
Qed.

(** Entry [k] of the filtered array: the first kept entry is the first
    one whose index is a multiple of [step], the others follow [step]
    apart. *)
Lemma filterFrom_nth {A : Type} (step : nat) (a : list A) :
  (0 < step)%nat ->
  forall i k,
    nth_error (filterFrom (onStep step) i a) k
    = nth_error a ((if Nat.eqb (i mod step) 0 then 0 else step - i mod step)
                   + k * step).
Proof.
  intros Hs. induction a as [|x rest IH]; intros i k.
  - cbn [filterFrom]. destruct k; destruct (_ + _)%nat; reflexivity.
  - cbn [filterFrom]. unfold onStep at 1. destruct step as [|s]; [lia|].
    pose proof (Nat.mod_upper_bound i (S s) ltac:(lia)) as B.
    pose proof (mod_succ (S s) i Hs) as M.
    destruct (Nat.eqb_spec (i mod S s) 0) as [E0 | E0].
    + destruct k as [|k]; [reflexivity|].
      replace (0 + S k * S s)%nat with (S (s + k * S s)) by lia.
      cbn [nth_error]. rewrite IH. f_equal. rewrite M, E0.
      destruct (Nat.eqb_spec 1 (S s)); cbn [Nat.eqb]; lia.
    + replace (S s - i mod S s + k * S s)%nat
        with (S (S s - S (i mod S s) + k * S s)) by lia.
      cbn [nth_error]. rewrite IH. f_equal. rewrite M.
      destruct (Nat.eqb_spec (S (i mod S s)) (S s)); cbn [Nat.eqb]; lia.
Qed.

Lemma filterFrom_every {A : Type} (step : nat) (a : list A) :
  (0 < step)%nat -> everyNth step (filterFrom (onStep step) 0 a) a.
Proof.
  intros Hs k. rewrite (filterFrom_nth step a Hs 0 k).
  rewrite Nat.Div0.mod_0_l. reflexivity.
Qed.

Lemma filterFrom_length {A B : Type} (keep : nat -> bool) (a : list A) (b : list B) :
  List.length a = List.length b ->
  forall i, List.length (filterFrom keep i a) = List.length (filterFrom keep i b).
Proof.
  revert b. induction a as [|x a IH]; intros [|y b] H i; try discriminate H;
    [reflexivity|].
  cbn [filterFrom]. injection H as H.
  destruct (keep i); cbn [List.length]; rewrite (IH b H (S i)); reflexivity.
Qed.

Lemma ceilDiv_covers (n d : nat) : (0 < d)%nat -> (n <= d * ceilDiv n d)%nat.
Proof.
  intros Hd. unfold ceilDiv.
  pose proof (Nat.div_mod_eq (n + d - 1) d) as E.
  pose proof (Nat.mod_upper_bound (n + d - 1) d ltac:(lia)) as B.
  lia.
Qed.

Lemma ceilDiv_pos (n d : nat) : (0 < d)%nat -> (d < n)%nat -> (0 < ceilDiv n d)%nat.
Proof.
  intros Hd Hn. pose proof (ceilDiv_covers n d Hd).
  destruct (ceilDiv n d); lia.
Qed.

Lemma everyNth_self {A : Type} (a : list A) : everyNth 1 a a.
Proof. intros k. rewrite Nat.mul_1_r. reflexivity. Qed.

(** X29. [sampledData] of the report page: a history of at most 300
    samples is returned as it is; a longer one is thinned to at most 300
    samples.  In both cases there is a step such that sample [k] of each
    of the seven arrays is entry [k * step] of the original array, the
    first entry included, so arrays of one length stay of one length
    and index [k] still names one sample in all of them. *)
Theorem sampled_data_keeps_every_nth (history : History.t) :
  let sampled := sampledData history in
  ((List.length (History.time history) <= 300)%nat -> sampled = history)
  /\ (List.length (History.time sampled) <= 300)%nat
  /\ (aligned history -> aligned sampled)
  /\ exists step,
       (0 < step)%nat
       /\ everyNth step (History.time sampled) (History.time history)
       /\ everyNth step (History.pressure sampled) (History.pressure history)
       /\ everyNth step (History.thrust sampled) (History.thrust history)
       /\ everyNth step (History.burnRate sampled) (History.burnRate history)
       /\ everyNth step (History.innerRadius sampled) (History.innerRadius history)
       /\ everyNth step (History.Kn sampled) (History.Kn history)
       /\ everyNth step (History.stress sampled) (History.stress history).
Proof.
  cbv zeta. unfold sampledData. change maxPoints with 300%nat.
  destruct (Nat.leb_spec (List.length (History.time history)) 300%nat) as [Hle | Hgt].
  { split; [reflexivity|]. split; [exact Hle|]. split; [intros H; exact H|].
    exists 1%nat. split; [lia|]. repeat split; apply everyNth_self. }
  cbv zeta. set (step := ceilDiv (List.length (History.time history)) 300%nat).
  assert (Hs : (0 < step)%nat) by (apply ceilDiv_pos; lia).
  cbn [History.time History.pressure History.thrust History.burnRate
       History.innerRadius History.Kn History.stress].
  split; [intros H; lia|]. split; [|split].
  - destruct (Nat.le_gt_cases
                (List.length (filterFrom (onStep step) 0 (History.time history)))
                300%nat) as [H | H]; [exact H|].
    exfalso. apply nth_error_Some in H.
    rewrite (filterFrom_every step _ Hs 300%nat) in H.
    apply H. apply nth_error_None.
    pose proof (ceilDiv_covers (List.length (History.time history)) 300%nat
                  ltac:(lia)) as Hc.
    fold step in Hc. lia.
  - unfold aligned.
    cbn [History.time History.pressure History.thrust History.burnRate
         History.innerRadius History.Kn History.stress].
    intros (H1 & H2 & H3 & H4 & H5 & H6).
    repeat split; apply filterFrom_length; assumption.
  - exists step. split; [exact Hs|]. repeat split; apply filterFrom_every, Hs.
Qed.

End Sampled.

(** ** Instances of the further properties *)

Lemma thrust_coefficient_range_witness :
  let Cf := calculateThrustCoefficient Engine.pow_series 1.133 2.5e-4 6.4e-5 3.5e6 in
  (1 <=? Cf) = true /\ (Cf <=? 2.2) = true /\ is_finite Cf = true.
Proof.
  apply (thrust_coefficient_range Engine.pow_series 1.133 2.5e-4 6.4e-5 3.5e6).
  reflexivity.
Defined.

Lemma thrust_finite_bounded_witness :
  let F := calculateThrust Engine.pow_series 3.5e6 6.4e-5 2.5e-4 PROPELLANTS.KNSB in
  (3.5e6 * 6.4e-5 <=? F) = true /\ (F <=? 2.2 * 3.5e6 * 6.4e-5) = true.
Proof.
  cbv zeta.
  destruct (thrust_finite_bounded Engine.pow_series PROPELLANTS.KNSB
              3.5e6 6.4e-5 2.5e-4) as (_ & _ & _ & H).
  apply H; reflexivity.
Defined.

Lemma yielding_and_safety_factor_witness :
  yielding (checkForFailure 300e6 MATERIALS.ALUMINUM) = true
  /\ (calculateSafetyFactor 300e6 MATERIALS.ALUMINUM <=? 1) = true.
Proof.
  assert (Y : yielding (checkForFailure 300e6 MATERIALS.ALUMINUM) = true)
    by reflexivity.
  split; [exact Y|].
  destruct (yielding_and_safety_factor 300e6 MATERIALS.ALUMINUM) as (_ & H & _).
  apply H; [reflexivity | exact Y].
Defined.

Lemma burning_area_saturates_witness :
  calculateBurningArea (Config.grainConfig defaultConfig) 0.0766
  = calculateBurningArea (Config.grainConfig defaultConfig) (0.0285 * 0.99).
Proof.
  destruct (burning_area_saturates (Config.grainConfig defaultConfig) 0.0766)
    as [_ H].
  apply H. reflexivity.
Defined.

Lemma burn_rate_floor_witness :
  calculateBurnRate Engine.pow_series (-5) PROPELLANTS.KNSB
  = calculateBurnRate Engine.pow_series 1e5 PROPELLANTS.KNSB.
Proof.
  apply (burn_rate_floor Engine.pow_series (-5) PROPELLANTS.KNSB). reflexivity.
Defined.

Lemma solver_early_stop_witness :
  let throatArea := calculateThroatArea 0.009 in
  snd (chamberPressure_run Engine.pow_series 0.014 throatArea PROPELLANTS.KNSB)
  = 8%nat
  /\ exists Pc,
       is_finite Pc = true
       /\ (Math_abs (pressureEstimate Engine.pow_series 1841 (8.26 / 1000) 0.319
                       (or_else 6.895 6.895 * 1e6) 885 0.014 throatArea Pc - Pc)
           <? 1000) = true
       /\ fst (chamberPressure_run Engine.pow_series 0.014 throatArea
                 PROPELLANTS.KNSB)
          = Math_max 101325 (Math_min Pc 15e6).
Proof.
  cbv zeta.
  assert (R : snd (chamberPressure_run Engine.pow_series 0.014
                     (calculateThroatArea 0.009) PROPELLANTS.KNSB) = 8%nat)
    by (vm_compute; reflexivity).
  split; [exact R|].
  apply (solver_early_stop Engine.pow_series PROPELLANTS.KNSB 0.014
           (calculateThroatArea 0.009)).
  rewrite R. lia.
Defined.

Lemma reset_restores_witness :
  reset (run Engine.pow_series [Ignite; Update 0.01; Update 10]
           (construct defaultConfig))
  = construct defaultConfig.
Proof.
  apply (reset_restores Engine.pow_series defaultConfig
           [Ignite; Update 0.01; Update 10]).
  reflexivity.
Defined.

Lemma history_append_only_witness :
  exists d,
    history (run Engine.pow_series [Update 0.01; Update 0.01]
               (ignite (construct defaultConfig)))
    = appendHistory History.empty d
    /\ aligned d /\ (List.length (History.time d) <= 2)%nat.
Proof.
  apply (history_append_only Engine.pow_series [Update 0.01; Update 0.01]
           (ignite (construct defaultConfig))).
  reflexivity.
Defined.

Lemma peak_pressure_never_decreases_witness :
  let this := run Engine.pow_series [Ignite] (construct defaultConfig) in
  (maxPressure this <=? maxPressure (update Engine.pow_series 0.01 this)) = true.
Proof.
  apply (peak_pressure_never_decreases Engine.pow_series defaultConfig [Ignite]
           (Update 0.01)).
  reflexivity.
Defined.

Lemma time_never_decreases_witness :
  let this := run Engine.pow_series [Ignite; Update 0.01] (construct defaultConfig) in
  (0 <=? time this) = true
  /\ (time this <=? time (update Engine.pow_series 0.02 this)) = true.
Proof.
  apply (time_never_decreases Engine.pow_series defaultConfig [Ignite; Update 0.01]
           (Update 0.02)); reflexivity.
Defined.

Lemma radius_never_decreases_witness :
  let this := run Engine.pow_series [Ignite; Update 0.01] (construct defaultConfig) in
  (currentInnerRadius this
   <=? currentInnerRadius (update Engine.pow_series 0.01 this)) = true.
Proof.
  apply (radius_never_decreases Engine.pow_series defaultConfig
           [Ignite; Update 0.01] (Update 0.01)); reflexivity.
Defined.

Lemma thrust_bounded_by_its_maximum_witness :
  thrust_inv (run Engine.pow_series [Ignite; Update 0.01; Update 0.01]
                (construct defaultConfig)).
Proof.
  apply (thrust_bounded_by_its_maximum Engine.pow_series defaultConfig
           [Ignite; Update 0.01; Update 0.01]); reflexivity.
Defined.

Lemma impulse_never_decreases_witness :
  let this := run Engine.pow_series [Ignite; Update 0.01] (construct defaultConfig) in
  (0 <=? totalImpulse this) = true
  /\ (totalImpulse this <=? totalImpulse (update Engine.pow_series 0.01 this)) = true.
Proof.
  apply (impulse_never_decreases Engine.pow_series defaultConfig
           [Ignite; Update 0.01] (Update 0.01)); reflexivity.
Defined.

Lemma failure_flags_consistent_witness :
  failure_inv defaultConfig
    (run Engine.pow_series [Ignite; Update 0.01; Update 10]
       (construct defaultConfig)).
Proof.
  apply (failure_flags_consistent Engine.pow_series defaultConfig
           [Ignite; Update 0.01; Update 10]); reflexivity.
Defined.


Lemma motor_class_monotone_witness :
  (classRank (StatusDisplay.getMotorClass 100)
   <= classRank (StatusDisplay.getMotorClass 1000))%nat.
Proof. apply (motor_class_monotone 100 1000). reflexivity. Defined.

Lemma report_before_burnout_witness :
  let this := run Engine.pow_series [Ignite; Update 0.01] (construct defaultConfig) in
  (0 <? totalImpulse this) = true
  /\ ReportPage.avgThrust (getState this) = 0
  /\ ReportPage.status (getState this) = "Not Fired"%string
  /\ StatusDisplay.getStatusText (getState this) = "BURNING"%string.
Proof.
  cbv zeta.
  assert (I : (0 <? totalImpulse (run Engine.pow_series [Ignite; Update 0.01]
                                    (construct defaultConfig))) = true)
    by (vm_compute; reflexivity).
  assert (B : isBurnedOut (run Engine.pow_series [Ignite; Update 0.01]
                             (construct defaultConfig)) = false)
    by (vm_compute; reflexivity).
  assert (E : hasExploded (run Engine.pow_series [Ignite; Update 0.01]
                             (construct defaultConfig)) = false)
    by (vm_compute; reflexivity).
  assert (G : isBurning (run Engine.pow_series [Ignite; Update 0.01]
                           (construct defaultConfig)) = true)
    by (vm_compute; reflexivity).
  destruct (report_before_burnout Engine.pow_series defaultConfig
              [Ignite; Update 0.01] B) as (H1 & H2 & _).
  destruct (H2 E) as [H3 H4].
  split; [exact I|]. split; [exact H1|]. split; [exact H3 | exact (H4 G)].
Defined.
